(** * MicroUI: a shallow embedding of microui.c and the proofs of its specification

    The definitions follow [microui.h] and [microui.c] function by function and keep
    their names.  Conventions of the embedding:

    - A C [int] is a [Z]; every [+], [-] and [*] the code performs on ints is written
      with its 32-bit two's-complement wrap-around ([int_add], [int_sub], [int_mul]).
      The theorems that depend on the exact value of a sum assume that the operands
      are in range, which is what C itself asks for.  [mu_Identifier] is [unsigned]:
      its arithmetic wraps modulo 2^32 ([wrap_uint]).
    - [expect] aborts the process.  Functions that can fail return an [outcome]:
      [Ok] with the result, [Fatal] when an [expect] fired, [Undef] when the code would
      read or write through a NULL or out-of-range pointer, [OutOfFuel] when a loop of
      the model was not given iterations enough (that says nothing about the code).
    - A [mu_stack(T, n)] is the list of its live items [items[0 .. idx-1]], bottom
      first; [idx] is the length of the list and the top is its last element.
    - A [mu_Container *] is the index of the container in [context->containers];
      NULL is [None].  A [mu_Command *] is the byte offset of the record from
      [command_list.items]; NULL is [None].
    - A C string is the list of its bytes before the terminating NUL. *)

From Stdlib Require Import ZArith List Lia.
From Stdlib.Strings Require Import Byte.
From Stdlib.Floats Require SpecFloat.
From stdpp Require Import base option list gmap numbers sorting.

Local Open Scope Z_scope.

(** ** Outcomes of fallible code *)

Inductive outcome (A : Type) : Type :=
| Ok (a : A)
| Fatal
| Undef
| OutOfFuel.
Arguments Ok {A} a.
Arguments Fatal {A}.
Arguments Undef {A}.
Arguments OutOfFuel {A}.

#[global] Instance outcome_ret : MRet outcome := @Ok.
#[global] Instance outcome_bind : MBind outcome :=
  λ A B f m,
    match m with Ok a => f a | Fatal => Fatal | Undef => Undef | OutOfFuel => OutOfFuel end.

(** [expect(x)]: abort unless [x]. *)
Definition expect (b : bool) : outcome unit := if b then Ok tt else Fatal.

(** A read through a pointer: undefined when the pointer is not valid. *)
Definition deref {A : Type} (o : option A) : outcome A :=
  match o with Some a => Ok a | None => Undef end.

(** ** Machine integers *)

Definition INT_MIN : Z := - 2 ^ 31.
Definition INT_MAX : Z := 2 ^ 31 - 1.
Definition in_int (z : Z) : Prop := INT_MIN ≤ z ≤ INT_MAX.
Definition wrap_int (z : Z) : Z := (z + 2 ^ 31) mod 2 ^ 32 - 2 ^ 31.
Definition wrap_uint (z : Z) : Z := z mod 2 ^ 32.
Definition int_add (a b : Z) : Z := wrap_int (a + b).
Definition int_sub (a b : Z) : Z := wrap_int (a - b).
Definition int_mul (a b : Z) : Z := wrap_int (a * b).

Definition byte_val (b : byte) : Z := Z.of_N (Byte.to_N b).

(** ** microui.h: constants *)

Definition MU_COMMANDLIST_SIZE : Z := 256 * 1024.
Definition MU_ROOTLIST_SIZE : Z := 32.
Definition MU_CONTAINERSTACK_SIZE : Z := 32.
Definition MU_CLIPSTACK_SIZE : Z := 32.
Definition MU_IDSTACK_SIZE : Z := 32.
Definition MU_LAYOUTSTACK_SIZE : Z := 16.
Definition MU_CONTAINERPOOL_SIZE : Z := 48.
Definition MU_TREENODEPOOL_SIZE : Z := 48.
Definition MU_MAX_WIDTHS : Z := 16.

Definition mu_min (a b : Z) : Z := if a <? b then a else b.
Definition mu_max (a b : Z) : Z := if a >? b then a else b.
Definition mu_clamp (x a b : Z) : Z := mu_min b (mu_max a x).

Definition MU_CLIP_PART : Z := 1.
Definition MU_CLIP_ALL : Z := 2.

Definition MU_COMMAND_JUMP : Z := 1.
Definition MU_COMMAND_CLIP : Z := 2.
Definition MU_COMMAND_RECT : Z := 3.
Definition MU_COMMAND_TEXT : Z := 4.
Definition MU_COMMAND_ICON : Z := 5.

Definition MU_COLOR_TEXT : Z := 0.
Definition MU_COLOR_BORDER : Z := 1.
Definition MU_COLOR_WINDOWBG : Z := 2.
Definition MU_COLOR_TITLEBG : Z := 3.
Definition MU_COLOR_TITLETEXT : Z := 4.
Definition MU_COLOR_PANELBG : Z := 5.
Definition MU_COLOR_BUTTON : Z := 6.
Definition MU_COLOR_BUTTONHOVER : Z := 7.
Definition MU_COLOR_BUTTONFOCUS : Z := 8.
Definition MU_COLOR_BASE : Z := 9.
Definition MU_COLOR_BASEHOVER : Z := 10.
Definition MU_COLOR_BASEFOCUS : Z := 11.
Definition MU_COLOR_SCROLLBASE : Z := 12.
Definition MU_COLOR_SCROLLTHUMB : Z := 13.

Definition MU_RES_ACTIVE : Z := 1.
Definition MU_RES_SUBMIT : Z := 2.
Definition MU_RES_CHANGE : Z := 4.

Definition MU_OPT_ALIGNCENTER : Z := 1.
Definition MU_OPT_ALIGNRIGHT : Z := 2.
Definition MU_OPT_NOINTERACT : Z := 4.
Definition MU_OPT_NOFRAME : Z := 8.
Definition MU_OPT_HOLDFOCUS : Z := 256.

Definition MU_MOUSE_LEFT : Z := 1.
Definition MU_MOUSE_RIGHT : Z := 2.
Definition MU_MOUSE_MIDDLE : Z := 4.

Definition MU_KEY_SHIFT : Z := 1.
Definition MU_KEY_BACKSPACE : Z := 8.
Definition MU_KEY_RETURN : Z := 16.

(** ** microui.h: types *)

Record mu_Vector2 : Type := { vec_x : Z; vec_y : Z }.
Record mu_Rectangle : Type := { rect_x : Z; rect_y : Z; rect_w : Z; rect_h : Z }.
Record mu_Color : Type := { red : Z; green : Z; blue : Z; alpha : Z }.
Record mu_PoolItem : Type := { identifier : Z; last_update : Z }.

(** The payload of a command record, after the [{type, size}] header.  [mu_Command] is
    a union: [NoData] is a payload nobody wrote yet, and [Clobbered d] is the payload
    of a record of another variant after [jump.dst] was stored over its first bytes. *)
Inductive mu_CommandData : Type :=
| JumpData (dst : option Z)
| ClipData (rectangle : mu_Rectangle)
| RectData (rectangle : mu_Rectangle) (color : mu_Color)
| TextData (font : Z) (position : mu_Vector2) (color : mu_Color) (str : list byte)
| IconData (rectangle : mu_Rectangle) (id : Z) (color : mu_Color)
| NoData
| Clobbered (dst : option Z).

Record mu_Command : Type := { cmd_type : Z; cmd_size : Z; cmd_data : mu_CommandData }.

Record mu_Layout : Type := {
  layout_body : mu_Rectangle;
  layout_next : mu_Rectangle;
  layout_position : mu_Vector2;
  layout_size : mu_Vector2;
  layout_max : mu_Vector2;
  layout_widths : list Z;
  layout_items : Z;
  layout_item_index : Z;
  layout_next_row : Z;
  layout_next_type : Z;
  layout_indentation : Z
}.

Record mu_Container : Type := {
  cnt_head : option Z;
  cnt_tail : option Z;
  cnt_rectangle : mu_Rectangle;
  cnt_body : mu_Rectangle;
  cnt_content_size : mu_Vector2;
  cnt_scroll : mu_Vector2;
  cnt_zindex : Z;
  cnt_open : Z
}.

Record mu_Style : Type := {
  style_font : Z;
  style_size : mu_Vector2;
  style_padding : Z;
  style_spacing : Z;
  style_indentation : Z;
  style_title_height : Z;
  style_scrollbar_size : Z;
  style_thumb_size : Z;
  style_colors : list mu_Color
}.

(** [struct mu_Context].  The [draw_frame] callback is not a field here: the model
    takes the function [draw_frame] that [mu_init] installs.  [style] is the style the
    pointer [context->style] refers to. *)
Record mu_Context : Type := {
  text_width : option (Z → list byte → Z → Z);
  text_height : option (Z → Z);
  style : mu_Style;
  hover : Z;
  focus : Z;
  last_identifier : Z;
  last_rect : mu_Rectangle;
  last_zindex : Z;
  updated_focus : Z;
  frame : Z;
  hover_root : option nat;
  next_hover_root : option nat;
  scroll_target : option nat;
  number_edit_buf : list byte;
  number_edit : Z;
  command_list_idx : Z;
  command_list_items : gmap Z mu_Command;
  root_list : list nat;
  container_stack : list nat;
  clip_stack : list mu_Rectangle;
  id_stack : list Z;
  layout_stack : list mu_Layout;
  container_pool : list mu_PoolItem;
  containers : list mu_Container;
  treenode_pool : list mu_PoolItem;
  mouse_pos : mu_Vector2;
  last_mouse_pos : mu_Vector2;
  mouse_delta : mu_Vector2;
  scroll_delta : mu_Vector2;
  mouse_down : Z;
  mouse_pressed : Z;
  key_down : Z;
  key_pressed : Z;
  input_text : list byte
}.

Definition with_text_width (v : option (Z → list byte → Z → Z)) (c : mu_Context) : mu_Context :=
  {| text_width := v; text_height := text_height c; style := style c; hover := hover c;
     focus := focus c; last_identifier := last_identifier c; last_rect := last_rect c;
     last_zindex := last_zindex c; updated_focus := updated_focus c; frame := frame c;
     hover_root := hover_root c; next_hover_root := next_hover_root c;
     scroll_target := scroll_target c; number_edit_buf := number_edit_buf c;
     number_edit := number_edit c; command_list_idx := command_list_idx c;
     command_list_items := command_list_items c; root_list := root_list c;
     container_stack := container_stack c; clip_stack := clip_stack c; id_stack := id_stack c;
     layout_stack := layout_stack c; container_pool := container_pool c;
     containers := containers c; treenode_pool := treenode_pool c; mouse_pos := mouse_pos c;
     last_mouse_pos := last_mouse_pos c; mouse_delta := mouse_delta c;
     scroll_delta := scroll_delta c; mouse_down := mouse_down c;
     mouse_pressed := mouse_pressed c; key_down := key_down c; key_pressed := key_pressed c;
     input_text := input_text c |}.
Definition with_text_height (v : option (Z → Z)) (c : mu_Context) : mu_Context :=
  {| text_width := text_width c; text_height := v; style := style c; hover := hover c;
     focus := focus c; last_identifier := last_identifier c; last_rect := last_rect c;
     last_zindex := last_zindex c; updated_focus := updated_focus c; frame := frame c;
     hover_root := hover_root c; next_hover_root := next_hover_root c;
     scroll_target := scroll_target c; number_edit_buf := number_edit_buf c;
     number_edit := number_edit c; command_list_idx := command_list_idx c;
     command_list_items := command_list_items c; root_list := root_list c;
     container_stack := container_stack c; clip_stack := clip_stack c; id_stack := id_stack c;
     layout_stack := layout_stack c; container_pool := container_pool c;
     containers := containers c; treenode_pool := treenode_pool c; mouse_pos := mouse_pos c;
     last_mouse_pos := last_mouse_pos c; mouse_delta := mouse_delta c;
     scroll_delta := scroll_delta c; mouse_down := mouse_down c;
     mouse_pressed := mouse_pressed c; key_down := key_down c; key_pressed := key_pressed c;
     input_text := input_text c |}.
Definition with_style (v : mu_Style) (c : mu_Context) : mu_Context :=
  {| text_width := text_width c; text_height := text_height c; style := v; hover := hover c;
     focus := focus c; last_identifier := last_identifier c; last_rect := last_rect c;
     last_zindex := last_zindex c; updated_focus := updated_focus c; frame := frame c;
     hover_root := hover_root c; next_hover_root := next_hover_root c;
     scroll_target := scroll_target c; number_edit_buf := number_edit_buf c;
     number_edit := number_edit c; command_list_idx := command_list_idx c;
     command_list_items := command_list_items c; root_list := root_list c;
     container_stack := container_stack c; clip_stack := clip_stack c; id_stack := id_stack c;
     layout_stack := layout_stack c; container_pool := container_pool c;
     containers := containers c; treenode_pool := treenode_pool c; mouse_pos := mouse_pos c;
     last_mouse_pos := last_mouse_pos c; mouse_delta := mouse_delta c;
     scroll_delta := scroll_delta c; mouse_down := mouse_down c;
     mouse_pressed := mouse_pressed c; key_down := key_down c; key_pressed := key_pressed c;
     input_text := input_text c |}.
Definition with_hover (v : Z) (c : mu_Context) : mu_Context :=
  {| text_width := text_width c; text_height := text_height c; style := style c; hover := v;
     focus := focus c; last_identifier := last_identifier c; last_rect := last_rect c;
     last_zindex := last_zindex c; updated_focus := updated_focus c; frame := frame c;
     hover_root := hover_root c; next_hover_root := next_hover_root c;
     scroll_target := scroll_target c; number_edit_buf := number_edit_buf c;
     number_edit := number_edit c; command_list_idx := command_list_idx c;
     command_list_items := command_list_items c; root_list := root_list c;
     container_stack := container_stack c; clip_stack := clip_stack c; id_stack := id_stack c;
     layout_stack := layout_stack c; container_pool := container_pool c;
     containers := containers c; treenode_pool := treenode_pool c; mouse_pos := mouse_pos c;
     last_mouse_pos := last_mouse_pos c; mouse_delta := mouse_delta c;
     scroll_delta := scroll_delta c; mouse_down := mouse_down c;
     mouse_pressed := mouse_pressed c; key_down := key_down c; key_pressed := key_pressed c;
     input_text := input_text c |}.
Definition with_focus (v : Z) (c : mu_Context) : mu_Context :=
  {| text_width := text_width c; text_height := text_height c; style := style c;
     hover := hover c; focus := v; last_identifier := last_identifier c;
     last_rect := last_rect c; last_zindex := last_zindex c; updated_focus := updated_focus c;
     frame := frame c; hover_root := hover_root c; next_hover_root := next_hover_root c;
     scroll_target := scroll_target c; number_edit_buf := number_edit_buf c;
     number_edit := number_edit c; command_list_idx := command_list_idx c;
     command_list_items := command_list_items c; root_list := root_list c;
     container_stack := container_stack c; clip_stack := clip_stack c; id_stack := id_stack c;
     layout_stack := layout_stack c; container_pool := container_pool c;
     containers := containers c; treenode_pool := treenode_pool c; mouse_pos := mouse_pos c;
     last_mouse_pos := last_mouse_pos c; mouse_delta := mouse_delta c;
     scroll_delta := scroll_delta c; mouse_down := mouse_down c;
     mouse_pressed := mouse_pressed c; key_down := key_down c; key_pressed := key_pressed c;
     input_text := input_text c |}.
Definition with_last_identifier (v : Z) (c : mu_Context) : mu_Context :=
  {| text_width := text_width c; text_height := text_height c; style := style c;
     hover := hover c; focus := focus c; last_identifier := v; last_rect := last_rect c;
     last_zindex := last_zindex c; updated_focus := updated_focus c; frame := frame c;
     hover_root := hover_root c; next_hover_root := next_hover_root c;
     scroll_target := scroll_target c; number_edit_buf := number_edit_buf c;
     number_edit := number_edit c; command_list_idx := command_list_idx c;
     command_list_items := command_list_items c; root_list := root_list c;
     container_stack := container_stack c; clip_stack := clip_stack c; id_stack := id_stack c;
     layout_stack := layout_stack c; container_pool := container_pool c;
     containers := containers c; treenode_pool := treenode_pool c; mouse_pos := mouse_pos c;
     last_mouse_pos := last_mouse_pos c; mouse_delta := mouse_delta c;
     scroll_delta := scroll_delta c; mouse_down := mouse_down c;
     mouse_pressed := mouse_pressed c; key_down := key_down c; key_pressed := key_pressed c;
     input_text := input_text c |}.
Definition with_last_rect (v : mu_Rectangle) (c : mu_Context) : mu_Context :=
  {| text_width := text_width c; text_height := text_height c; style := style c;
     hover := hover c; focus := focus c; last_identifier := last_identifier c; last_rect := v;
     last_zindex := last_zindex c; updated_focus := updated_focus c; frame := frame c;
     hover_root := hover_root c; next_hover_root := next_hover_root c;
     scroll_target := scroll_target c; number_edit_buf := number_edit_buf c;
     number_edit := number_edit c; command_list_idx := command_list_idx c;
     command_list_items := command_list_items c; root_list := root_list c;
     container_stack := container_stack c; clip_stack := clip_stack c; id_stack := id_stack c;
     layout_stack := layout_stack c; container_pool := container_pool c;
     containers := containers c; treenode_pool := treenode_pool c; mouse_pos := mouse_pos c;
     last_mouse_pos := last_mouse_pos c; mouse_delta := mouse_delta c;
     scroll_delta := scroll_delta c; mouse_down := mouse_down c;
     mouse_pressed := mouse_pressed c; key_down := key_down c; key_pressed := key_pressed c;
     input_text := input_text c |}.
Definition with_last_zindex (v : Z) (c : mu_Context) : mu_Context :=
  {| text_width := text_width c; text_height := text_height c; style := style c;
     hover := hover c; focus := focus c; last_identifier := last_identifier c;
     last_rect := last_rect c; last_zindex := v; updated_focus := updated_focus c;
     frame := frame c; hover_root := hover_root c; next_hover_root := next_hover_root c;
     scroll_target := scroll_target c; number_edit_buf := number_edit_buf c;
     number_edit := number_edit c; command_list_idx := command_list_idx c;
     command_list_items := command_list_items c; root_list := root_list c;
     container_stack := container_stack c; clip_stack := clip_stack c; id_stack := id_stack c;
     layout_stack := layout_stack c; container_pool := container_pool c;
     containers := containers c; treenode_pool := treenode_pool c; mouse_pos := mouse_pos c;
     last_mouse_pos := last_mouse_pos c; mouse_delta := mouse_delta c;
     scroll_delta := scroll_delta c; mouse_down := mouse_down c;
     mouse_pressed := mouse_pressed c; key_down := key_down c; key_pressed := key_pressed c;
     input_text := input_text c |}.
Definition with_updated_focus (v : Z) (c : mu_Context) : mu_Context :=
  {| text_width := text_width c; text_height := text_height c; style := style c;
     hover := hover c; focus := focus c; last_identifier := last_identifier c;
     last_rect := last_rect c; last_zindex := last_zindex c; updated_focus := v;
     frame := frame c; hover_root := hover_root c; next_hover_root := next_hover_root c;
     scroll_target := scroll_target c; number_edit_buf := number_edit_buf c;
     number_edit := number_edit c; command_list_idx := command_list_idx c;
     command_list_items := command_list_items c; root_list := root_list c;
     container_stack := container_stack c; clip_stack := clip_stack c; id_stack := id_stack c;
     layout_stack := layout_stack c; container_pool := container_pool c;
     containers := containers c; treenode_pool := treenode_pool c; mouse_pos := mouse_pos c;
     last_mouse_pos := last_mouse_pos c; mouse_delta := mouse_delta c;
     scroll_delta := scroll_delta c; mouse_down := mouse_down c;
     mouse_pressed := mouse_pressed c; key_down := key_down c; key_pressed := key_pressed c;
     input_text := input_text c |}.
Definition with_frame (v : Z) (c : mu_Context) : mu_Context :=
  {| text_width := text_width c; text_height := text_height c; style := style c;
     hover := hover c; focus := focus c; last_identifier := last_identifier c;
     last_rect := last_rect c; last_zindex := last_zindex c; updated_focus := updated_focus c;
     frame := v; hover_root := hover_root c; next_hover_root := next_hover_root c;
     scroll_target := scroll_target c; number_edit_buf := number_edit_buf c;
     number_edit := number_edit c; command_list_idx := command_list_idx c;
     command_list_items := command_list_items c; root_list := root_list c;
     container_stack := container_stack c; clip_stack := clip_stack c; id_stack := id_stack c;
     layout_stack := layout_stack c; container_pool := container_pool c;
     containers := containers c; treenode_pool := treenode_pool c; mouse_pos := mouse_pos c;
     last_mouse_pos := last_mouse_pos c; mouse_delta := mouse_delta c;
     scroll_delta := scroll_delta c; mouse_down := mouse_down c;
     mouse_pressed := mouse_pressed c; key_down := key_down c; key_pressed := key_pressed c;
     input_text := input_text c |}.
Definition with_hover_root (v : option nat) (c : mu_Context) : mu_Context :=
  {| text_width := text_width c; text_height := text_height c; style := style c;
     hover := hover c; focus := focus c; last_identifier := last_identifier c;
     last_rect := last_rect c; last_zindex := last_zindex c; updated_focus := updated_focus c;
     frame := frame c; hover_root := v; next_hover_root := next_hover_root c;
     scroll_target := scroll_target c; number_edit_buf := number_edit_buf c;
     number_edit := number_edit c; command_list_idx := command_list_idx c;
     command_list_items := command_list_items c; root_list := root_list c;
     container_stack := container_stack c; clip_stack := clip_stack c; id_stack := id_stack c;
     layout_stack := layout_stack c; container_pool := container_pool c;
     containers := containers c; treenode_pool := treenode_pool c; mouse_pos := mouse_pos c;
     last_mouse_pos := last_mouse_pos c; mouse_delta := mouse_delta c;
     scroll_delta := scroll_delta c; mouse_down := mouse_down c;
     mouse_pressed := mouse_pressed c; key_down := key_down c; key_pressed := key_pressed c;
     input_text := input_text c |}.
Definition with_next_hover_root (v : option nat) (c : mu_Context) : mu_Context :=
  {| text_width := text_width c; text_height := text_height c; style := style c;
     hover := hover c; focus := focus c; last_identifier := last_identifier c;
     last_rect := last_rect c; last_zindex := last_zindex c; updated_focus := updated_focus c;
     frame := frame c; hover_root := hover_root c; next_hover_root := v;
     scroll_target := scroll_target c; number_edit_buf := number_edit_buf c;
     number_edit := number_edit c; command_list_idx := command_list_idx c;
     command_list_items := command_list_items c; root_list := root_list c;
     container_stack := container_stack c; clip_stack := clip_stack c; id_stack := id_stack c;
     layout_stack := layout_stack c; container_pool := container_pool c;
     containers := containers c; treenode_pool := treenode_pool c; mouse_pos := mouse_pos c;
     last_mouse_pos := last_mouse_pos c; mouse_delta := mouse_delta c;
     scroll_delta := scroll_delta c; mouse_down := mouse_down c;
     mouse_pressed := mouse_pressed c; key_down := key_down c; key_pressed := key_pressed c;
     input_text := input_text c |}.
Definition with_scroll_target (v : option nat) (c : mu_Context) : mu_Context :=
  {| text_width := text_width c; text_height := text_height c; style := style c;
     hover := hover c; focus := focus c; last_identifier := last_identifier c;
     last_rect := last_rect c; last_zindex := last_zindex c; updated_focus := updated_focus c;
     frame := frame c; hover_root := hover_root c; next_hover_root := next_hover_root c;
     scroll_target := v; number_edit_buf := number_edit_buf c; number_edit := number_edit c;
     command_list_idx := command_list_idx c; command_list_items := command_list_items c;
     root_list := root_list c; container_stack := container_stack c;
     clip_stack := clip_stack c; id_stack := id_stack c; layout_stack := layout_stack c;
     container_pool := container_pool c; containers := containers c;
     treenode_pool := treenode_pool c; mouse_pos := mouse_pos c;
     last_mouse_pos := last_mouse_pos c; mouse_delta := mouse_delta c;
     scroll_delta := scroll_delta c; mouse_down := mouse_down c;
     mouse_pressed := mouse_pressed c; key_down := key_down c; key_pressed := key_pressed c;
     input_text := input_text c |}.
Definition with_number_edit_buf (v : list byte) (c : mu_Context) : mu_Context :=
  {| text_width := text_width c; text_height := text_height c; style := style c;
     hover := hover c; focus := focus c; last_identifier := last_identifier c;
     last_rect := last_rect c; last_zindex := last_zindex c; updated_focus := updated_focus c;
     frame := frame c; hover_root := hover_root c; next_hover_root := next_hover_root c;
     scroll_target := scroll_target c; number_edit_buf := v; number_edit := number_edit c;
     command_list_idx := command_list_idx c; command_list_items := command_list_items c;
     root_list := root_list c; container_stack := container_stack c;
     clip_stack := clip_stack c; id_stack := id_stack c; layout_stack := layout_stack c;
     container_pool := container_pool c; containers := containers c;
     treenode_pool := treenode_pool c; mouse_pos := mouse_pos c;
     last_mouse_pos := last_mouse_pos c; mouse_delta := mouse_delta c;
     scroll_delta := scroll_delta c; mouse_down := mouse_down c;
     mouse_pressed := mouse_pressed c; key_down := key_down c; key_pressed := key_pressed c;
     input_text := input_text c |}.
Definition with_number_edit (v : Z) (c : mu_Context) : mu_Context :=
  {| text_width := text_width c; text_height := text_height c; style := style c;
     hover := hover c; focus := focus c; last_identifier := last_identifier c;
     last_rect := last_rect c; last_zindex := last_zindex c; updated_focus := updated_focus c;
     frame := frame c; hover_root := hover_root c; next_hover_root := next_hover_root c;
     scroll_target := scroll_target c; number_edit_buf := number_edit_buf c; number_edit := v;
     command_list_idx := command_list_idx c; command_list_items := command_list_items c;
     root_list := root_list c; container_stack := container_stack c;
     clip_stack := clip_stack c; id_stack := id_stack c; layout_stack := layout_stack c;
     container_pool := container_pool c; containers := containers c;
     treenode_pool := treenode_pool c; mouse_pos := mouse_pos c;
     last_mouse_pos := last_mouse_pos c; mouse_delta := mouse_delta c;
     scroll_delta := scroll_delta c; mouse_down := mouse_down c;
     mouse_pressed := mouse_pressed c; key_down := key_down c; key_pressed := key_pressed c;
     input_text := input_text c |}.
Definition with_command_list_idx (v : Z) (c : mu_Context) : mu_Context :=
  {| text_width := text_width c; text_height := text_height c; style := style c;
     hover := hover c; focus := focus c; last_identifier := last_identifier c;
     last_rect := last_rect c; last_zindex := last_zindex c; updated_focus := updated_focus c;
     frame := frame c; hover_root := hover_root c; next_hover_root := next_hover_root c;
     scroll_target := scroll_target c; number_edit_buf := number_edit_buf c;
     number_edit := number_edit c; command_list_idx := v;
     command_list_items := command_list_items c; root_list := root_list c;
     container_stack := container_stack c; clip_stack := clip_stack c; id_stack := id_stack c;
     layout_stack := layout_stack c; container_pool := container_pool c;
     containers := containers c; treenode_pool := treenode_pool c; mouse_pos := mouse_pos c;
     last_mouse_pos := last_mouse_pos c; mouse_delta := mouse_delta c;
     scroll_delta := scroll_delta c; mouse_down := mouse_down c;
     mouse_pressed := mouse_pressed c; key_down := key_down c; key_pressed := key_pressed c;
     input_text := input_text c |}.
Definition with_command_list_items (v : gmap Z mu_Command) (c : mu_Context) : mu_Context :=
  {| text_width := text_width c; text_height := text_height c; style := style c;
     hover := hover c; focus := focus c; last_identifier := last_identifier c;
     last_rect := last_rect c; last_zindex := last_zindex c; updated_focus := updated_focus c;
     frame := frame c; hover_root := hover_root c; next_hover_root := next_hover_root c;
     scroll_target := scroll_target c; number_edit_buf := number_edit_buf c;
     number_edit := number_edit c; command_list_idx := command_list_idx c;
     command_list_items := v; root_list := root_list c; container_stack := container_stack c;
     clip_stack := clip_stack c; id_stack := id_stack c; layout_stack := layout_stack c;
     container_pool := container_pool c; containers := containers c;
     treenode_pool := treenode_pool c; mouse_pos := mouse_pos c;
     last_mouse_pos := last_mouse_pos c; mouse_delta := mouse_delta c;
     scroll_delta := scroll_delta c; mouse_down := mouse_down c;
     mouse_pressed := mouse_pressed c; key_down := key_down c; key_pressed := key_pressed c;
     input_text := input_text c |}.
Definition with_root_list (v : list nat) (c : mu_Context) : mu_Context :=
  {| text_width := text_width c; text_height := text_height c; style := style c;
     hover := hover c; focus := focus c; last_identifier := last_identifier c;
     last_rect := last_rect c; last_zindex := last_zindex c; updated_focus := updated_focus c;
     frame := frame c; hover_root := hover_root c; next_hover_root := next_hover_root c;
     scroll_target := scroll_target c; number_edit_buf := number_edit_buf c;
     number_edit := number_edit c; command_list_idx := command_list_idx c;
     command_list_items := command_list_items c; root_list := v;
     container_stack := container_stack c; clip_stack := clip_stack c; id_stack := id_stack c;
     layout_stack := layout_stack c; container_pool := container_pool c;
     containers := containers c; treenode_pool := treenode_pool c; mouse_pos := mouse_pos c;
     last_mouse_pos := last_mouse_pos c; mouse_delta := mouse_delta c;
     scroll_delta := scroll_delta c; mouse_down := mouse_down c;
     mouse_pressed := mouse_pressed c; key_down := key_down c; key_pressed := key_pressed c;
     input_text := input_text c |}.
Definition with_container_stack (v : list nat) (c : mu_Context) : mu_Context :=
  {| text_width := text_width c; text_height := text_height c; style := style c;
     hover := hover c; focus := focus c; last_identifier := last_identifier c;
     last_rect := last_rect c; last_zindex := last_zindex c; updated_focus := updated_focus c;
     frame := frame c; hover_root := hover_root c; next_hover_root := next_hover_root c;
     scroll_target := scroll_target c; number_edit_buf := number_edit_buf c;
     number_edit := number_edit c; command_list_idx := command_list_idx c;
     command_list_items := command_list_items c; root_list := root_list c;
     container_stack := v; clip_stack := clip_stack c; id_stack := id_stack c;
     layout_stack := layout_stack c; container_pool := container_pool c;
     containers := containers c; treenode_pool := treenode_pool c; mouse_pos := mouse_pos c;
     last_mouse_pos := last_mouse_pos c; mouse_delta := mouse_delta c;
     scroll_delta := scroll_delta c; mouse_down := mouse_down c;
     mouse_pressed := mouse_pressed c; key_down := key_down c; key_pressed := key_pressed c;
     input_text := input_text c |}.
Definition with_clip_stack (v : list mu_Rectangle) (c : mu_Context) : mu_Context :=
  {| text_width := text_width c; text_height := text_height c; style := style c;
     hover := hover c; focus := focus c; last_identifier := last_identifier c;
     last_rect := last_rect c; last_zindex := last_zindex c; updated_focus := updated_focus c;
     frame := frame c; hover_root := hover_root c; next_hover_root := next_hover_root c;
     scroll_target := scroll_target c; number_edit_buf := number_edit_buf c;
     number_edit := number_edit c; command_list_idx := command_list_idx c;
     command_list_items := command_list_items c; root_list := root_list c;
     container_stack := container_stack c; clip_stack := v; id_stack := id_stack c;
     layout_stack := layout_stack c; container_pool := container_pool c;
     containers := containers c; treenode_pool := treenode_pool c; mouse_pos := mouse_pos c;
     last_mouse_pos := last_mouse_pos c; mouse_delta := mouse_delta c;
     scroll_delta := scroll_delta c; mouse_down := mouse_down c;
     mouse_pressed := mouse_pressed c; key_down := key_down c; key_pressed := key_pressed c;
     input_text := input_text c |}.
Definition with_id_stack (v : list Z) (c : mu_Context) : mu_Context :=
  {| text_width := text_width c; text_height := text_height c; style := style c;
     hover := hover c; focus := focus c; last_identifier := last_identifier c;
     last_rect := last_rect c; last_zindex := last_zindex c; updated_focus := updated_focus c;
     frame := frame c; hover_root := hover_root c; next_hover_root := next_hover_root c;
     scroll_target := scroll_target c; number_edit_buf := number_edit_buf c;
     number_edit := number_edit c; command_list_idx := command_list_idx c;
     command_list_items := command_list_items c; root_list := root_list c;
     container_stack := container_stack c; clip_stack := clip_stack c; id_stack := v;
     layout_stack := layout_stack c; container_pool := container_pool c;
     containers := containers c; treenode_pool := treenode_pool c; mouse_pos := mouse_pos c;
     last_mouse_pos := last_mouse_pos c; mouse_delta := mouse_delta c;
     scroll_delta := scroll_delta c; mouse_down := mouse_down c;
     mouse_pressed := mouse_pressed c; key_down := key_down c; key_pressed := key_pressed c;
     input_text := input_text c |}.
Definition with_layout_stack (v : list mu_Layout) (c : mu_Context) : mu_Context :=
  {| text_width := text_width c; text_height := text_height c; style := style c;
     hover := hover c; focus := focus c; last_identifier := last_identifier c;
     last_rect := last_rect c; last_zindex := last_zindex c; updated_focus := updated_focus c;
     frame := frame c; hover_root := hover_root c; next_hover_root := next_hover_root c;
     scroll_target := scroll_target c; number_edit_buf := number_edit_buf c;
     number_edit := number_edit c; command_list_idx := command_list_idx c;
     command_list_items := command_list_items c; root_list := root_list c;
     container_stack := container_stack c; clip_stack := clip_stack c; id_stack := id_stack c;
     layout_stack := v; container_pool := container_pool c; containers := containers c;
     treenode_pool := treenode_pool c; mouse_pos := mouse_pos c;
     last_mouse_pos := last_mouse_pos c; mouse_delta := mouse_delta c;
     scroll_delta := scroll_delta c; mouse_down := mouse_down c;
     mouse_pressed := mouse_pressed c; key_down := key_down c; key_pressed := key_pressed c;
     input_text := input_text c |}.
Definition with_container_pool (v : list mu_PoolItem) (c : mu_Context) : mu_Context :=
  {| text_width := text_width c; text_height := text_height c; style := style c;
     hover := hover c; focus := focus c; last_identifier := last_identifier c;
     last_rect := last_rect c; last_zindex := last_zindex c; updated_focus := updated_focus c;
     frame := frame c; hover_root := hover_root c; next_hover_root := next_hover_root c;
     scroll_target := scroll_target c; number_edit_buf := number_edit_buf c;
     number_edit := number_edit c; command_list_idx := command_list_idx c;
     command_list_items := command_list_items c; root_list := root_list c;
     container_stack := container_stack c; clip_stack := clip_stack c; id_stack := id_stack c;
     layout_stack := layout_stack c; container_pool := v; containers := containers c;
     treenode_pool := treenode_pool c; mouse_pos := mouse_pos c;
     last_mouse_pos := last_mouse_pos c; mouse_delta := mouse_delta c;
     scroll_delta := scroll_delta c; mouse_down := mouse_down c;
     mouse_pressed := mouse_pressed c; key_down := key_down c; key_pressed := key_pressed c;
     input_text := input_text c |}.
Definition with_containers (v : list mu_Container) (c : mu_Context) : mu_Context :=
  {| text_width := text_width c; text_height := text_height c; style := style c;
     hover := hover c; focus := focus c; last_identifier := last_identifier c;
     last_rect := last_rect c; last_zindex := last_zindex c; updated_focus := updated_focus c;
     frame := frame c; hover_root := hover_root c; next_hover_root := next_hover_root c;
     scroll_target := scroll_target c; number_edit_buf := number_edit_buf c;
     number_edit := number_edit c; command_list_idx := command_list_idx c;
     command_list_items := command_list_items c; root_list := root_list c;
     container_stack := container_stack c; clip_stack := clip_stack c; id_stack := id_stack c;
     layout_stack := layout_stack c; container_pool := container_pool c; containers := v;
     treenode_pool := treenode_pool c; mouse_pos := mouse_pos c;
     last_mouse_pos := last_mouse_pos c; mouse_delta := mouse_delta c;
     scroll_delta := scroll_delta c; mouse_down := mouse_down c;
     mouse_pressed := mouse_pressed c; key_down := key_down c; key_pressed := key_pressed c;
     input_text := input_text c |}.
Definition with_treenode_pool (v : list mu_PoolItem) (c : mu_Context) : mu_Context :=
  {| text_width := text_width c; text_height := text_height c; style := style c;
     hover := hover c; focus := focus c; last_identifier := last_identifier c;
     last_rect := last_rect c; last_zindex := last_zindex c; updated_focus := updated_focus c;
     frame := frame c; hover_root := hover_root c; next_hover_root := next_hover_root c;
     scroll_target := scroll_target c; number_edit_buf := number_edit_buf c;
     number_edit := number_edit c; command_list_idx := command_list_idx c;
     command_list_items := command_list_items c; root_list := root_list c;
     container_stack := container_stack c; clip_stack := clip_stack c; id_stack := id_stack c;
     layout_stack := layout_stack c; container_pool := container_pool c;
     containers := containers c; treenode_pool := v; mouse_pos := mouse_pos c;
     last_mouse_pos := last_mouse_pos c; mouse_delta := mouse_delta c;
     scroll_delta := scroll_delta c; mouse_down := mouse_down c;
     mouse_pressed := mouse_pressed c; key_down := key_down c; key_pressed := key_pressed c;
     input_text := input_text c |}.
Definition with_mouse_pos (v : mu_Vector2) (c : mu_Context) : mu_Context :=
  {| text_width := text_width c; text_height := text_height c; style := style c;
     hover := hover c; focus := focus c; last_identifier := last_identifier c;
     last_rect := last_rect c; last_zindex := last_zindex c; updated_focus := updated_focus c;
     frame := frame c; hover_root := hover_root c; next_hover_root := next_hover_root c;
     scroll_target := scroll_target c; number_edit_buf := number_edit_buf c;
     number_edit := number_edit c; command_list_idx := command_list_idx c;
     command_list_items := command_list_items c; root_list := root_list c;
     container_stack := container_stack c; clip_stack := clip_stack c; id_stack := id_stack c;
     layout_stack := layout_stack c; container_pool := container_pool c;
     containers := containers c; treenode_pool := treenode_pool c; mouse_pos := v;
     last_mouse_pos := last_mouse_pos c; mouse_delta := mouse_delta c;
     scroll_delta := scroll_delta c; mouse_down := mouse_down c;
     mouse_pressed := mouse_pressed c; key_down := key_down c; key_pressed := key_pressed c;
     input_text := input_text c |}.
Definition with_last_mouse_pos (v : mu_Vector2) (c : mu_Context) : mu_Context :=
  {| text_width := text_width c; text_height := text_height c; style := style c;
     hover := hover c; focus := focus c; last_identifier := last_identifier c;
     last_rect := last_rect c; last_zindex := last_zindex c; updated_focus := updated_focus c;
     frame := frame c; hover_root := hover_root c; next_hover_root := next_hover_root c;
     scroll_target := scroll_target c; number_edit_buf := number_edit_buf c;
     number_edit := number_edit c; command_list_idx := command_list_idx c;
     command_list_items := command_list_items c; root_list := root_list c;
     container_stack := container_stack c; clip_stack := clip_stack c; id_stack := id_stack c;
     layout_stack := layout_stack c; container_pool := container_pool c;
     containers := containers c; treenode_pool := treenode_pool c; mouse_pos := mouse_pos c;
     last_mouse_pos := v; mouse_delta := mouse_delta c; scroll_delta := scroll_delta c;
     mouse_down := mouse_down c; mouse_pressed := mouse_pressed c; key_down := key_down c;
     key_pressed := key_pressed c; input_text := input_text c |}.
Definition with_mouse_delta (v : mu_Vector2) (c : mu_Context) : mu_Context :=
  {| text_width := text_width c; text_height := text_height c; style := style c;
     hover := hover c; focus := focus c; last_identifier := last_identifier c;
     last_rect := last_rect c; last_zindex := last_zindex c; updated_focus := updated_focus c;
     frame := frame c; hover_root := hover_root c; next_hover_root := next_hover_root c;
     scroll_target := scroll_target c; number_edit_buf := number_edit_buf c;
     number_edit := number_edit c; command_list_idx := command_list_idx c;
     command_list_items := command_list_items c; root_list := root_list c;
     container_stack := container_stack c; clip_stack := clip_stack c; id_stack := id_stack c;
     layout_stack := layout_stack c; container_pool := container_pool c;
     containers := containers c; treenode_pool := treenode_pool c; mouse_pos := mouse_pos c;
     last_mouse_pos := last_mouse_pos c; mouse_delta := v; scroll_delta := scroll_delta c;
     mouse_down := mouse_down c; mouse_pressed := mouse_pressed c; key_down := key_down c;
     key_pressed := key_pressed c; input_text := input_text c |}.
Definition with_scroll_delta (v : mu_Vector2) (c : mu_Context) : mu_Context :=
  {| text_width := text_width c; text_height := text_height c; style := style c;
     hover := hover c; focus := focus c; last_identifier := last_identifier c;
     last_rect := last_rect c; last_zindex := last_zindex c; updated_focus := updated_focus c;
     frame := frame c; hover_root := hover_root c; next_hover_root := next_hover_root c;
     scroll_target := scroll_target c; number_edit_buf := number_edit_buf c;
     number_edit := number_edit c; command_list_idx := command_list_idx c;
     command_list_items := command_list_items c; root_list := root_list c;
     container_stack := container_stack c; clip_stack := clip_stack c; id_stack := id_stack c;
     layout_stack := layout_stack c; container_pool := container_pool c;
     containers := containers c; treenode_pool := treenode_pool c; mouse_pos := mouse_pos c;
     last_mouse_pos := last_mouse_pos c; mouse_delta := mouse_delta c; scroll_delta := v;
     mouse_down := mouse_down c; mouse_pressed := mouse_pressed c; key_down := key_down c;
     key_pressed := key_pressed c; input_text := input_text c |}.
Definition with_mouse_down (v : Z) (c : mu_Context) : mu_Context :=
  {| text_width := text_width c; text_height := text_height c; style := style c;
     hover := hover c; focus := focus c; last_identifier := last_identifier c;
     last_rect := last_rect c; last_zindex := last_zindex c; updated_focus := updated_focus c;
     frame := frame c; hover_root := hover_root c; next_hover_root := next_hover_root c;
     scroll_target := scroll_target c; number_edit_buf := number_edit_buf c;
     number_edit := number_edit c; command_list_idx := command_list_idx c;
     command_list_items := command_list_items c; root_list := root_list c;
     container_stack := container_stack c; clip_stack := clip_stack c; id_stack := id_stack c;
     layout_stack := layout_stack c; container_pool := container_pool c;
     containers := containers c; treenode_pool := treenode_pool c; mouse_pos := mouse_pos c;
     last_mouse_pos := last_mouse_pos c; mouse_delta := mouse_delta c;
     scroll_delta := scroll_delta c; mouse_down := v; mouse_pressed := mouse_pressed c;
     key_down := key_down c; key_pressed := key_pressed c; input_text := input_text c |}.
Definition with_mouse_pressed (v : Z) (c : mu_Context) : mu_Context :=
  {| text_width := text_width c; text_height := text_height c; style := style c;
     hover := hover c; focus := focus c; last_identifier := last_identifier c;
     last_rect := last_rect c; last_zindex := last_zindex c; updated_focus := updated_focus c;
     frame := frame c; hover_root := hover_root c; next_hover_root := next_hover_root c;
     scroll_target := scroll_target c; number_edit_buf := number_edit_buf c;
     number_edit := number_edit c; command_list_idx := command_list_idx c;
     command_list_items := command_list_items c; root_list := root_list c;
     container_stack := container_stack c; clip_stack := clip_stack c; id_stack := id_stack c;
     layout_stack := layout_stack c; container_pool := container_pool c;
     containers := containers c; treenode_pool := treenode_pool c; mouse_pos := mouse_pos c;
     last_mouse_pos := last_mouse_pos c; mouse_delta := mouse_delta c;
     scroll_delta := scroll_delta c; mouse_down := mouse_down c; mouse_pressed := v;
     key_down := key_down c; key_pressed := key_pressed c; input_text := input_text c |}.
Definition with_key_down (v : Z) (c : mu_Context) : mu_Context :=
  {| text_width := text_width c; text_height := text_height c; style := style c;
     hover := hover c; focus := focus c; last_identifier := last_identifier c;
     last_rect := last_rect c; last_zindex := last_zindex c; updated_focus := updated_focus c;
     frame := frame c; hover_root := hover_root c; next_hover_root := next_hover_root c;
     scroll_target := scroll_target c; number_edit_buf := number_edit_buf c;
     number_edit := number_edit c; command_list_idx := command_list_idx c;
     command_list_items := command_list_items c; root_list := root_list c;
     container_stack := container_stack c; clip_stack := clip_stack c; id_stack := id_stack c;
     layout_stack := layout_stack c; container_pool := container_pool c;
     containers := containers c; treenode_pool := treenode_pool c; mouse_pos := mouse_pos c;
     last_mouse_pos := last_mouse_pos c; mouse_delta := mouse_delta c;
     scroll_delta := scroll_delta c; mouse_down := mouse_down c;
     mouse_pressed := mouse_pressed c; key_down := v; key_pressed := key_pressed c;
     input_text := input_text c |}.
Definition with_key_pressed (v : Z) (c : mu_Context) : mu_Context :=
  {| text_width := text_width c; text_height := text_height c; style := style c;
     hover := hover c; focus := focus c; last_identifier := last_identifier c;
     last_rect := last_rect c; last_zindex := last_zindex c; updated_focus := updated_focus c;
     frame := frame c; hover_root := hover_root c; next_hover_root := next_hover_root c;
     scroll_target := scroll_target c; number_edit_buf := number_edit_buf c;
     number_edit := number_edit c; command_list_idx := command_list_idx c;
     command_list_items := command_list_items c; root_list := root_list c;
     container_stack := container_stack c; clip_stack := clip_stack c; id_stack := id_stack c;
     layout_stack := layout_stack c; container_pool := container_pool c;
     containers := containers c; treenode_pool := treenode_pool c; mouse_pos := mouse_pos c;
     last_mouse_pos := last_mouse_pos c; mouse_delta := mouse_delta c;
     scroll_delta := scroll_delta c; mouse_down := mouse_down c;
     mouse_pressed := mouse_pressed c; key_down := key_down c; key_pressed := v;
     input_text := input_text c |}.
Definition with_input_text (v : list byte) (c : mu_Context) : mu_Context :=
  {| text_width := text_width c; text_height := text_height c; style := style c;
     hover := hover c; focus := focus c; last_identifier := last_identifier c;
     last_rect := last_rect c; last_zindex := last_zindex c; updated_focus := updated_focus c;
     frame := frame c; hover_root := hover_root c; next_hover_root := next_hover_root c;
     scroll_target := scroll_target c; number_edit_buf := number_edit_buf c;
     number_edit := number_edit c; command_list_idx := command_list_idx c;
     command_list_items := command_list_items c; root_list := root_list c;
     container_stack := container_stack c; clip_stack := clip_stack c; id_stack := id_stack c;
     layout_stack := layout_stack c; container_pool := container_pool c;
     containers := containers c; treenode_pool := treenode_pool c; mouse_pos := mouse_pos c;
     last_mouse_pos := last_mouse_pos c; mouse_delta := mouse_delta c;
     scroll_delta := scroll_delta c; mouse_down := mouse_down c;
     mouse_pressed := mouse_pressed c; key_down := key_down c; key_pressed := key_pressed c;
     input_text := v |}.

Definition with_cnt_head (v : option Z) (c : mu_Container) : mu_Container :=
  {| cnt_head := v; cnt_tail := cnt_tail c; cnt_rectangle := cnt_rectangle c;
     cnt_body := cnt_body c; cnt_content_size := cnt_content_size c;
     cnt_scroll := cnt_scroll c; cnt_zindex := cnt_zindex c; cnt_open := cnt_open c |}.
Definition with_cnt_tail (v : option Z) (c : mu_Container) : mu_Container :=
  {| cnt_head := cnt_head c; cnt_tail := v; cnt_rectangle := cnt_rectangle c;
     cnt_body := cnt_body c; cnt_content_size := cnt_content_size c;
     cnt_scroll := cnt_scroll c; cnt_zindex := cnt_zindex c; cnt_open := cnt_open c |}.
Definition with_cnt_content_size (v : mu_Vector2) (c : mu_Container) : mu_Container :=
  {| cnt_head := cnt_head c; cnt_tail := cnt_tail c; cnt_rectangle := cnt_rectangle c;
     cnt_body := cnt_body c; cnt_content_size := v;
     cnt_scroll := cnt_scroll c; cnt_zindex := cnt_zindex c; cnt_open := cnt_open c |}.
Definition with_cnt_scroll (v : mu_Vector2) (c : mu_Container) : mu_Container :=
  {| cnt_head := cnt_head c; cnt_tail := cnt_tail c; cnt_rectangle := cnt_rectangle c;
     cnt_body := cnt_body c; cnt_content_size := cnt_content_size c;
     cnt_scroll := v; cnt_zindex := cnt_zindex c; cnt_open := cnt_open c |}.
Definition with_cnt_zindex (v : Z) (c : mu_Container) : mu_Container :=
  {| cnt_head := cnt_head c; cnt_tail := cnt_tail c; cnt_rectangle := cnt_rectangle c;
     cnt_body := cnt_body c; cnt_content_size := cnt_content_size c;
     cnt_scroll := cnt_scroll c; cnt_zindex := v; cnt_open := cnt_open c |}.

(** Replace the container a pointer [cnt] leads to by its image under [f]. *)
Definition update_container (f : mu_Container → mu_Container) (cnt : nat)
    (context : mu_Context) : outcome mu_Context :=
  c ← deref (containers context !! cnt);
  Ok (with_containers (<[cnt := f c]> (containers context)) context).

(** ** microui.c: the stack macros *)

(** [push(stk, val)] for a stack of capacity [capacity]. *)
Definition push {A : Type} (stk : list A) (capacity : Z) (val : A) : outcome (list A) :=
  expect (Z.of_nat (length stk) <? capacity);;
  Ok (stk ++ [val]).

(** [pop(stk)]. *)
Definition pop {A : Type} (stk : list A) : outcome (list A) :=
  expect (Z.of_nat (length stk) >? 0);;
  Ok (removelast stk).

(** ** microui.c: globals *)

Definition unclipped_rect : mu_Rectangle :=
  {| rect_x := 0; rect_y := 0; rect_w := 0x1000000; rect_h := 0x1000000 |}.

(** The fields of [mu_Color] are [unsigned char]: each [int] is stored modulo 256. *)
Definition mu_color (r g b a : Z) : mu_Color :=
  {| red := r mod 256; green := g mod 256; blue := b mod 256; alpha := a mod 256 |}.

Definition default_style : mu_Style :=
  {| style_font := 0;
     style_size := {| vec_x := 68; vec_y := 10 |};
     style_padding := 5;
     style_spacing := 4;
     style_indentation := 24;
     style_title_height := 24;
     style_scrollbar_size := 12;
     style_thumb_size := 8;
     style_colors :=
       [ mu_color 230 230 230 255; mu_color 25 25 25 255; mu_color 50 50 50 255;
         mu_color 25 25 25 255; mu_color 240 240 240 255; mu_color 0 0 0 0;
         mu_color 75 75 75 255; mu_color 95 95 95 255; mu_color 115 115 115 255;
         mu_color 30 30 30 255; mu_color 35 35 35 255; mu_color 40 40 40 255;
         mu_color 43 43 43 255; mu_color 30 30 30 255 ] |}.

(** ** microui.c: basic types *)

Definition mu_vec2 (x y : Z) : mu_Vector2 := {| vec_x := x; vec_y := y |}.

Definition mu_rect (x y w h : Z) : mu_Rectangle :=
  {| rect_x := x; rect_y := y; rect_w := w; rect_h := h |}.

Definition expand_rect (rectangle : mu_Rectangle) (n : Z) : mu_Rectangle :=
  mu_rect (int_sub (rect_x rectangle) n) (int_sub (rect_y rectangle) n)
          (int_add (rect_w rectangle) (int_mul n 2))
          (int_add (rect_h rectangle) (int_mul n 2)).

Definition intersect_rects (r1 r2 : mu_Rectangle) : mu_Rectangle :=
  let x1 := mu_max (rect_x r1) (rect_x r2) in
  let y1 := mu_max (rect_y r1) (rect_y r2) in
  let x2 := mu_min (int_add (rect_x r1) (rect_w r1)) (int_add (rect_x r2) (rect_w r2)) in
  let y2 := mu_min (int_add (rect_y r1) (rect_h r1)) (int_add (rect_y r2) (rect_h r2)) in
  let x2 := if x2 <? x1 then x1 else x2 in
  let y2 := if y2 <? y1 then y1 else y2 in
  mu_rect x1 y1 (int_sub x2 x1) (int_sub y2 y1).

Definition rect_overlaps_vec2 (r : mu_Rectangle) (p : mu_Vector2) : bool :=
  (vec_x p >=? rect_x r) && (vec_x p <? int_add (rect_x r) (rect_w r)) &&
  (vec_y p >=? rect_y r) && (vec_y p <? int_add (rect_y r) (rect_h r)).

(** ** Frame start *)

Definition mu_begin (context : mu_Context) : outcome mu_Context :=
  expect (bool_decide (is_Some (text_width context)) &&
          bool_decide (is_Some (text_height context)));;
  (* the bytes past [idx] are stale from now on: the model forgets them *)
  let context := with_command_list_items ∅ (with_command_list_idx 0 context) in
  let context := with_root_list [] context in
  let context := with_scroll_target None context in
  let context := with_hover_root (next_hover_root context) context in
  let context := with_next_hover_root None context in
  let context :=
    with_mouse_delta
      (mu_vec2 (int_sub (vec_x (mouse_pos context)) (vec_x (last_mouse_pos context)))
               (int_sub (vec_y (mouse_pos context)) (vec_y (last_mouse_pos context))))
      context in
  Ok (with_frame (int_add (frame context) 1) context).

(** The [zindex] a container pointer leads to (0 for a pointer outside the pool). *)
Definition zindex_of (context : mu_Context) (cnt : nat) : Z :=
  from_option cnt_zindex 0 (containers context !! cnt).

Definition compare_zindex (context : mu_Context) (a b : nat) : Z :=
  int_sub (zindex_of context a) (zindex_of context b).

Definition mu_set_focus (context : mu_Context) (id : Z) : mu_Context :=
  with_updated_focus 1 (with_focus id context).

Definition mu_bring_to_front (context : mu_Context) (cnt : nat) : outcome mu_Context :=
  let z := int_add (last_zindex context) 1 in
  update_container (with_cnt_zindex z) cnt (with_last_zindex z context).

(** ** Identifiers: 32-bit FNV-1a *)

Definition HASH_INITIAL : Z := 2166136261.

(** [hash(&h, data, size)], [data] being the [size] bytes read. *)
Fixpoint hash (h : Z) (data : list byte) : Z :=
  match data with
  | [] => h
  | p :: data' => hash (wrap_uint (Z.lxor h (byte_val p) * 16777619)) data'
  end.

Definition mu_get_id (context : mu_Context) (data : list byte) : Z * mu_Context :=
  let res :=
    match last (id_stack context) with
    | Some top => top
    | None => HASH_INITIAL
    end in
  let res := hash res data in
  (res, with_last_identifier res context).

Definition mu_push_id (context : mu_Context) (data : list byte) : outcome mu_Context :=
  expect (Z.of_nat (length (id_stack context)) <? MU_IDSTACK_SIZE);;
  let '(res, context) := mu_get_id context data in
  Ok (with_id_stack (id_stack context ++ [res]) context).

Definition mu_pop_id (context : mu_Context) : outcome mu_Context :=
  stk ← pop (id_stack context);
  Ok (with_id_stack stk context).

(** ** Clipping *)

Definition mu_get_clip_rect (context : mu_Context) : outcome mu_Rectangle :=
  expect (Z.of_nat (length (clip_stack context)) >? 0);;
  deref (last (clip_stack context)).

Definition mu_push_clip_rect (context : mu_Context) (rectangle : mu_Rectangle)
  : outcome mu_Context :=
  last_clip ← mu_get_clip_rect context;
  stk ← push (clip_stack context) MU_CLIPSTACK_SIZE (intersect_rects rectangle last_clip);
  Ok (with_clip_stack stk context).

Definition mu_pop_clip_rect (context : mu_Context) : outcome mu_Context :=
  stk ← pop (clip_stack context);
  Ok (with_clip_stack stk context).

Definition mu_check_clip (context : mu_Context) (r : mu_Rectangle) : outcome Z :=
  cr ← mu_get_clip_rect context;
  if (rect_x r >? int_add (rect_x cr) (rect_w cr)) ||
     (int_add (rect_x r) (rect_w r) <? rect_x cr) ||
     (rect_y r >? int_add (rect_y cr) (rect_h cr)) ||
     (int_add (rect_y r) (rect_h r) <? rect_y cr)
  then Ok MU_CLIP_ALL
  else if (rect_x r >=? rect_x cr) &&
          (int_add (rect_x r) (rect_w r) <=? int_add (rect_x cr) (rect_w cr)) &&
          (rect_y r >=? rect_y cr) &&
          (int_add (rect_y r) (rect_h r) <=? int_add (rect_y cr) (rect_h cr))
  then Ok 0
  else Ok MU_CLIP_PART.

(** ** Pools *)

Definition mu_pool_update (context : mu_Context) (items : list mu_PoolItem) (idx : nat)
  : list mu_PoolItem :=
  match items !! idx with
  | Some it => <[idx := {| identifier := identifier it; last_update := frame context |}]> items
  | None => items
  end.

(** The loop of [mu_pool_init]: [i] is the index, [todo] the iterations left, [f] and [n]
    the two locals.  Reading [items[i]] past the array is undefined. *)
Fixpoint mu_pool_init_loop (items : list mu_PoolItem) (todo i : nat) (f n : Z)
  : outcome (Z * Z) :=
  match todo with
  | O => Ok (f, n)
  | S todo' =>
      it ← deref (items !! i);
      if last_update it <? f
      then mu_pool_init_loop items todo' (S i) (last_update it) (Z.of_nat i)
      else mu_pool_init_loop items todo' (S i) f n
  end.

(** [mu_pool_init(context, items, length, identifier)]: the pool after the call and the
    index returned. *)
Definition mu_pool_init (context : mu_Context) (items : list mu_PoolItem) (length : Z)
    (id : Z) : outcome (list mu_PoolItem * Z) :=
  '(f, n) ← mu_pool_init_loop items (Z.to_nat length) 0 (frame context) (-1);
  expect (n >? -1);;
  it ← deref (items !! Z.to_nat n);
  let items := <[Z.to_nat n := {| identifier := id; last_update := last_update it |}]> items in
  Ok (mu_pool_update context items (Z.to_nat n), n).

Fixpoint mu_pool_get_loop (items : list mu_PoolItem) (todo i : nat) (id : Z) : outcome Z :=
  match todo with
  | O => Ok (-1)
  | S todo' =>
      it ← deref (items !! i);
      if identifier it =? id then Ok (Z.of_nat i)
      else mu_pool_get_loop items todo' (S i) id
  end.

Definition mu_pool_get (context : mu_Context) (items : list mu_PoolItem) (length : Z)
    (id : Z) : outcome Z :=
  mu_pool_get_loop items (Z.to_nat length) 0 id.

(** ** Input handlers *)

Definition mu_input_mousemove (context : mu_Context) (x y : Z) : mu_Context :=
  with_mouse_pos (mu_vec2 x y) context.

Definition mu_input_mousedown (context : mu_Context) (x y btn : Z) : mu_Context :=
  let context := mu_input_mousemove context x y in
  let context := with_mouse_down (Z.lor (mouse_down context) btn) context in
  with_mouse_pressed (Z.lor (mouse_pressed context) btn) context.

Definition mu_input_mouseup (context : mu_Context) (x y btn : Z) : mu_Context :=
  let context := mu_input_mousemove context x y in
  with_mouse_down (Z.land (mouse_down context) (Z.lnot btn)) context.

Definition mu_input_scroll (context : mu_Context) (x y : Z) : mu_Context :=
  with_scroll_delta
    (mu_vec2 (int_add (vec_x (scroll_delta context)) x)
             (int_add (vec_y (scroll_delta context)) y)) context.

Definition mu_input_keydown (context : mu_Context) (key : Z) : mu_Context :=
  let context := with_key_pressed (Z.lor (key_pressed context) key) context in
  with_key_down (Z.lor (key_down context) key) context.

Definition mu_input_keyup (context : mu_Context) (key : Z) : mu_Context :=
  with_key_down (Z.land (key_down context) (Z.lnot key)) context.

Definition mu_input_text (context : mu_Context) (text : list byte) : outcome mu_Context :=
  let len := Z.of_nat (length (input_text context)) in
  let size := Z.of_nat (length text) + 1 in
  expect (len + size <=? 32);;
  Ok (with_input_text (input_text context ++ text) context).

(** ** Command list *)

(** [sizeof] of the command records on an LP64 target (4-byte [int], 8-byte pointers). *)
Definition sizeof_JumpCommand : Z := 16.
Definition sizeof_ClipCommand : Z := 24.
Definition sizeof_RectCommand : Z := 28.
Definition sizeof_TextCommand : Z := 32.
Definition sizeof_IconCommand : Z := 32.

(** [mu_push_command]: the record written (header only) and its offset. *)
Definition mu_push_command (context : mu_Context) (type size : Z)
  : outcome (Z * mu_Context) :=
  let command := command_list_idx context in
  expect (int_add (command_list_idx context) size <? MU_COMMANDLIST_SIZE);;
  let items :=
    <[command := {| cmd_type := type; cmd_size := size; cmd_data := NoData |}]>
      (command_list_items context) in
  Ok (command,
      with_command_list_idx (int_add (command_list_idx context) size)
        (with_command_list_items items context)).

(** A store to the payload of the record at [command]. *)
Definition set_command_data (command : Z) (data : mu_CommandData) (context : mu_Context)
  : outcome mu_Context :=
  c ← deref (command_list_items context !! command);
  Ok (with_command_list_items
        (<[command := {| cmd_type := cmd_type c; cmd_size := cmd_size c; cmd_data := data |}]>
           (command_list_items context)) context).

(** [command->jump.dst = dst]. *)
Definition store_jump_dst (command : Z) (dst : option Z) (context : mu_Context)
  : outcome mu_Context :=
  c ← deref (command_list_items context !! command);
  set_command_data command
    (match cmd_data c with
     | JumpData _ | NoData => JumpData dst
     | _ => Clobbered dst
     end) context.

(** [command->jump.dst] *)
Definition load_jump_dst (c : mu_Command) : outcome (option Z) :=
  match cmd_data c with
  | JumpData dst | Clobbered dst => Ok dst
  | _ => Undef
  end.

(** The [while] loop of [mu_next_command]; one unit of [fuel] per iteration. *)
Fixpoint mu_next_command_loop (fuel : nat) (context : mu_Context) (command : option Z)
  : outcome (Z * option Z) :=
  match fuel with
  | O => OutOfFuel
  | S fuel' =>
      if bool_decide (command = Some (command_list_idx context)) then Ok (0, command)
      else
        p ← deref command;
        c ← deref (command_list_items context !! p);
        if negb (cmd_type c =? MU_COMMAND_JUMP) then Ok (1, command)
        else
          dst ← load_jump_dst c;
          mu_next_command_loop fuel' context dst
  end.

(** [mu_next_command(context, &command)]: the value returned and the new [command]. *)
Definition mu_next_command (fuel : nat) (context : mu_Context) (command : option Z)
  : outcome (Z * option Z) :=
  command ←
    match command with
    | Some p =>
        c ← deref (command_list_items context !! p);
        Ok (Some (p + cmd_size c))
    | None => Ok (Some 0)
    end;
  mu_next_command_loop fuel context command.

(** The client's loop [while (mu_next_command(context, &command)) { ... }]: the records
    it is handed, in order.  [rounds] bounds the number of calls. *)
Fixpoint mu_commands (rounds fuel : nat) (context : mu_Context) (command : option Z)
  : outcome (list Z) :=
  match rounds with
  | O => OutOfFuel
  | S rounds' =>
      '(res, command) ← mu_next_command fuel context command;
      if res =? 0 then Ok []
      else
        p ← deref command;
        rest ← mu_commands rounds' fuel context command;
        Ok (p :: rest)
  end.

Definition push_jump (context : mu_Context) (dst : option Z) : outcome (Z * mu_Context) :=
  '(command, context) ← mu_push_command context MU_COMMAND_JUMP sizeof_JumpCommand;
  context ← store_jump_dst command dst context;
  Ok (command, context).

Definition mu_set_clip (context : mu_Context) (rectangle : mu_Rectangle)
  : outcome mu_Context :=
  '(command, context) ← mu_push_command context MU_COMMAND_CLIP sizeof_ClipCommand;
  set_command_data command (ClipData rectangle) context.

Definition mu_draw_rect (context : mu_Context) (rectangle : mu_Rectangle) (color : mu_Color)
  : outcome mu_Context :=
  clip ← mu_get_clip_rect context;
  let rectangle := intersect_rects rectangle clip in
  if (rect_w rectangle >? 0) && (rect_h rectangle >? 0) then
    '(command, context) ← mu_push_command context MU_COMMAND_RECT sizeof_RectCommand;
    set_command_data command (RectData rectangle color) context
  else Ok context.

Definition mu_draw_box (context : mu_Context) (r : mu_Rectangle) (color : mu_Color)
  : outcome mu_Context :=
  context ← mu_draw_rect context
    (mu_rect (int_add (rect_x r) 1) (rect_y r) (int_sub (rect_w r) 2) 1) color;
  context ← mu_draw_rect context
    (mu_rect (int_add (rect_x r) 1) (int_sub (int_add (rect_y r) (rect_h r)) 1)
             (int_sub (rect_w r) 2) 1) color;
  context ← mu_draw_rect context (mu_rect (rect_x r) (rect_y r) 1 (rect_h r)) color;
  mu_draw_rect context
    (mu_rect (int_sub (int_add (rect_x r) (rect_w r)) 1) (rect_y r) 1 (rect_h r)) color.

Definition mu_draw_text (context : mu_Context) (font : Z) (str : list byte) (length : Z)
    (position : mu_Vector2) (color : mu_Color) : outcome mu_Context :=
  text_width ← deref (text_width context);
  text_height ← deref (text_height context);
  let rectangle :=
    mu_rect (vec_x position) (vec_y position) (text_width font str length)
            (text_height font) in
  clipped ← mu_check_clip context rectangle;
  if clipped =? MU_CLIP_ALL then Ok context
  else
    context ←
      (if clipped =? MU_CLIP_PART then
         clip ← mu_get_clip_rect context;
         mu_set_clip context clip
       else Ok context);
    let length := if length <? 0 then Z.of_nat (List.length str) else length in
    '(command, context) ←
      mu_push_command context MU_COMMAND_TEXT (int_add sizeof_TextCommand length);
    context ←
      set_command_data command
        (TextData font position color (take (Z.to_nat length) str)) context;
    if negb (clipped =? 0) then mu_set_clip context unclipped_rect else Ok context.

Definition mu_draw_icon (context : mu_Context) (id : Z) (rectangle : mu_Rectangle)
    (color : mu_Color) : outcome mu_Context :=
  clipped ← mu_check_clip context rectangle;
  if clipped =? MU_CLIP_ALL then Ok context
  else
    context ←
      (if clipped =? MU_CLIP_PART then
         clip ← mu_get_clip_rect context;
         mu_set_clip context clip
       else Ok context);
    '(command, context) ← mu_push_command context MU_COMMAND_ICON sizeof_IconCommand;
    context ← set_command_data command (IconData rectangle id color) context;
    if negb (clipped =? 0) then mu_set_clip context unclipped_rect else Ok context.

(** [context->style->colors[colorid]] *)
Definition style_color (context : mu_Context) (colorid : Z) : outcome mu_Color :=
  if colorid <? 0 then Undef
  else deref (style_colors (style context) !! Z.to_nat colorid).

Definition draw_frame (context : mu_Context) (rectangle : mu_Rectangle) (colorid : Z)
  : outcome mu_Context :=
  color ← style_color context colorid;
  context ← mu_draw_rect context rectangle color;
  if (colorid =? MU_COLOR_SCROLLBASE) || (colorid =? MU_COLOR_SCROLLTHUMB) ||
     (colorid =? MU_COLOR_TITLEBG)
  then Ok context
  else
    border ← style_color context MU_COLOR_BORDER;
    if negb (alpha border =? 0)
    then mu_draw_box context (expand_rect rectangle 1) border
    else Ok context.

(** ** Layout *)

Definition RELATIVE : Z := 1.
Definition ABSOLUTE : Z := 2.

Definition get_layout (context : mu_Context) : outcome mu_Layout :=
  deref (last (layout_stack context)).

(** A store through the pointer [get_layout] returns. *)
Definition set_layout (layout : mu_Layout) (context : mu_Context) : outcome mu_Context :=
  match layout_stack context with
  | [] => Undef
  | _ => Ok (with_layout_stack (removelast (layout_stack context) ++ [layout]) context)
  end.

Definition mu_layout_row (context : mu_Context) (items : Z) (widths : option (list Z))
    (height : Z) : outcome mu_Context :=
  layout ← get_layout context;
  new_widths ←
    match widths with
    | Some ws =>
        expect (items <=? MU_MAX_WIDTHS);;
        (* memcpy(layout->widths, widths, items * sizeof(widths[0])) *)
        if (0 <=? items) && (items <=? Z.of_nat (length ws))
        then Ok (take (Z.to_nat items) ws ++ drop (Z.to_nat items) (layout_widths layout))
        else Undef
    | None => Ok (layout_widths layout)
    end;
  set_layout
    {| layout_body := layout_body layout;
       layout_next := layout_next layout;
       layout_position := mu_vec2 (layout_indentation layout) (layout_next_row layout);
       layout_size := mu_vec2 (vec_x (layout_size layout)) height;
       layout_max := layout_max layout;
       layout_widths := new_widths;
       layout_items := items;
       layout_item_index := 0;
       layout_next_row := layout_next_row layout;
       layout_next_type := layout_next_type layout;
       layout_indentation := layout_indentation layout |} context.

Definition push_layout (context : mu_Context) (body : mu_Rectangle) (scroll : mu_Vector2)
  : outcome mu_Context :=
  let layout :=
    {| layout_body :=
         mu_rect (int_sub (rect_x body) (vec_x scroll)) (int_sub (rect_y body) (vec_y scroll))
                 (rect_w body) (rect_h body);
       layout_next := mu_rect 0 0 0 0;
       layout_position := mu_vec2 0 0;
       layout_size := mu_vec2 0 0;
       layout_max := mu_vec2 (-0x1000000) (-0x1000000);
       layout_widths := replicate (Z.to_nat MU_MAX_WIDTHS) 0;
       layout_items := 0;
       layout_item_index := 0;
       layout_next_row := 0;
       layout_next_type := 0;
       layout_indentation := 0 |} in
  stk ← push (layout_stack context) MU_LAYOUTSTACK_SIZE layout;
  mu_layout_row (with_layout_stack stk context) 1 (Some [0]) 0.

(** The part of [mu_layout_next] after "update position": it advances the cursor of
    [layout] past [res] and moves [res] to screen coordinates. *)
Definition layout_place (style : mu_Style) (layout : mu_Layout) (res : mu_Rectangle)
  : mu_Rectangle * mu_Layout :=
  let position :=
    mu_vec2 (int_add (vec_x (layout_position layout))
                     (int_add (rect_w res) (style_spacing style)))
            (vec_y (layout_position layout)) in
  let next_row :=
    mu_max (layout_next_row layout)
           (int_add (int_add (rect_y res) (rect_h res)) (style_spacing style)) in
  let res :=
    mu_rect (int_add (rect_x res) (rect_x (layout_body layout)))
            (int_add (rect_y res) (rect_y (layout_body layout)))
            (rect_w res) (rect_h res) in
  let max :=
    mu_vec2 (mu_max (vec_x (layout_max layout)) (int_add (rect_x res) (rect_w res)))
            (mu_max (vec_y (layout_max layout)) (int_add (rect_y res) (rect_h res))) in
  (res,
   {| layout_body := layout_body layout;
      layout_next := layout_next layout;
      layout_position := position;
      layout_size := layout_size layout;
      layout_max := max;
      layout_widths := layout_widths layout;
      layout_items := layout_items layout;
      layout_item_index := layout_item_index layout;
      layout_next_row := next_row;
      layout_next_type := layout_next_type layout;
      layout_indentation := layout_indentation layout |}).

Definition with_layout_next_type (v : Z) (layout : mu_Layout) : mu_Layout :=
  {| layout_body := layout_body layout;
     layout_next := layout_next layout;
     layout_position := layout_position layout;
     layout_size := layout_size layout;
     layout_max := layout_max layout;
     layout_widths := layout_widths layout;
     layout_items := layout_items layout;
     layout_item_index := layout_item_index layout;
     layout_next_row := layout_next_row layout;
     layout_next_type := v;
     layout_indentation := layout_indentation layout |}.

Definition with_layout_item_index (v : Z) (layout : mu_Layout) : mu_Layout :=
  {| layout_body := layout_body layout;
     layout_next := layout_next layout;
     layout_position := layout_position layout;
     layout_size := layout_size layout;
     layout_max := layout_max layout;
     layout_widths := layout_widths layout;
     layout_items := layout_items layout;
     layout_item_index := v;
     layout_next_row := layout_next_row layout;
     layout_next_type := layout_next_type layout;
     layout_indentation := layout_indentation layout |}.

(** The size the row gives the next widget ("size" in [mu_layout_next]). *)
Definition layout_cell_size (style : mu_Style) (layout : mu_Layout)
  : outcome (Z * Z) :=
  let x := vec_x (layout_position layout) in
  let y := vec_y (layout_position layout) in
  w ←
    (if layout_items layout >? 0 then
       if layout_item_index layout <? 0 then Undef
       else deref (layout_widths layout !! Z.to_nat (layout_item_index layout))
     else Ok (vec_x (layout_size layout)));
  let h := vec_y (layout_size layout) in
  let w := if w =? 0
           then int_add (vec_x (style_size style)) (int_mul (style_padding style) 2)
           else w in
  let h := if h =? 0
           then int_add (vec_y (style_size style)) (int_mul (style_padding style) 2)
           else h in
  let w := if w <? 0
           then int_add w (int_add (int_sub (rect_w (layout_body layout)) x) 1)
           else w in
  let h := if h <? 0
           then int_add h (int_add (int_sub (rect_h (layout_body layout)) y) 1)
           else h in
  Ok (w, h).

Definition mu_layout_next (context : mu_Context) : outcome (mu_Rectangle * mu_Context) :=
  layout ← get_layout context;
  let style := style context in
  if negb (layout_next_type layout =? 0) then
    (* rectangle set by mu_layout_set_next *)
    let type := layout_next_type layout in
    let layout := with_layout_next_type 0 layout in
    let res := layout_next layout in
    if type =? ABSOLUTE then
      context ← set_layout layout context;
      Ok (res, with_last_rect res context)
    else
      let '(res, layout) := layout_place style layout res in
      context ← set_layout layout context;
      Ok (res, with_last_rect res context)
  else
    (* next row *)
    context ←
      (if layout_item_index layout =? layout_items layout
       then mu_layout_row context (layout_items layout) None (vec_y (layout_size layout))
       else Ok context);
    layout ← get_layout context;
    '(w, h) ← layout_cell_size style layout;
    let res :=
      mu_rect (vec_x (layout_position layout)) (vec_y (layout_position layout)) w h in
    let layout := with_layout_item_index (int_add (layout_item_index layout) 1) layout in
    let '(res, layout) := layout_place style layout res in
    context ← set_layout layout context;
    Ok (res, with_last_rect res context).

(** ** Controls *)

Definition mu_get_current_container (context : mu_Context) : outcome nat :=
  expect (Z.of_nat (length (container_stack context)) >? 0);;
  deref (last (container_stack context)).

(** The loop of [in_hover_root] over [container_stack.items[i]], [i] going down from
    [idx - 1]: [stack] lists the items still to visit, topmost first. *)
Fixpoint in_hover_root_loop (context : mu_Context) (stack : list nat) : outcome bool :=
  match stack with
  | [] => Ok false
  | cnt :: stack' =>
      if bool_decide (Some cnt = hover_root context) then Ok true
      else
        c ← deref (containers context !! cnt);
        if bool_decide (is_Some (cnt_head c)) then Ok false
        else in_hover_root_loop context stack'
  end.

Definition in_hover_root (context : mu_Context) : outcome bool :=
  in_hover_root_loop context (reverse (container_stack context)).

Definition mu_draw_control_frame (context : mu_Context) (id : Z) (rectangle : mu_Rectangle)
    (colorid opt : Z) : outcome mu_Context :=
  if negb (Z.land opt MU_OPT_NOFRAME =? 0) then Ok context
  else
    let colorid :=
      int_add colorid
        (if focus context =? id then 2 else if hover context =? id then 1 else 0) in
    draw_frame context rectangle colorid.

Definition mu_draw_control_text (context : mu_Context) (str : list byte)
    (rectangle : mu_Rectangle) (colorid opt : Z) : outcome mu_Context :=
  let font := style_font (style context) in
  text_width ← deref (text_width context);
  let tw := text_width font str (-1) in
  context ← mu_push_clip_rect context rectangle;
  text_height ← deref (text_height context);
  let y := int_add (rect_y rectangle)
             (Z.quot (int_sub (rect_h rectangle) (text_height font)) 2) in
  let x :=
    if negb (Z.land opt MU_OPT_ALIGNCENTER =? 0) then
      int_add (rect_x rectangle) (Z.quot (int_sub (rect_w rectangle) tw) 2)
    else if negb (Z.land opt MU_OPT_ALIGNRIGHT =? 0) then
      int_sub (int_sub (int_add (rect_x rectangle) (rect_w rectangle)) tw)
              (style_padding (style context))
    else int_add (rect_x rectangle) (style_padding (style context)) in
  color ← style_color context colorid;
  context ← mu_draw_text context font str (-1) (mu_vec2 x y) color;
  mu_pop_clip_rect context.

Definition mu_mouse_over (context : mu_Context) (rectangle : mu_Rectangle) : outcome bool :=
  if rect_overlaps_vec2 rectangle (mouse_pos context) then
    clip ← mu_get_clip_rect context;
    if rect_overlaps_vec2 clip (mouse_pos context) then in_hover_root context
    else Ok false
  else Ok false.

Definition mu_update_control (context : mu_Context) (id : Z) (rectangle : mu_Rectangle)
    (opt : Z) : outcome mu_Context :=
  mouseover ← mu_mouse_over context rectangle;
  let context := if focus context =? id then with_updated_focus 1 context else context in
  if negb (Z.land opt MU_OPT_NOINTERACT =? 0) then Ok context
  else
    let context :=
      if mouseover && (mouse_down context =? 0) then with_hover id context else context in
    let context :=
      if focus context =? id then
        let context :=
          if negb (mouse_pressed context =? 0) && negb mouseover
          then mu_set_focus context 0 else context in
        if (mouse_down context =? 0) && negb (Z.land (Z.lnot opt) MU_OPT_HOLDFOCUS =? 0)
        then mu_set_focus context 0 else context
      else context in
    let context :=
      if hover context =? id then
        if negb (mouse_pressed context =? 0) then mu_set_focus context id
        else if negb mouseover then with_hover 0 context
        else context
      else context in
    Ok context.

(** The loop [while ((buffer[--length] & 0xc0) == 0x80 && length > 0);] of
    [mu_textbox_raw], entered with [length > 0]: the value of [length] it leaves. *)
Fixpoint backspace_loop (buffer : list byte) (length : nat) : nat :=
  match length with
  | O => O
  | S length' =>
      if (Z.land (byte_val (nth length' buffer x00)) 0xc0 =? 0x80) && (0 <? length')%nat
      then backspace_loop buffer length'
      else length'
  end.

(** [mu_textbox_raw]: the value returned, the text left in [buffer] and the context. *)
Definition mu_textbox_raw (context : mu_Context) (buffer : list byte) (bufsz : Z) (id : Z)
    (r : mu_Rectangle) (opt : Z) : outcome (Z * list byte * mu_Context) :=
  let res := 0 in
  context ← mu_update_control context id r (Z.lor opt MU_OPT_HOLDFOCUS);
  let '(res, buffer, context) :=
    if focus context =? id then
      (* text input *)
      let len := Z.of_nat (length buffer) in
      let n := mu_min (int_sub (int_sub bufsz len) 1)
                      (Z.of_nat (length (input_text context))) in
      let '(res, buffer) :=
        if n >? 0
        then (Z.lor res MU_RES_CHANGE, buffer ++ take (Z.to_nat n) (input_text context))
        else (res, buffer) in
      (* backspace *)
      let '(res, buffer) :=
        if negb (Z.land (key_pressed context) MU_KEY_BACKSPACE =? 0) &&
           (0 <? length buffer)%nat
        then (Z.lor res MU_RES_CHANGE,
              take (backspace_loop buffer (length buffer)) buffer)
        else (res, buffer) in
      (* return *)
      if negb (Z.land (key_pressed context) MU_KEY_RETURN =? 0)
      then (Z.lor res MU_RES_SUBMIT, buffer, mu_set_focus context 0)
      else (res, buffer, context)
    else (res, buffer, context) in
  (* draw *)
  context ← mu_draw_control_frame context id r MU_COLOR_BASE opt;
  context ←
    (if focus context =? id then
       color ← style_color context MU_COLOR_TEXT;
       let font := style_font (style context) in
       text_width ← deref (text_width context);
       text_height ← deref (text_height context);
       let textw := text_width font buffer (-1) in
       let texth := text_height font in
       let ofx := int_sub (int_sub (int_sub (rect_w r) (style_padding (style context)))
                                   textw) 1 in
       let textx := int_add (rect_x r) (mu_min ofx (style_padding (style context))) in
       let texty := int_add (rect_y r) (Z.quot (int_sub (rect_h r) texth) 2) in
       context ← mu_push_clip_rect context r;
       context ← mu_draw_text context font buffer (-1) (mu_vec2 textx texty) color;
       context ← mu_draw_rect context (mu_rect (int_add textx textw) texty 1 texth) color;
       mu_pop_clip_rect context
     else mu_draw_control_text context buffer r MU_COLOR_TEXT opt);
  Ok (res, buffer, context).

(** ** Sliders: [mu_Real] *)

(** [MU_REAL] is a configuration macro ([float] by default).  The model is written over
    the operations the code uses on it: conversion from an integer, the four arithmetic
    operations, the cast to [long long] (undefined, [None], when the integral part of
    the value is not a [long long]), [<] and [==]. *)
Class MuReal (R : Type) : Type := {
  real_of_int : Z → R;
  real_add : R → R → R;
  real_sub : R → R → R;
  real_mul : R → R → R;
  real_div : R → R → R;
  real_to_long_long : R → option Z;
  real_ltb : R → R → bool;
  real_eqb : R → R → bool
}.

(** [mu_min], [mu_max] and [mu_clamp] at type [mu_Real]. *)
Definition real_min {R : Type} `{MuReal R} (a b : R) : R := if real_ltb a b then a else b.
Definition real_max {R : Type} `{MuReal R} (a b : R) : R := if real_ltb b a then a else b.
Definition real_clamp {R : Type} `{MuReal R} (x a b : R) : R := real_min b (real_max a x).

(** The step quantization of [mu_slider_ex]:
    [((long long)((v + step / 2) / step)) * step]. *)
Definition slider_quantize {R : Type} `{MuReal R} (v step : R) : outcome R :=
  match real_to_long_long (real_div (real_add v (real_div step (real_of_int 2))) step) with
  | Some k => Ok (real_mul (real_of_int k) step)
  | None => Undef
  end.

(** The value under the mouse, before clamping ("handle input" in [mu_slider_ex]). *)
Definition slider_input {R : Type} `{MuReal R} (context : mu_Context)
    (base : mu_Rectangle) (low high step : R) : outcome R :=
  let v :=
    real_add low
      (real_div
         (real_mul (real_of_int (int_sub (vec_x (mouse_pos context)) (rect_x base)))
                   (real_sub high low))
         (real_of_int (rect_w base))) in
  if negb (real_eqb step (real_of_int 0)) then slider_quantize v step else Ok v.

(** [mu_slider_ex] in normal mode, from "handle normal mode" to the store through
    [value]: [last] is the value on entry, [v] the local of that name ([last], unless
    the number text box just wrote the number typed into it), [id] and [base] the
    identifier and the rectangle computed before.  The result is the value stored, the
    flags in [res] and the context.  What follows in the source draws the slider. *)
Definition mu_slider_ex_normal {R : Type} `{MuReal R} (context : mu_Context) (id : Z)
    (base : mu_Rectangle) (last v low high step : R) (opt : Z)
  : outcome (R * Z * mu_Context) :=
  let res := 0 in
  context ← mu_update_control context id base opt;
  v ←
    (if (focus context =? id) &&
        (Z.lor (mouse_down context) (mouse_pressed context) =? MU_MOUSE_LEFT)
     then slider_input context base low high step
     else Ok v);
  let v := real_clamp v low high in
  let res := if negb (real_eqb last v) then Z.lor res MU_RES_CHANGE else res in
  Ok (v, res, context).

(** ** Root containers *)

Definition pop_container (context : mu_Context) : outcome mu_Context :=
  cnt ← mu_get_current_container context;
  layout ← get_layout context;
  context ←
    update_container
      (with_cnt_content_size
         (mu_vec2 (int_sub (vec_x (layout_max layout)) (rect_x (layout_body layout)))
                  (int_sub (vec_y (layout_max layout)) (rect_y (layout_body layout)))))
      cnt context;
  stk ← pop (container_stack context);
  let context := with_container_stack stk context in
  stk ← pop (layout_stack context);
  let context := with_layout_stack stk context in
  mu_pop_id context.

Definition begin_root_container (context : mu_Context) (cnt : nat) : outcome mu_Context :=
  stk ← push (container_stack context) MU_CONTAINERSTACK_SIZE cnt;
  let context := with_container_stack stk context in
  stk ← push (root_list context) MU_ROOTLIST_SIZE cnt;
  let context := with_root_list stk context in
  '(head, context) ← push_jump context None;
  context ← update_container (with_cnt_head (Some head)) cnt context;
  c ← deref (containers context !! cnt);
  over ←
    (if rect_overlaps_vec2 (cnt_rectangle c) (mouse_pos context) then
       match next_hover_root context with
       | None => Ok true
       | Some h =>
           hc ← deref (containers context !! h);
           Ok (cnt_zindex c >? cnt_zindex hc)
       end
     else Ok false);
  let context := if over : bool then with_next_hover_root (Some cnt) context else context in
  stk ← push (clip_stack context) MU_CLIPSTACK_SIZE unclipped_rect;
  Ok (with_clip_stack stk context).

Definition end_root_container (context : mu_Context) : outcome mu_Context :=
  cnt ← mu_get_current_container context;
  '(tail, context) ← push_jump context None;
  context ← update_container (with_cnt_tail (Some tail)) cnt context;
  c ← deref (containers context !! cnt);
  head ← deref (cnt_head c);
  context ← store_jump_dst head (Some (command_list_idx context)) context;
  context ← mu_pop_clip_rect context;
  pop_container context.

(** ** Frame end *)

(** The loop "set root container jump commands" of [mu_end] over the sorted root list:
    [roots] are the items from index [i] on, [prev] is [items[i - 1]] ([None] when
    [i == 0]); [i == n - 1] when [roots] has one element. *)
Fixpoint set_root_jumps (prev : option nat) (roots : list nat) (context : mu_Context)
  : outcome mu_Context :=
  match roots with
  | [] => Ok context
  | cnt :: roots' =>
      c ← deref (containers context !! cnt);
      head ← deref (cnt_head c);
      context ←
        match prev with
        | None => store_jump_dst 0 (Some (head + sizeof_JumpCommand)) context
        | Some prev =>
            pc ← deref (containers context !! prev);
            tail ← deref (cnt_tail pc);
            store_jump_dst tail (Some (head + sizeof_JumpCommand)) context
        end;
      context ←
        match roots' with
        | [] =>
            tail ← deref (cnt_tail c);
            store_jump_dst tail (Some (command_list_idx context)) context
        | _ => Ok context
        end;
      set_root_jumps (Some cnt) roots' context
  end.

(** An insertion sort with [qsort]'s interface, for the places where the development
    needs one [qsort] to run. *)
Fixpoint insert_sorted (cmp : nat → nat → Z) (a : nat) (l : list nat) : list nat :=
  match l with
  | [] => [a]
  | b :: l' => if cmp a b <=? 0 then a :: l else b :: insert_sorted cmp a l'
  end.

Fixpoint insertion_sort (cmp : nat → nat → Z) (l : list nat) : list nat :=
  match l with
  | [] => []
  | a :: l' => insert_sorted cmp a (insertion_sort cmp l')
  end.

(** A frame, seen from the command list.  Whatever the client calls between [mu_begin]
    and [mu_end] reaches the command list, the root list and the container stack
    through [mu_push_command] (followed by the stores to the record's payload),
    [begin_root_container] ... [end_root_container] (windows and popups), and the
    [push(container_stack)] ... [pop_container] of a panel; [Other] stands for any
    other step. *)
#[local] Unset Elimination Schemes.
Inductive item : Type :=
| Cmd (type size : Z) (data : mu_CommandData)
| Other (f : mu_Context → outcome mu_Context)
| Root (cnt : nat) (body : list item)
| Panel (cnt : nat) (body : list item).
#[local] Set Elimination Schemes.

Definition run_items {A : Type} (run : A → mu_Context → outcome mu_Context)
  : list A → mu_Context → outcome mu_Context :=
  fix go (l : list A) (context : mu_Context) : outcome mu_Context :=
    match l with
    | [] => Ok context
    | i :: l' => context ← run i context; go l' context
    end.

Fixpoint emit_item (i : item) (context : mu_Context) : outcome mu_Context :=
  match i with
  | Cmd type size data =>
      '(command, context) ← mu_push_command context type size;
      set_command_data command data context
  | Other f => f context
  | Root cnt body =>
      context ← begin_root_container context cnt;
      context ← run_items emit_item body context;
      end_root_container context
  | Panel cnt body =>
      stk ← push (container_stack context) MU_CONTAINERSTACK_SIZE cnt;
      context ← run_items emit_item body (with_container_stack stk context);
      pop_container context
  end.

Definition emit : list item → mu_Context → outcome mu_Context := run_items emit_item.

Section FrameEnd.

(** [qsort] of the C library, at the type of the root list. *)
Variable qsort : (nat → nat → Z) → list nat → list nat.

Definition mu_end (context : mu_Context) : outcome mu_Context :=
  expect (Z.of_nat (length (container_stack context)) =? 0);;
  expect (Z.of_nat (length (clip_stack context)) =? 0);;
  expect (Z.of_nat (length (id_stack context)) =? 0);;
  expect (Z.of_nat (length (layout_stack context)) =? 0);;
  (* handle scroll input *)
  context ←
    match scroll_target context with
    | Some target =>
        update_container
          (λ c, with_cnt_scroll
                  (mu_vec2 (int_add (vec_x (cnt_scroll c)) (vec_x (scroll_delta context)))
                           (int_add (vec_y (cnt_scroll c)) (vec_y (scroll_delta context))))
                  c)
          target context
    | None => Ok context
    end;
  (* unset focus if focus identifier was not touched this frame *)
  let context := if updated_focus context =? 0 then with_focus 0 context else context in
  let context := with_updated_focus 0 context in
  (* bring hover root to front if mouse was pressed *)
  context ←
    (if negb (mouse_pressed context =? 0) then
       match next_hover_root context with
       | Some h =>
           hc ← deref (containers context !! h);
           if (cnt_zindex hc <? last_zindex context) && (cnt_zindex hc >=? 0)
           then mu_bring_to_front context h
           else Ok context
       | None => Ok context
       end
     else Ok context);
  (* reset input state *)
  let context := with_key_pressed 0 context in
  let context := with_input_text [] context in
  let context := with_mouse_pressed 0 context in
  let context := with_scroll_delta (mu_vec2 0 0) context in
  let context := with_last_mouse_pos (mouse_pos context) context in
  (* sort root containers by zindex *)
  let context := with_root_list (qsort (compare_zindex context) (root_list context)) context in
  (* set root container jump commands *)
  set_root_jumps None (root_list context) context.

End FrameEnd.

(** ** Notions the statements use *)

(** A rectangle whose fields are C ints and whose far corner is representable. *)
Definition rect_in_range (r : mu_Rectangle) : Prop :=
  in_int (rect_x r) ∧ in_int (rect_y r) ∧ in_int (rect_w r) ∧ in_int (rect_h r) ∧
  in_int (rect_x r + rect_w r) ∧ in_int (rect_y r + rect_h r).

(** Rectangles as sets of points, by the test the code itself uses. *)
Definition point_in (r : mu_Rectangle) (p : mu_Vector2) : Prop :=
  rect_overlaps_vec2 r p = true.

Definition fully_outside (r c : mu_Rectangle) : Prop :=
  ∀ p, ¬ (point_in r p ∧ point_in c p).

Definition fully_inside (r c : mu_Rectangle) : Prop :=
  ∀ p, point_in r p → point_in c p.

(** [r] lies strictly beyond an edge of [c]: the first test of [mu_check_clip]. *)
Definition beyond_an_edge (r c : mu_Rectangle) : Prop :=
  rect_x r > rect_x c + rect_w c ∨ rect_x r + rect_w r < rect_x c ∨
  rect_y r > rect_y c + rect_h c ∨ rect_y r + rect_h r < rect_y c.

(** [r] lies between the edges of [c]: the second test of [mu_check_clip]. *)
Definition within_edges (r c : mu_Rectangle) : Prop :=
  rect_x r >= rect_x c ∧ rect_x r + rect_w r <= rect_x c + rect_w c ∧
  rect_y r >= rect_y c ∧ rect_y r + rect_h r <= rect_y c + rect_h c.

(** FNV-1a as the specification words it: starting from a seed, each byte is xor-ed
    in and the result multiplied by 16777619, on 32 bits. *)
Definition fnv1a (seed : Z) (bytes : list byte) : Z :=
  fold_left (λ h b, (Z.lxor h (byte_val b) * 16777619) mod 2 ^ 32) bytes seed.

(** The seed [mu_get_id] takes from the context. *)
Definition id_seed (context : mu_Context) : Z :=
  match last (id_stack context) with
  | Some top => top
  | None => 2166136261
  end.

(** A UTF-8 continuation byte: [(b & 0xC0) == 0x80]. *)
Definition is_continuation (b : byte) : bool := Z.land (byte_val b) 0xc0 =? 0x80.

(** The layout as [mu_layout_next] sees it when it sizes the next widget: a row that is
    used up has been started again by [mu_layout_row]. *)
Definition layout_at_cell (layout : mu_Layout) : mu_Layout :=
  if layout_item_index layout =? layout_items layout then
    {| layout_body := layout_body layout;
       layout_next := layout_next layout;
       layout_position := mu_vec2 (layout_indentation layout) (layout_next_row layout);
       layout_size := layout_size layout;
       layout_max := layout_max layout;
       layout_widths := layout_widths layout;
       layout_items := layout_items layout;
       layout_item_index := 0;
       layout_next_row := layout_next_row layout;
       layout_next_type := layout_next_type layout;
       layout_indentation := layout_indentation layout |}
  else layout.

(** ** Contexts and frames the examples run on *)

Definition zero_container : mu_Container :=
  {| cnt_head := None; cnt_tail := None;
     cnt_rectangle := mu_rect 0 0 0 0; cnt_body := mu_rect 0 0 0 0;
     cnt_content_size := mu_vec2 0 0; cnt_scroll := mu_vec2 0 0;
     cnt_zindex := 0; cnt_open := 0 |}.

(** The context [mu_init] leaves: all zero, with the default style. *)
Definition mu_init : mu_Context :=
  {| text_width := None; text_height := None; style := default_style;
     hover := 0; focus := 0; last_identifier := 0; last_rect := mu_rect 0 0 0 0;
     last_zindex := 0; updated_focus := 0; frame := 0;
     hover_root := None; next_hover_root := None; scroll_target := None;
     number_edit_buf := []; number_edit := 0;
     command_list_idx := 0; command_list_items := ∅;
     root_list := []; container_stack := []; clip_stack := []; id_stack := [];
     layout_stack := [];
     container_pool :=
       replicate (Z.to_nat MU_CONTAINERPOOL_SIZE) {| identifier := 0; last_update := 0 |};
     containers := replicate (Z.to_nat MU_CONTAINERPOOL_SIZE) zero_container;
     treenode_pool :=
       replicate (Z.to_nat MU_TREENODEPOOL_SIZE) {| identifier := 0; last_update := 0 |};
     mouse_pos := mu_vec2 0 0; last_mouse_pos := mu_vec2 0 0; mouse_delta := mu_vec2 0 0;
     scroll_delta := mu_vec2 0 0;
     mouse_down := 0; mouse_pressed := 0; key_down := 0; key_pressed := 0;
     input_text := [] |}.

(** A client with a fixed-pitch font: 6 pixels a byte, 10 pixels high. *)
Definition demo_text_width (font : Z) (str : list byte) (len : Z) : Z :=
  6 * (if len <? 0 then Z.of_nat (length str) else len).

Definition demo_text_height (font : Z) : Z := 10.

Definition demo_context : mu_Context :=
  with_text_width (Some demo_text_width) (with_text_height (Some demo_text_height) mu_init).

(** [a <= b] at type [mu_Real], by the comparisons the code has: [a < b] or [a == b].
    A NaN is not [<=] anything. *)
Definition real_le {R : Type} `{MuReal R} (a b : R) : bool :=
  real_ltb a b || real_eqb a b.

(** [a] and [b] compare: [a <= b] or [b < a].  A NaN compares with nothing. *)
Definition real_ordered {R : Type} `{MuReal R} (a b : R) : bool :=
  real_le a b || real_ltb b a.

(** What the statements on ranges need of [<] and [==]; it holds of [float]. *)
Definition real_order_laws (R : Type) `{MuReal R} : Prop :=
  (∀ a b : R, real_ltb a b = true → real_ltb b a = false) ∧
  (∀ a b : R, real_eqb a b = true → real_ltb b a = false) ∧
  (∀ a b : R, real_le a b = true → real_eqb a a = true ∧ real_eqb b b = true).


(** A layout with one column of width -1 in a body 100 wide, cursor at the left. *)
Definition fill_layout : mu_Layout :=
  {| layout_body := mu_rect 20 30 100 50;
     layout_next := mu_rect 0 0 0 0;
     layout_position := mu_vec2 0 0;
     layout_size := mu_vec2 0 0;
     layout_max := mu_vec2 (-0x1000000) (-0x1000000);
     layout_widths := [-1; 0; 0; 0; 0; 0; 0; 0; 0; 0; 0; 0; 0; 0; 0; 0];
     layout_items := 1;
     layout_item_index := 0;
     layout_next_row := 0;
     layout_next_type := 0;
     layout_indentation := 0 |}.

Definition fill_context : mu_Context := with_layout_stack [fill_layout] demo_context.

(** "héllo" in UTF-8. *)
Definition hello : list byte := [x68; xc3; xa9; x6c; x6c; x6f].

(** A text box with identifier 7 that has the focus, Backspace pressed, no text typed. *)
Definition textbox_context : mu_Context :=
  with_key_pressed MU_KEY_BACKSPACE
    (with_focus 7 (with_clip_stack [unclipped_rect] demo_context)).

(** [n] calls of [mu_textbox_raw] in a row: the text after each. *)
Fixpoint textbox_repeat (n : nat) (context : mu_Context) (buffer : list byte) (bufsz id : Z)
    (r : mu_Rectangle) (opt : Z) : outcome (list (list byte)) :=
  match n with
  | O => Ok []
  | S n' =>
      '(res, buffer, context) ← mu_textbox_raw context buffer bufsz id r opt;
      rest ← textbox_repeat n' context buffer bufsz id r opt;
      Ok (buffer :: rest)
  end.

(** [mu_Real] as [float], the default of [MU_REAL]: IEEE 754 binary32 (24 bits of
    precision, exponents below 128) as the Standard Library specifies it, every
    operation evaluated in [float] and rounded to nearest, ties to even. *)
Definition float32 : Type := SpecFloat.spec_float.

(** [(float)z] for an integer [z]. *)
Definition float32_of_int (z : Z) : float32 := SpecFloat.binary_normalize 24 128 z 0 false.

(** The integer a float is, when it is one. *)
Definition float32_exact_int (f : float32) : option Z :=
  match f with
  | SpecFloat.S754_zero _ => Some 0
  | SpecFloat.S754_finite s m e =>
      if 0 <=? e then Some (SpecFloat.cond_Zopp s (Z.pos m * 2 ^ e))
      else if Z.pos m mod 2 ^ (- e) =? 0
           then Some (SpecFloat.cond_Zopp s (Z.pos m / 2 ^ (- e)))
           else None
  | _ => None
  end.

(** [(long long)f]: the value truncated toward zero; undefined for a NaN, an infinity
    and a value outside [long long]. *)
Definition float32_to_long_long (f : float32) : option Z :=
  match f with
  | SpecFloat.S754_zero _ => Some 0
  | SpecFloat.S754_finite s m e =>
      let z :=
        SpecFloat.cond_Zopp s
          (if 0 <=? e then Z.pos m * 2 ^ e else Z.pos m / 2 ^ (- e)) in
      if (- 2 ^ 63 <=? z) && (z <? 2 ^ 63) then Some z else None
  | _ => None
  end.

#[global] Instance float32_MuReal : MuReal float32 :=
  {| real_of_int := float32_of_int;
     real_add := SpecFloat.SFadd 24 128;
     real_sub := SpecFloat.SFsub 24 128;
     real_mul := SpecFloat.SFmul 24 128;
     real_div := SpecFloat.SFdiv 24 128;
     real_to_long_long := float32_to_long_long;
     real_ltb := SpecFloat.SFltb;
     real_eqb := SpecFloat.SFeqb |}.

(** A slider with identifier 7 being dragged: it has the focus, the left button is
    down, and the mouse is at x = 100. *)
Definition slider_context : mu_Context :=
  with_mouse_pos (mu_vec2 100 5) (with_mouse_down MU_MOUSE_LEFT (with_focus 7 demo_context)).

(** A property of every [Other] step of a frame. *)
Fixpoint all_others (P : (mu_Context → outcome mu_Context) → Prop) (i : item) : Prop :=
  match i with
  | Cmd _ _ _ => True
  | Other f => P f
  | Root _ body | Panel _ body => foldr (λ i rest, all_others P i ∧ rest) True body
  end.

Definition keeps_mouse_pressed (f : mu_Context → outcome mu_Context) : Prop :=
  ∀ c c', f c = Ok c' → mouse_pressed c' = mouse_pressed c.

(** ** The layout of a frame in the command list *)

(** The bytes an item appends to the command list. *)
Fixpoint item_size (i : item) : Z :=
  match i with
  | Cmd _ size _ => size
  | Other _ => 0
  | Root _ body =>
      sizeof_JumpCommand + foldr (λ i n, item_size i + n) 0 body + sizeof_JumpCommand
  | Panel _ body => foldr (λ i n, item_size i + n) 0 body
  end.

Definition items_size (l : list item) : Z := foldr (λ i n, item_size i + n) 0 l.

(** Collect [f p i] over the items of a list, [p] being the offset each starts at. *)
Definition at_offsets {B : Type} (f : Z → item → list B) : Z → list item → list B :=
  fix go (p : Z) (l : list item) : list B :=
    match l with
    | [] => []
    | i :: l' => f p i ++ go (p + item_size i) l'
    end.

(** The commands emitted directly in a container (panels are part of their parent, root
    containers are not), by offset, in the order of emission. *)
Fixpoint own_item (p : Z) (i : item) : list Z :=
  match i with
  | Cmd _ _ _ => [p]
  | Other _ => []
  | Root _ _ => []
  | Panel _ body => at_offsets own_item p body
  end.

Definition own_items : Z → list item → list Z := at_offsets own_item.

(** A root container of the frame: the container, the offsets of its head and tail
    jumps and its own commands. *)
Record root_info : Type := {
  root_cnt : nat;
  root_head : Z;
  root_tail : Z;
  root_own : list Z
}.

Fixpoint roots_item (p : Z) (i : item) : list root_info :=
  match i with
  | Cmd _ _ _ => []
  | Other _ => []
  | Root cnt body =>
      {| root_cnt := cnt;
         root_head := p;
         root_tail := p + sizeof_JumpCommand + items_size body;
         root_own := own_items (p + sizeof_JumpCommand) body |}
      :: at_offsets roots_item (p + sizeof_JumpCommand) body
  | Panel _ body => at_offsets roots_item p body
  end.

Definition roots_items : Z → list item → list root_info := at_offsets roots_item.

(** Every command record of the frame other than the jumps, with its offset. *)
Fixpoint cmds_item (p : Z) (i : item) : list (Z * mu_Command) :=
  match i with
  | Cmd type size data =>
      [(p, {| cmd_type := type; cmd_size := size; cmd_data := data |})]
  | Other _ => []
  | Root _ body => at_offsets cmds_item (p + sizeof_JumpCommand) body
  | Panel _ body => at_offsets cmds_item p body
  end.

Definition cmds_items : Z → list item → list (Z * mu_Command) := at_offsets cmds_item.

(** Two contexts with the same command pipeline: the command list, the root list, the
    container stack and the [head] and [tail] of every container. *)
Definition same_pipeline (c c' : mu_Context) : Prop :=
  command_list_idx c' = command_list_idx c ∧
  command_list_items c' = command_list_items c ∧
  root_list c' = root_list c ∧
  container_stack c' = container_stack c ∧
  (∀ cnt, cnt_head <$> containers c' !! cnt = cnt_head <$> containers c !! cnt) ∧
  (∀ cnt, cnt_tail <$> containers c' !! cnt = cnt_tail <$> containers c !! cnt).

(** An [Other] step leaves the command pipeline alone. *)
Definition keeps_pipeline (f : mu_Context → outcome mu_Context) : Prop :=
  ∀ c c', f c = Ok c' → same_pipeline c c'.

(** A frame the library itself can produce: every command pushed with
    [mu_push_command] is not a jump and has a size a record can have. *)
Fixpoint item_ok (i : item) : Prop :=
  match i with
  | Cmd type size _ => type ≠ MU_COMMAND_JUMP ∧ 0 < size < MU_COMMANDLIST_SIZE
  | Other f => keeps_pipeline f
  | Root _ body => foldr (λ i rest, item_ok i ∧ rest) True body
  | Panel _ body => foldr (λ i rest, item_ok i ∧ rest) True body
  end.

Definition frame_ok (l : list item) : Prop := foldr (λ i rest, item_ok i ∧ rest) True l.

(** [jump_path buf p q vis out]: walking the records of [buf] from offset [p], stepping
    over every record that is not a jump and following every jump, one arrives at [q];
    [vis] lists the offsets visited and [out] those among them that are not jumps. *)
Inductive jump_path (buf : gmap Z mu_Command) : Z → Z → list Z → list Z → Prop :=
| jump_path_here (p : Z) : jump_path buf p p [] []
| jump_path_command (p q : Z) (c : mu_Command) (vis out : list Z) :
    buf !! p = Some c →
    cmd_type c ≠ MU_COMMAND_JUMP →
    jump_path buf (p + cmd_size c) q vis out →
    jump_path buf p q (p :: vis) (p :: out)
| jump_path_jump (p q d : Z) (c : mu_Command) (vis out : list Z) :
    buf !! p = Some c →
    cmd_type c = MU_COMMAND_JUMP →
    load_jump_dst c = Ok (Some d) →
    jump_path buf d q vis out →
    jump_path buf p q (p :: vis) out.

(** The head and tail jumps as [end_root_container] leaves them. *)
Definition head_jump (tail : Z) : mu_Command :=
  {| cmd_type := MU_COMMAND_JUMP; cmd_size := sizeof_JumpCommand;
     cmd_data := JumpData (Some (tail + sizeof_JumpCommand)) |}.

Definition tail_jump : mu_Command :=
  {| cmd_type := MU_COMMAND_JUMP; cmd_size := sizeof_JumpCommand;
     cmd_data := JumpData None |}.

(** A root container whose block is complete in [buf]: its [head] and [tail] point to
    its two jumps, and the records between them lead from one to the other through its
    own commands. *)
Definition root_closed (buf : gmap Z mu_Command) (cs : list mu_Container) (r : root_info)
  : Prop :=
  cnt_head <$> cs !! root_cnt r = Some (Some (root_head r)) ∧
  cnt_tail <$> cs !! root_cnt r = Some (Some (root_tail r)) ∧
  buf !! root_head r = Some (head_jump (root_tail r)) ∧
  buf !! root_tail r = Some tail_jump ∧
  ∃ vis, jump_path buf (root_head r + sizeof_JumpCommand) (root_tail r) vis (root_own r) ∧
         ∀ o, o ∈ vis → root_head r + sizeof_JumpCommand ≤ o < root_tail r.

(** The client's loop once [command] has been advanced to the offset [p]: [fuel1] is
    the fuel of the call under way, [fuel] that of the calls to come. *)
Definition mu_commands_from (rounds fuel1 fuel : nat) (context : mu_Context) (p : Z)
  : outcome (list Z) :=
  '(res, command) ← mu_next_command_loop fuel1 context (Some p);
  if res =? 0 then Ok []
  else
    q ← deref command;
    rest ← mu_commands rounds fuel context command;
    Ok (q :: rest).

(** A whole frame: [mu_begin], the client's calls, [mu_end]. *)
Definition run_frame (qsort : (nat → nat → Z) → list nat → list nat)
    (frame : list item) (context : mu_Context) : outcome mu_Context :=
  context ← mu_begin context;
  context ← emit frame context;
  mu_end qsort context.

(** What the client's loop is handed after a frame. *)
Definition frame_commands (qsort : (nat → nat → Z) → list nat → list nat)
    (rounds fuel : nat) (frame : list item) (context : mu_Context) : outcome (list Z) :=
  context ← run_frame qsort frame context;
  mu_commands rounds fuel context None.

(** The stack discipline of [mu_begin_window_ex] ... [mu_end_window] around a root
    container: the identifier is pushed before [begin_root_container], the layout after
    the window frame is drawn. *)
Definition window (cnt : nat) (title : list byte) (decor body : list item) : list item :=
  [ Other (λ c, mu_push_id c title);
    Root cnt (decor
              ++ [Other (λ c, push_layout c (mu_rect 5 29 90 60) (mu_vec2 0 0))]
              ++ body) ].

Definition draw (type size : Z) (r : mu_Rectangle) : item :=
  Cmd type size (ClipData r).

(** Two windows: container 0, declared first, is in front of container 1. *)
Definition two_windows_context : mu_Context :=
  with_last_zindex 2
    (with_containers
       (<[0%nat := with_cnt_zindex 2 zero_container]>
          (<[1%nat := with_cnt_zindex 1 zero_container]> (containers demo_context)))
       demo_context).

Definition two_windows : list item :=
  window 0 [x41] [draw MU_COMMAND_RECT sizeof_RectCommand (mu_rect 0 0 100 100)]
                 [draw MU_COMMAND_ICON sizeof_IconCommand (mu_rect 1 1 8 8)]
  ++ window 1 [x42] [draw MU_COMMAND_RECT sizeof_RectCommand (mu_rect 50 50 100 100)] [].

(** One window, then a clip command outside any window. *)
Definition stray_command : list item :=
  window 0 [x41] [draw MU_COMMAND_RECT sizeof_RectCommand (mu_rect 0 0 100 100)] []
  ++ [draw MU_COMMAND_CLIP sizeof_ClipCommand unclipped_rect].

(** What the layout of a block of [size] bytes at offset [p] satisfies, [roots], [own]
    and [cmds] being its root containers, its own commands and all its commands. *)
Definition layout_post (p size : Z) (roots : list root_info) (own : list Z)
    (cmds : list (Z * mu_Command)) : Prop :=
  0 ≤ size ∧
  (∀ r, r ∈ roots →
     p ≤ root_head r ∧
     root_head r + sizeof_JumpCommand ≤ root_tail r ∧
     root_tail r + sizeof_JumpCommand ≤ p + size) ∧
  (∀ o c, (o, c) ∈ cmds → p ≤ o < p + size ∧ cmd_type c ≠ MU_COMMAND_JUMP) ∧
  NoDup cmds.*1 ∧
  cmds.*1 ≡ₚ own ++ concat (root_own <$> roots) ∧
  (own = [] → match roots with [] => size = 0 | r :: _ => root_head r = p end).

(** What emitting such a block does to the context [c], giving [c']. *)
Definition emit_post (size : Z) (roots : list root_info) (own : list Z)
    (cmds : list (Z * mu_Command)) (c c' : mu_Context) : Prop :=
  command_list_idx c' = command_list_idx c + size ∧
  command_list_idx c' < MU_COMMANDLIST_SIZE ∧
  root_list c' = root_list c ++ (root_cnt <$> roots) ∧
  container_stack c' = container_stack c ∧
  (∀ o, o < command_list_idx c →
        command_list_items c' !! o = command_list_items c !! o) ∧
  (∀ cnt, cnt ∉ root_cnt <$> roots →
     cnt_head <$> containers c' !! cnt = cnt_head <$> containers c !! cnt ∧
     cnt_tail <$> containers c' !! cnt = cnt_tail <$> containers c !! cnt) ∧
  (∃ vis,
     jump_path (command_list_items c') (command_list_idx c) (command_list_idx c') vis own ∧
     ∀ o, o ∈ vis → command_list_idx c ≤ o < command_list_idx c') ∧
  Forall (root_closed (command_list_items c') (containers c')) roots ∧
  Forall (λ oc, command_list_items c' !! oc.1 = Some oc.2) cmds.

(** The frame as far as the client's calls, before [mu_end]. *)
Definition build_frame (frame : list item) (context : mu_Context) : outcome mu_Context :=
  context ← mu_begin context;
  emit frame context.
(** ** Statements used by the proofs *)

(** What [mu_pool_init]'s loop has found after the items below [i]: nothing while no
    item is older than the frame, else the first of the oldest items. *)
Definition pool_scan (items : list mu_PoolItem) (frame : Z) (i : nat) (f n : Z) : Prop :=
  (n = -1 ∧ f = frame ∧
   ∀ j it, (j < i)%nat → items !! j = Some it → frame ≤ last_update it) ∨
  (∃ k it, n = Z.of_nat k ∧ (k < i)%nat ∧ items !! k = Some it ∧
           last_update it = f ∧ f < frame ∧
           ∀ j it', (j < i)%nat → items !! j = Some it' →
                    f ≤ last_update it' ∧ ((j < k)%nat → f < last_update it')).

(** The statement proved of every item and of every list of items. *)
Definition emit_item_spec (i : item) : Prop :=
  ∀ c c', item_ok i →
    NoDup (root_cnt <$> roots_item (command_list_idx c) i) →
    0 ≤ command_list_idx c < MU_COMMANDLIST_SIZE →
    emit_item i c = Ok c' →
    emit_post (item_size i) (roots_item (command_list_idx c) i)
      (own_item (command_list_idx c) i) (cmds_item (command_list_idx c) i) c c'.

Definition emit_items_spec (l : list item) : Prop :=
  ∀ c c', frame_ok l →
    NoDup (root_cnt <$> roots_items (command_list_idx c) l) →
    0 ≤ command_list_idx c < MU_COMMANDLIST_SIZE →
    emit l c = Ok c' →
    emit_post (items_size l) (roots_items (command_list_idx c) l)
      (own_items (command_list_idx c) l) (cmds_items (command_list_idx c) l) c c'.

(** The record a pass of [mu_end]'s last loop writes first: at offset 0 for the first
    root container, at the tail jump of the previous one for the others. *)
Definition entry_of (context : mu_Context) (prev : option nat) (e : Z) : Prop :=
  match prev with
  | None => e = 0
  | Some pc => cnt_tail <$> containers context !! pc = Some (Some e)
  end.

(** A comparison function as [qsort] needs it. *)
Definition cmp_total (cmp : nat → nat → Z) : Prop :=
  ∀ a b, cmp a b ≤ 0 ∨ cmp b a ≤ 0.

Definition cmp_transitive (cmp : nat → nat → Z) : Prop :=
  ∀ a b c, cmp a b ≤ 0 → cmp b c ≤ 0 → cmp a c ≤ 0.

(** Every container's [zindex] is a non-negative [int]. *)
Definition zindex_in_range (context : mu_Context) : Prop :=
  Forall (λ k, 0 ≤ cnt_zindex k ≤ INT_MAX) (containers context).

(** What [mu_end]'s last loop needs of a root container [r] of the sorted root list:
    its two jumps are where the container says, and the records between them lead from
    one to the other through offsets the loop does not write to ([W] lists those it
    may write to). *)
Definition chain_ready (W : list Z) (c : mu_Context) (r : root_info) : Prop :=
  cnt_head <$> containers c !! root_cnt r = Some (Some (root_head r)) ∧
  cnt_tail <$> containers c !! root_cnt r = Some (Some (root_tail r)) ∧
  root_tail r ∈ W ∧
  root_tail r < command_list_idx c ∧
  (∃ k, command_list_items c !! root_tail r = Some k ∧ cmd_type k = MU_COMMAND_JUMP) ∧
  ∃ vis,
    jump_path (command_list_items c) (root_head r + sizeof_JumpCommand) (root_tail r)
      vis (root_own r) ∧
    ∀ o, o ∈ vis → o < command_list_idx c ∧ o ∉ W.

(** ** More of microui.c: the layout setters and the container pool *)

Definition MU_OPT_CLOSED : Z := 2048.

Definition with_layout_size (v : mu_Vector2) (layout : mu_Layout) : mu_Layout :=
  {| layout_body := layout_body layout;
     layout_next := layout_next layout;
     layout_position := layout_position layout;
     layout_size := v;
     layout_max := layout_max layout;
     layout_widths := layout_widths layout;
     layout_items := layout_items layout;
     layout_item_index := layout_item_index layout;
     layout_next_row := layout_next_row layout;
     layout_next_type := layout_next_type layout;
     layout_indentation := layout_indentation layout |}.

Definition with_layout_next (v : mu_Rectangle) (layout : mu_Layout) : mu_Layout :=
  {| layout_body := layout_body layout;
     layout_next := v;
     layout_position := layout_position layout;
     layout_size := layout_size layout;
     layout_max := layout_max layout;
     layout_widths := layout_widths layout;
     layout_items := layout_items layout;
     layout_item_index := layout_item_index layout;
     layout_next_row := layout_next_row layout;
     layout_next_type := layout_next_type layout;
     layout_indentation := layout_indentation layout |}.

Definition with_layout_items (v : Z) (layout : mu_Layout) : mu_Layout :=
  {| layout_body := layout_body layout;
     layout_next := layout_next layout;
     layout_position := layout_position layout;
     layout_size := layout_size layout;
     layout_max := layout_max layout;
     layout_widths := layout_widths layout;
     layout_items := v;
     layout_item_index := layout_item_index layout;
     layout_next_row := layout_next_row layout;
     layout_next_type := layout_next_type layout;
     layout_indentation := layout_indentation layout |}.

Definition mu_layout_width (context : mu_Context) (width : Z) : outcome mu_Context :=
  layout ← get_layout context;
  set_layout (with_layout_size (mu_vec2 width (vec_y (layout_size layout))) layout) context.

Definition mu_layout_set_next (context : mu_Context) (r : mu_Rectangle) (relative : Z)
  : outcome mu_Context :=
  layout ← get_layout context;
  set_layout
    (with_layout_next_type (if negb (relative =? 0) then RELATIVE else ABSOLUTE)
       (with_layout_next r layout))
    context.

Definition with_cnt_open (v : Z) (c : mu_Container) : mu_Container :=
  {| cnt_head := cnt_head c; cnt_tail := cnt_tail c; cnt_rectangle := cnt_rectangle c;
     cnt_body := cnt_body c; cnt_content_size := cnt_content_size c;
     cnt_scroll := cnt_scroll c; cnt_zindex := cnt_zindex c; cnt_open := v |}.

(** [get_container]: the container returned ([None] for NULL) and the context. *)
Definition get_container (context : mu_Context) (id opt : Z)
  : outcome (option nat * mu_Context) :=
  (* try to get existing container from pool *)
  idx ← mu_pool_get context (container_pool context) MU_CONTAINERPOOL_SIZE id;
  if idx >=? 0 then
    c ← deref (containers context !! Z.to_nat idx);
    let context :=
      if negb (cnt_open c =? 0) || negb (Z.land (Z.lnot opt) MU_OPT_CLOSED =? 0)
      then with_container_pool
             (mu_pool_update context (container_pool context) (Z.to_nat idx)) context
      else context in
    Ok (Some (Z.to_nat idx), context)
  else if negb (Z.land opt MU_OPT_CLOSED =? 0) then Ok (None, context)
  else
    (* container not found in pool: init new container *)
    '(pool, idx) ← mu_pool_init context (container_pool context) MU_CONTAINERPOOL_SIZE id;
    let context := with_container_pool pool context in
    context ←
      update_container (λ _, with_cnt_open 1 zero_container) (Z.to_nat idx) context;
    context ← mu_bring_to_front context (Z.to_nat idx);
    Ok (Some (Z.to_nat idx), context).

(** ** Notions the further statements use *)

(** No container's [zindex] is above [last_zindex]. *)
Definition zindex_bounded (context : mu_Context) : Prop :=
  Forall (λ k, cnt_zindex k ≤ last_zindex context) (containers context).

(** A context in the middle of a window: one clip rectangle, one layout. *)
Definition widget_context : mu_Context :=
  with_clip_stack [mu_rect 0 0 200 100] fill_context.

(** A control with identifier 7 under the mouse pointer while the left button goes
    down, in the hover root. *)
Definition pressed_context : mu_Context :=
  with_mouse_pressed MU_MOUSE_LEFT
    (with_mouse_down MU_MOUSE_LEFT
       (with_hover 7
          (with_hover_root (Some 0%nat)
             (with_container_stack [0%nat] widget_context)))).

(** A context in frame 1: every slot of the pools is older than the frame. *)
Definition pool_context : mu_Context := with_frame 1 demo_context.

(** Every record of the command list has room for a [mu_JumpCommand], so that a store
    to the [jump.dst] of any of them stays within the record. *)
Definition records_hold_jump (c : mu_Context) : Prop :=
  map_Forall (λ _ r, sizeof_JumpCommand ≤ cmd_size r) (command_list_items c).

(** * Proofs *)

(** ** Outcomes and machine integers *)

Lemma bind_Ok {A B : Type} (m : outcome A) (f : A → outcome B) (b : B) :
  m ≫= f = Ok b → ∃ a, m = Ok a ∧ f a = Ok b.
Proof. destruct m; simpl; intros H; try discriminate; eauto. Qed.

Lemma expect_Ok (b : bool) (u : unit) : expect b = Ok u → b = true.
Proof. destruct b; [done | discriminate]. Qed.

Lemma deref_Ok {A : Type} (o : option A) (a : A) : deref o = Ok a → o = Some a.
Proof. destruct o; simpl; congruence. Qed.

(** Split a hypothesis [m ≫= f = Ok b] into the two runs. *)
Ltac inv_bind H :=
  let a := fresh "a" in
  let Ha := fresh "H" a in
  apply bind_Ok in H as (a & Ha & H).

Ltac inv_ok :=
  repeat match goal with
  | H : Ok _ = Ok _ |- _ => injection H as H; try subst
  | H : expect _ = Ok _ |- _ => apply expect_Ok in H
  | H : deref _ = Ok _ |- _ => apply deref_Ok in H
  | H : Fatal = Ok _ |- _ => discriminate H
  | H : Undef = Ok _ |- _ => discriminate H
  | H : OutOfFuel = Ok _ |- _ => discriminate H
  end.

(** Unfold the bounds of [int] down to numerals, for [lia]. *)
Ltac int_bounds :=
  unfold in_int, INT_MIN, INT_MAX in *;
  change (2 ^ 31) with 2147483648 in *;
  change (2 ^ 32) with 4294967296 in *.

Lemma wrap_int_id (z : Z) : in_int z → wrap_int z = z.
Proof.
  unfold wrap_int. int_bounds. intros H.
  rewrite Z.mod_small; lia.
Qed.

Lemma wrap_int_in_int (z : Z) : in_int (wrap_int z).
Proof.
  unfold wrap_int. int_bounds.
  pose proof (Z.mod_pos_bound (z + 2147483648) 4294967296). lia.
Qed.

Lemma mu_min_eq (a b : Z) : mu_min a b = Z.min a b.
Proof. unfold mu_min. destruct (Z.ltb_spec a b); lia. Qed.

Lemma mu_max_eq (a b : Z) : mu_max a b = Z.max a b.
Proof. unfold mu_max. rewrite Z.gtb_ltb. destruct (Z.ltb_spec b a); lia. Qed.

(** ** C6: [intersect_rects] *)

Lemma rect_overlaps_vec2_spec (r : mu_Rectangle) (p : mu_Vector2) :
  in_int (rect_x r + rect_w r) → in_int (rect_y r + rect_h r) →
  point_in r p ↔
  rect_x r ≤ vec_x p < rect_x r + rect_w r ∧ rect_y r ≤ vec_y p < rect_y r + rect_h r.
Proof.
  intros Hx Hy. unfold point_in, rect_overlaps_vec2, int_add.
  rewrite !wrap_int_id by assumption.
  rewrite !andb_true_iff. rewrite !Z.geb_le, !Z.ltb_lt. lia.
Qed.

Lemma intersect_rects_fields (a b : mu_Rectangle) :
  rect_in_range a → rect_in_range b →
  let r := intersect_rects a b in
  rect_x r = Z.max (rect_x a) (rect_x b) ∧
  rect_y r = Z.max (rect_y a) (rect_y b) ∧
  rect_x r + rect_w r =
    Z.max (rect_x r) (Z.min (rect_x a + rect_w a) (rect_x b + rect_w b)) ∧
  rect_y r + rect_h r =
    Z.max (rect_y r) (Z.min (rect_y a + rect_h a) (rect_y b + rect_h b)) ∧
  in_int (rect_w r) ∧ in_int (rect_h r).
Proof.
  intros (Hax & Hay & Haw & Hah & Hax2 & Hay2) (Hbx & Hby & Hbw & Hbh & Hbx2 & Hby2).
  unfold intersect_rects, int_add, int_sub; simpl.
  rewrite !mu_min_eq, !mu_max_eq.
  rewrite !(wrap_int_id (_ + _)) by assumption.
  repeat match goal with
  | |- context [?x <? ?y] => destruct (Z.ltb_spec x y)
  end;
  rewrite !wrap_int_id by (int_bounds; lia); int_bounds; lia.
Qed.

(** C6. For rectangles of C ints, [intersect_rects a b] has a width and a height that
    are not negative, and every point of it is a point of [a] and a point of [b]. *)
Theorem intersect_rects_subset (a b : mu_Rectangle) :
  rect_in_range a → rect_in_range b →
  0 ≤ rect_w (intersect_rects a b) ∧
  0 ≤ rect_h (intersect_rects a b) ∧
  ∀ p, point_in (intersect_rects a b) p → point_in a p ∧ point_in b p.
Proof.
  intros Ha Hb.
  destruct (intersect_rects_fields a b Ha Hb) as (Hx & Hy & Hx2 & Hy2 & Hw & Hh).
  split; [lia|]. split; [lia|].
  intros p Hp.
  destruct Ha as (Hax & Hay & Haw & Hah & Hax2 & Hay2).
  destruct Hb as (Hbx & Hby & Hbw & Hbh & Hbx2 & Hby2).
  apply rect_overlaps_vec2_spec in Hp.
  - rewrite !rect_overlaps_vec2_spec by assumption. lia.
  - int_bounds. lia.
  - int_bounds. lia.
Qed.

Lemma intersect_rects_subset_witness :
  0 ≤ rect_w (intersect_rects (mu_rect 0 0 10 10) (mu_rect 5 20 10 10)) ∧
  0 ≤ rect_h (intersect_rects (mu_rect 0 0 10 10) (mu_rect 5 20 10 10)) ∧
  ∀ p, point_in (intersect_rects (mu_rect 0 0 10 10) (mu_rect 5 20 10 10)) p →
       point_in (mu_rect 0 0 10 10) p ∧ point_in (mu_rect 5 20 10 10) p.
Proof.
  apply (intersect_rects_subset (mu_rect 0 0 10 10) (mu_rect 5 20 10 10));
    unfold rect_in_range; simpl; int_bounds; lia.
Defined.

(** ** C5: [mu_check_clip] *)

Lemma mu_get_clip_rect_last (context : mu_Context) (c : mu_Rectangle) :
  last (clip_stack context) = Some c → mu_get_clip_rect context = Ok c.
Proof.
  intros H. unfold mu_get_clip_rect. rewrite H.
  destruct (clip_stack context); [discriminate|]. reflexivity.
Qed.

Lemma beyond_an_edge_outside (r c : mu_Rectangle) :
  rect_in_range r → rect_in_range c → beyond_an_edge r c → fully_outside r c.
Proof.
  intros (_ & _ & _ & _ & Hrx & Hry) (_ & _ & _ & _ & Hcx & Hcy) Hb p [Hr Hc].
  apply rect_overlaps_vec2_spec in Hr; [|assumption..].
  apply rect_overlaps_vec2_spec in Hc; [|assumption..].
  unfold beyond_an_edge in Hb. lia.
Qed.

Lemma within_edges_inside (r c : mu_Rectangle) :
  rect_in_range r → rect_in_range c → within_edges r c → fully_inside r c.
Proof.
  intros (_ & _ & _ & _ & Hrx & Hry) (_ & _ & _ & _ & Hcx & Hcy) Hw p Hr.
  apply rect_overlaps_vec2_spec in Hr; [|assumption..].
  apply rect_overlaps_vec2_spec; [assumption..|].
  unfold within_edges in Hw. lia.
Qed.

Lemma inside_within_edges (r c : mu_Rectangle) :
  rect_in_range r → rect_in_range c →
  fully_inside r c → 0 < rect_w r → 0 < rect_h r →
  ¬ beyond_an_edge r c ∧ within_edges r c.
Proof.
  intros (_ & _ & _ & _ & Hrx & Hry) (_ & _ & _ & _ & Hcx & Hcy) Hin Hw Hh.
  pose proof (Hin (mu_vec2 (rect_x r) (rect_y r))) as H1.
  pose proof (Hin (mu_vec2 (rect_x r + rect_w r - 1) (rect_y r + rect_h r - 1))) as H2.
  rewrite !rect_overlaps_vec2_spec in H1, H2 by assumption. simpl in H1, H2.
  unfold beyond_an_edge, within_edges. lia.
Qed.

(** C5, as the code has it. With [c] the current clip rectangle, [mu_check_clip]
    returns [MU_CLIP_ALL] exactly when [r] lies strictly beyond an edge of [c], and [r]
    then has no point in [c]; it returns 0 exactly when it does not and [r] lies
    between the edges of [c], and [r] is then contained in [c]; it returns
    [MU_CLIP_PART] in every other case.  Every non-empty rectangle contained in [c]
    gets 0. *)
Theorem check_clip_cases (context : mu_Context) (r c : mu_Rectangle) :
  last (clip_stack context) = Some c → rect_in_range r → rect_in_range c →
  (mu_check_clip context r = Ok MU_CLIP_ALL ↔ beyond_an_edge r c) ∧
  (mu_check_clip context r = Ok 0 ↔ ¬ beyond_an_edge r c ∧ within_edges r c) ∧
  (mu_check_clip context r = Ok MU_CLIP_PART ↔
     ¬ beyond_an_edge r c ∧ ¬ within_edges r c) ∧
  (beyond_an_edge r c → fully_outside r c) ∧
  (within_edges r c → fully_inside r c) ∧
  (fully_inside r c → 0 < rect_w r → 0 < rect_h r → mu_check_clip context r = Ok 0).
Proof.
  intros Hlast Hr Hc.
  assert (Hcode :
    mu_check_clip context r =
      if bool_decide (beyond_an_edge r c) then Ok MU_CLIP_ALL
      else if bool_decide (within_edges r c) then Ok 0 else Ok MU_CLIP_PART).
  { unfold mu_check_clip. rewrite (mu_get_clip_rect_last _ _ Hlast). simpl.
    destruct Hr as (_ & _ & _ & _ & Hrx & Hry), Hc as (_ & _ & _ & _ & Hcx & Hcy).
    unfold int_add. rewrite !wrap_int_id by assumption.
    unfold beyond_an_edge, within_edges.
    repeat match goal with
    | |- context [?x <? ?y] => destruct (Z.ltb_spec x y)
    | |- context [?x >? ?y] => rewrite (Z.gtb_ltb x y); destruct (Z.ltb_spec y x)
    | |- context [?x <=? ?y] => destruct (Z.leb_spec x y)
    | |- context [?x >=? ?y] => rewrite (Z.geb_leb x y); destruct (Z.leb_spec y x)
    end; simpl;
    repeat case_bool_decide; try reflexivity; exfalso; lia. }
  assert (Hin : fully_inside r c → 0 < rect_w r → 0 < rect_h r →
                ¬ beyond_an_edge r c ∧ within_edges r c)
    by (intros; by apply inside_within_edges).
  rewrite Hcode. unfold MU_CLIP_ALL, MU_CLIP_PART.
  split; [|split; [|split; [|split; [|split]]]].
  - repeat case_bool_decide; split; intros; try done; tauto.
  - repeat case_bool_decide; split; intros; try done; tauto.
  - repeat case_bool_decide; split; intros; try done; tauto.
  - by apply beyond_an_edge_outside.
  - by apply within_edges_inside.
  - intros H1 H2 H3. destruct (Hin H1 H2 H3).
    rewrite bool_decide_eq_false_2, bool_decide_eq_true_2; done.
Qed.

Lemma check_clip_cases_witness :
  mu_check_clip (with_clip_stack [mu_rect 0 0 10 10] mu_init) (mu_rect 2 2 3 3) = Ok 0.
Proof.
  apply (check_clip_cases (with_clip_stack [mu_rect 0 0 10 10] mu_init)
           (mu_rect 2 2 3 3) (mu_rect 0 0 10 10)).
  - reflexivity.
  - unfold rect_in_range; simpl; int_bounds; lia.
  - unfold rect_in_range; simpl; int_bounds; lia.
  - intros p Hp. apply rect_overlaps_vec2_spec in Hp; [|simpl; int_bounds; lia..].
    apply rect_overlaps_vec2_spec; [simpl; int_bounds; lia..|]. simpl in *. lia.
  - simpl. lia.
  - simpl. lia.
Defined.

(** C5, as the claim has it, fails: the rectangle (10, 0, 5, 5) has no point in the clip
    rectangle (0, 0, 10, 10), which it touches along an edge, and [mu_check_clip] answers
    [MU_CLIP_PART], not [MU_CLIP_ALL]. *)
Lemma check_clip_touching :
  fully_outside (mu_rect 10 0 5 5) (mu_rect 0 0 10 10) ∧
  mu_check_clip (with_clip_stack [mu_rect 0 0 10 10] mu_init) (mu_rect 10 0 5 5)
    = Ok MU_CLIP_PART ∧
  mu_check_clip (with_clip_stack [mu_rect 0 0 10 10] mu_init) (mu_rect 10 0 5 5)
    ≠ Ok MU_CLIP_ALL.
Proof.
  split; [|split; [reflexivity | discriminate]].
  intros p [Hr Hc].
  apply rect_overlaps_vec2_spec in Hr; [|simpl; int_bounds; lia..].
  apply rect_overlaps_vec2_spec in Hc; [|simpl; int_bounds; lia..].
  simpl in *. lia.
Qed.

(** ** C4: [mu_get_id] *)

Lemma hash_fnv1a (h : Z) (data : list byte) : hash h data = fnv1a h data.
Proof.
  revert h. induction data as [|b data IH]; intros h; [reflexivity|].
  simpl. rewrite IH. reflexivity.
Qed.

(** C4. [mu_get_id] returns the FNV-1a hash of the bytes, seeded with the top of the
    id stack (2166136261 when the stack is empty); the context it leaves is the one it
    was given with that hash in [last_identifier]; the hash depends on the context
    through the top of the id stack only. *)
Theorem get_id_fnv1a (context : mu_Context) (data : list byte) :
  mu_get_id context data =
    (fnv1a (id_seed context) data,
     with_last_identifier (fnv1a (id_seed context) data) context) ∧
  last_identifier (mu_get_id context data).2 = (mu_get_id context data).1 ∧
  ∀ context', last (id_stack context') = last (id_stack context) →
              (mu_get_id context' data).1 = (mu_get_id context data).1.
Proof.
  unfold mu_get_id, id_seed, HASH_INITIAL. rewrite !hash_fnv1a.
  split; [reflexivity|]. split; [reflexivity|].
  intros context' H. simpl. rewrite hash_fnv1a, H. reflexivity.
Qed.

(** ** C3: [mu_pool_init] *)

Lemma mu_pool_init_loop_scan (items : list mu_PoolItem) (frame : Z) (todo i : nat)
    (f n : Z) :
  (i + todo ≤ length items)%nat →
  pool_scan items frame i f n →
  ∃ f' n', mu_pool_init_loop items todo i f n = Ok (f', n') ∧
           pool_scan items frame (i + todo) f' n'.
Proof.
  revert i f n. induction todo as [|todo IH]; intros i f n Hlen Hscan.
  - exists f, n. rewrite Nat.add_0_r. done.
  - simpl. destruct (lookup_lt_is_Some_2 items i) as [it Hit]; [lia|].
    rewrite Hit. simpl.
    replace (i + S todo)%nat with (S i + todo)%nat by lia.
    destruct (Z.ltb_spec (last_update it) f) as [Hlt|Hge].
    + apply IH; [lia|]. right. exists i, it.
      repeat split; try done; try lia.
      * destruct Hscan as [(-> & -> & _)|(k & it0 & _ & _ & _ & _ & Hf & _)]; lia.
      * destruct (decide (j = i)) as [->|Hne]; [naive_solver lia|].
        destruct Hscan as [(-> & -> & Hall)|(k & it0 & _ & _ & _ & _ & _ & Hall)].
        -- specialize (Hall j it' ltac:(lia) H0). lia.
        -- specialize (Hall j it' ltac:(lia) H0). lia.
      * intros Hj.
        destruct Hscan as [(-> & -> & Hall)|(k & it0 & _ & _ & _ & _ & _ & Hall)].
        -- specialize (Hall j it' ltac:(lia) H0). lia.
        -- specialize (Hall j it' ltac:(lia) H0). lia.
    + apply IH; [lia|].
      destruct Hscan as [(-> & -> & Hall)|(k & it0 & -> & Hk & Hk' & Hf & Hlt & Hall)].
      * left. repeat split; try done. intros j it' Hj Hj'.
        destruct (decide (j = i)) as [->|Hne]; [naive_solver lia|].
        apply (Hall j); [lia | done].
      * right. exists k, it0. repeat split; try done; try lia.
        -- destruct (decide (j = i)) as [->|Hne]; [naive_solver lia|].
           apply (Hall j); [lia | done].
        -- destruct (decide (j = i)) as [->|Hne]; [lia|].
           apply (Hall j); [lia | done].
Qed.

(** C3, as the code has it. When no slot is older than the current frame (so also when
    every slot was updated in this frame) [mu_pool_init] fails its [expect(n > -1)] and
    aborts.  When some slot is older, it takes the slot with the oldest [last_update]
    (the lowest index among equals), writes the identifier there, sets its
    [last_update] to the frame and returns its index. *)
Theorem pool_init_oldest (context : mu_Context) (items : list mu_PoolItem) (id : Z) :
  (Forall (λ it, frame context ≤ last_update it) items →
   mu_pool_init context items (Z.of_nat (length items)) id = Fatal) ∧
  (Exists (λ it, last_update it < frame context) items →
   ∃ n it,
     mu_pool_init context items (Z.of_nat (length items)) id =
       Ok (<[n := {| identifier := id; last_update := frame context |}]> items,
           Z.of_nat n) ∧
     items !! n = Some it ∧
     last_update it < frame context ∧
     ∀ j it', items !! j = Some it' →
              last_update it ≤ last_update it' ∧
              ((j < n)%nat → last_update it < last_update it')).
Proof.
  destruct (mu_pool_init_loop_scan items (frame context) (length items) 0
              (frame context) (-1)) as (f & n & Hloop & Hscan); [lia | |].
  { left. repeat split; try done. intros; lia. }
  simpl in Hscan. unfold mu_pool_init. rewrite Nat2Z.id, Hloop. simpl.
  split.
  - intros Hall.
    destruct Hscan as [(-> & _)|(k & it & _ & _ & Hk & Hf & Hlt & _)]; [reflexivity|].
    rewrite Forall_lookup in Hall. specialize (Hall k it Hk). lia.
  - intros Hex. apply Exists_exists in Hex as (it0 & Hin & Hlt0).
    apply list_elem_of_lookup in Hin as [j0 Hj0].
    destruct Hscan as [(-> & _ & Hall)|(k & it & -> & Hk & Hk' & Hf & Hlt & Hall)].
    { specialize (Hall j0 it0 (lookup_lt_Some _ _ _ Hj0) Hj0). lia. }
    exists k, it.
    replace (Z.of_nat k >? -1) with true by (symmetry; apply Z.gtb_lt; lia).
    simpl. rewrite Nat2Z.id, Hk'. simpl.
    split; [|split; [done|split; [lia|]]].
    + unfold mu_pool_update. rewrite list_lookup_insert_eq by done.
      rewrite list_insert_insert_eq. reflexivity.
    + intros j it' Hj. rewrite Hf.
      apply (Hall j it'); [by eapply lookup_lt_Some | done].
Qed.

(** C3, as the claim has it, fails: with two slots both updated in the current frame 5,
    [mu_pool_init] evicts nothing and aborts. *)
Lemma pool_init_all_touched :
  Forall (λ it, last_update it = frame (with_frame 5 mu_init))
         [ {| identifier := 1; last_update := 5 |}; {| identifier := 2; last_update := 5 |} ] ∧
  mu_pool_init (with_frame 5 mu_init)
    [ {| identifier := 1; last_update := 5 |}; {| identifier := 2; last_update := 5 |} ]
    2 9 = Fatal.
Proof. split; [repeat constructor | reflexivity]. Qed.

(** ** C8: negative widths in [mu_layout_next] *)

Lemma get_layout_last (context : mu_Context) (layout : mu_Layout) :
  last (layout_stack context) = Some layout → get_layout context = Ok layout.
Proof. intros H. unfold get_layout. by rewrite H. Qed.

Lemma set_layout_Ok (context : mu_Context) (old layout : mu_Layout) :
  last (layout_stack context) = Some old →
  set_layout layout context =
    Ok (with_layout_stack (removelast (layout_stack context) ++ [layout]) context).
Proof.
  intros H. unfold set_layout. destruct (layout_stack context); [discriminate|done].
Qed.

(** C8, as the code has it. In a row with columns, when the width of the next column is
    [-k] and the cursor of the layout is at [x], [mu_layout_next] gives the widget the
    width [(W - x) + 1 - k], [W] being the width of the body of the layout; so a column
    of width -1 with the cursor at 0 fills the body. *)
Theorem layout_next_fill (context : mu_Context) (layout : mu_Layout) (k : Z) :
  last (layout_stack context) = Some layout →
  layout_next_type layout = 0 →
  layout_items layout > 0 →
  0 ≤ layout_item_index (layout_at_cell layout) →
  layout_widths layout !! Z.to_nat (layout_item_index (layout_at_cell layout)) = Some (- k) →
  0 < k →
  in_int (rect_w (layout_body layout) - vec_x (layout_position (layout_at_cell layout))) →
  in_int (rect_w (layout_body layout) - vec_x (layout_position (layout_at_cell layout)) + 1) →
  in_int (- k + (rect_w (layout_body layout)
                 - vec_x (layout_position (layout_at_cell layout)) + 1)) →
  ∃ res context',
    mu_layout_next context = Ok (res, context') ∧
    rect_w res =
      (rect_w (layout_body layout) - vec_x (layout_position (layout_at_cell layout)))
      + 1 - k ∧
    last_rect context' = res ∧
    (k = 1 → vec_x (layout_position (layout_at_cell layout)) = 0 →
     rect_w res = rect_w (layout_body layout)).
Proof.
  intros Hlast Htype Hitems Hidx Hw Hk H1 H2 H3.
  unfold mu_layout_next. rewrite (get_layout_last _ _ Hlast). simpl.
  rewrite Htype. simpl.
  assert (Hcell : ∃ context1,
    (if layout_item_index layout =? layout_items layout
     then mu_layout_row context (layout_items layout) None (vec_y (layout_size layout))
     else Ok context) = Ok context1 ∧
    (∃ cell, last (layout_stack context1) = Some cell ∧
       layout_position cell = layout_position (layout_at_cell layout) ∧
       layout_item_index cell = layout_item_index (layout_at_cell layout) ∧
       layout_items cell = layout_items layout ∧
       layout_widths cell = layout_widths layout ∧
       layout_body cell = layout_body layout)).
  { unfold layout_at_cell.
    destruct (layout_item_index layout =? layout_items layout).
    - unfold mu_layout_row. rewrite (get_layout_last _ _ Hlast). simpl.
      rewrite (set_layout_Ok _ _ _ Hlast). eexists. split; [reflexivity|].
      eexists. simpl. rewrite last_snoc. split; [reflexivity|]. done.
    - exists context. split; [reflexivity|]. exists layout. done. }
  destruct Hcell as (context1 & -> & cell & Hcell & Hpos & Hindex & Hit & Hws & Hbody).
  simpl. rewrite (get_layout_last _ _ Hcell). simpl.
  unfold layout_cell_size.
  rewrite Hit, Hindex, Hws, Hpos, Hbody.
  replace (layout_items layout >? 0) with true by (symmetry; apply Z.gtb_lt; lia).
  replace (layout_item_index (layout_at_cell layout) <? 0) with false
    by (symmetry; apply Z.ltb_ge; lia).
  rewrite Hw. simpl.
  replace (- k =? 0) with false by (symmetry; apply Z.eqb_neq; lia).
  replace (- k <? 0) with true by (symmetry; apply Z.ltb_lt; lia).
  rewrite (eq_refl : int_sub (rect_w (layout_body layout))
                        (vec_x (layout_position (layout_at_cell layout))) = wrap_int _).
  rewrite (wrap_int_id _ H1).
  rewrite (eq_refl : int_add (rect_w (layout_body layout)
                               - vec_x (layout_position (layout_at_cell layout))) 1
                     = wrap_int _).
  rewrite (wrap_int_id _ H2).
  rewrite (eq_refl : int_add (- k) _ = wrap_int _).
  rewrite (wrap_int_id _ H3).
  rewrite (set_layout_Ok _ cell) by done. simpl.
  eexists _, _. split; [reflexivity|]. simpl.
  split; [lia|]. split; [reflexivity|]. lia.
Qed.

Lemma layout_next_fill_witness :
  ∃ res context',
    mu_layout_next fill_context = Ok (res, context') ∧
    rect_w res = (100 - 0) + 1 - 1 ∧
    last_rect context' = res ∧
    (1 = 1 → 0 = 0 → rect_w res = 100).
Proof.
  apply (layout_next_fill fill_context fill_layout 1);
    try reflexivity; unfold layout_at_cell, fill_layout; simpl; int_bounds; try lia.
Defined.

(** C8, as the claim has it, fails: for a column of width -1 with the cursor at 0 in a
    body 100 wide the code gives the width 100, and the claim's
    [(W - x) + 1 - (k - 1)] is 101. *)
Lemma layout_next_fill_not_plus_one :
  ∃ res context',
    mu_layout_next fill_context = Ok (res, context') ∧
    rect_w res = 100 ∧
    rect_w res ≠ (100 - 0) + 1 - (1 - 1).
Proof.
  eexists _, _. split; [vm_compute; reflexivity|].
  split; [reflexivity | simpl; lia].
Qed.

(** ** Decomposing a run *)

(** One step of inversion on a hypothesis that says a run returned [Ok]. *)
Ltac run_step :=
  match goal with
  | H : Ok _ = Ok _ |- _ => injection H as H
  | H : Fatal = Ok _ |- _ => discriminate H
  | H : Undef = Ok _ |- _ => discriminate H
  | H : OutOfFuel = Ok _ |- _ => discriminate H
  | H : expect _ = Ok _ |- _ => apply expect_Ok in H
  | H : deref _ = Ok _ |- _ => apply deref_Ok in H
  | H : (_ ≫= _) = Ok _ |- _ => inv_bind H
  | H : (let '(_, _) := ?x in _) = Ok _ |- _ => destruct x eqn:?
  | H : (if ?b then _ else _) = Ok _ |- _ => destruct b eqn:?
  | H : match ?x with _ => _ end = Ok _ |- _ => destruct x eqn:?
  end.

Ltac run_inv := repeat (run_step; cbn beta iota zeta in *; subst).

(** ** What [mu_update_control] touches *)

Lemma mu_update_control_frame (context context' : mu_Context) (id : Z) (r : mu_Rectangle)
    (opt : Z) :
  mu_update_control context id r opt = Ok context' →
  ∃ h f u, context' = with_hover h (with_focus f (with_updated_focus u context)).
Proof.
  unfold mu_update_control, mu_set_focus. intros H. inv_bind H.
  destruct context.
  repeat match type of H with
  | context [if ?b then _ else _] => destruct b; simpl in H
  end;
  injection H as <-;
  match goal with
  | |- ∃ h f u, ?c = _ => exists (hover c), (focus c), (updated_focus c)
  end; reflexivity.
Qed.

(** ** C7: Backspace in [mu_textbox_raw] *)

Lemma backspace_loop_code_point (prefix conts suffix : list byte) (lead : byte) :
  is_continuation lead = false →
  Forall (λ b, is_continuation b = true) conts →
  backspace_loop (prefix ++ lead :: conts ++ suffix) (length (prefix ++ lead :: conts))
  = length prefix.
Proof.
  intros Hlead. revert suffix.
  induction conts as [|b conts IH] using rev_ind; intros suffix Hconts.
  - rewrite length_app. simpl. rewrite Nat.add_1_r. simpl.
    rewrite app_nth2 by lia. rewrite Nat.sub_diag. simpl.
    unfold is_continuation in Hlead. by rewrite Hlead.
  - apply Forall_app in Hconts as [Hconts Hb].
    apply Forall_inv in Hb.
    replace (length (prefix ++ lead :: conts ++ [b]))
      with (S (length (prefix ++ lead :: conts)))
      by (rewrite !length_app; simpl; rewrite !length_app; simpl; lia).
    simpl.
    replace (prefix ++ lead :: (conts ++ [b]) ++ suffix)
      with ((prefix ++ lead :: conts) ++ b :: suffix)
      by (by list_simplifier).
    rewrite app_nth2 by lia. rewrite Nat.sub_diag. simpl.
    unfold is_continuation in Hb. rewrite Hb. simpl.
    replace (0 <? length (prefix ++ lead :: conts))%nat with true
      by (symmetry; apply Nat.ltb_lt; rewrite length_app; simpl; lia).
    rewrite <- app_assoc. simpl.
    apply (IH (b :: suffix) Hconts).
Qed.

(** C7. When the text box has the focus, Backspace is pressed and no text was typed,
    [mu_textbox_raw] removes the last code point of a buffer that ends with one (a lead
    byte followed by its continuation bytes) and reports a change; on "héllo" four
    calls in a row leave "héll", "hél", "hé" and "h". *)
Theorem textbox_backspace :
  (∀ (context context1 context' : mu_Context) (buffer buffer' prefix conts : list byte)
     (lead : byte) (bufsz id opt res : Z) (r : mu_Rectangle),
     mu_update_control context id r (Z.lor opt MU_OPT_HOLDFOCUS) = Ok context1 →
     focus context1 = id →
     Z.land (key_pressed context) MU_KEY_BACKSPACE ≠ 0 →
     input_text context = [] →
     buffer = prefix ++ lead :: conts →
     is_continuation lead = false →
     Forall (λ b, is_continuation b = true) conts →
     mu_textbox_raw context buffer bufsz id r opt = Ok (res, buffer', context') →
     buffer' = prefix ∧ Z.land res MU_RES_CHANGE = MU_RES_CHANGE) ∧
  textbox_repeat 4 textbox_context hello 32 7 (mu_rect 10 10 100 20) 0 =
    Ok [ [x68; xc3; xa9; x6c; x6c]; [x68; xc3; xa9; x6c]; [x68; xc3; xa9]; [x68] ].
Proof.
  split; [|vm_compute; reflexivity].
  intros context context1 context' buffer buffer' prefix conts lead bufsz id opt res r
    Hupd Hfocus Hkey Htext -> Hlead Hconts Hrun.
  destruct (mu_update_control_frame _ _ _ _ _ Hupd) as (h & f & u & Hctx).
  assert (Hkey1 : key_pressed context1 = key_pressed context) by (by subst context1).
  assert (Htext1 : input_text context1 = []) by (by subst context1).
  clear Hctx.
  unfold mu_textbox_raw in Hrun. rewrite Hupd in Hrun. simpl in Hrun.
  rewrite Hfocus, Z.eqb_refl, Htext1, Hkey1 in Hrun. simpl in Hrun.
  replace (mu_min _ 0 >? 0) with false in Hrun
    by (symmetry; rewrite mu_min_eq, Z.gtb_ltb; apply Z.ltb_ge; simpl; lia).
  replace (Z.land (key_pressed context) MU_KEY_BACKSPACE =? 0) with false in Hrun
    by (symmetry; by apply Z.eqb_neq).
  replace (0 <? length (prefix ++ lead :: conts))%nat with true in Hrun
    by (symmetry; apply Nat.ltb_lt; rewrite length_app; simpl; lia).
  change (negb false && true) with true in Hrun. cbv beta iota in Hrun.
  pose proof (backspace_loop_code_point prefix conts [] lead Hlead Hconts) as Hloop.
  rewrite app_nil_r in Hloop. rewrite Hloop in Hrun.
  rewrite take_app_length in Hrun.
  destruct (negb (Z.land (key_pressed context) MU_KEY_RETURN =? 0));
    cbv beta iota zeta in Hrun;
    apply bind_Ok in Hrun as (c1 & _ & Hrun);
    apply bind_Ok in Hrun as (c2 & _ & Hrun);
    injection Hrun as <- <- _; split; reflexivity.
Qed.

Lemma textbox_backspace_witness :
  [x68] = [x68] ∧ Z.land 4 MU_RES_CHANGE = MU_RES_CHANGE.
Proof.
  assert (Hrun : ∃ context',
    mu_textbox_raw textbox_context [x68; xc3; xa9] 32 7 (mu_rect 10 10 100 20) 0
    = Ok (4, [x68], context'))
    by (eexists; vm_compute; reflexivity).
  destruct Hrun as [context' Hrun].
  refine (proj1 textbox_backspace textbox_context
            (with_updated_focus 1 textbox_context) context'
            [x68; xc3; xa9] [x68] [x68] [xa9] xc3 32 7 0 4 (mu_rect 10 10 100 20)
            _ _ _ _ _ _ _ Hrun).
  - vm_compute. reflexivity.
  - vm_compute. reflexivity.
  - vm_compute. discriminate.
  - vm_compute. reflexivity.
  - reflexivity.
  - vm_compute. reflexivity.
  - repeat constructor.
Defined.
(** ** C9: the value a slider stores *)

Lemma real_clamp_eq {R : Type} `{MuReal R} (v low high : R) :
  real_clamp v low high =
    if real_ltb high (if real_ltb v low then low else v) then high
    else if real_ltb v low then low else v.
Proof. reflexivity. Qed.

Lemma real_clamp_cases {R : Type} `{MuReal R} (v low high : R) :
  real_clamp v low high = low ∨ real_clamp v low high = high ∨ real_clamp v low high = v.
Proof.
  rewrite real_clamp_eq. destruct (real_ltb v low), (real_ltb high _); auto.
Qed.

(** Between bounds in order, a value that compares with them is clamped into the
    range. *)
Lemma real_clamp_bounds {R : Type} `{MuReal R} (v low high : R) :
  real_order_laws R →
  real_le low high = true →
  real_ordered low v = true → real_ordered v high = true →
  real_le low (real_clamp v low high) = true ∧
  real_le (real_clamp v low high) high = true.
Proof.
  intros (Hasym & Heq & Hrefl) Hlh Hlv Hvh.
  destruct (Hrefl _ _ Hlh) as [Hll Hhh].
  assert (Hhl : real_ltb high low = false).
  { unfold real_le in Hlh. apply orb_true_iff in Hlh as [Hlt|He]; auto. }
  assert (Hle_refl : ∀ x : R, real_eqb x x = true → real_le x x = true)
    by (intros x Hx; unfold real_le; rewrite Hx; apply orb_true_r).
  rewrite real_clamp_eq.
  unfold real_ordered in Hlv, Hvh.
  destruct (real_ltb v low) eqn:Hv.
  - rewrite Hhl. auto.
  - rewrite orb_false_r in Hlv.
    destruct (real_ltb high v) eqn:Hh; [auto|].
    rewrite orb_false_r in Hvh. auto.
Qed.


(** ** [float] satisfies the order laws *)

Lemma SFcompare_antisym (a b : float32) :
  SpecFloat.SFcompare b a = CompOpp <$> SpecFloat.SFcompare a b.
Proof.
  destruct a as [sa|sa| |sa ma ea], b as [sb|sb| |sb mb eb]; simpl;
    try done; try (by destruct sa); try (by destruct sb);
    try (by destruct sa, sb).
  assert (E : Pos.compare_cont Eq mb ma = CompOpp (Pos.compare_cont Eq ma mb))
    by (symmetry; apply (Pos.compare_cont_antisym ma mb Eq)).
  destruct sa, sb; simpl; try done;
    rewrite (Z.compare_antisym ea eb); destruct (ea ?= eb); simpl; try done;
    rewrite E; by destruct (Pos.compare_cont Eq ma mb).
Qed.

Lemma SFcompare_refl (a b : float32) (c : comparison) :
  SpecFloat.SFcompare a b = Some c →
  SpecFloat.SFcompare a a = Some Eq ∧ SpecFloat.SFcompare b b = Some Eq.
Proof.
  assert (Hrefl : ∀ x : float32, x ≠ SpecFloat.S754_nan →
                                 SpecFloat.SFcompare x x = Some Eq).
  { intros [s|s| |s m e] Hx; simpl; try done; try (by destruct s).
    destruct s; rewrite Z.compare_refl, Pos.compare_cont_refl; done. }
  intros Hc. split; apply Hrefl; intros ->; [by destruct b | by destruct a].
Qed.

Lemma float32_order_laws : real_order_laws float32.
Proof.
  unfold real_order_laws, real_le. simpl.
  unfold SpecFloat.SFltb, SpecFloat.SFeqb. split; [|split].
  - intros a b. rewrite (SFcompare_antisym a b).
    by destruct (SpecFloat.SFcompare a b) as [[]|].
  - intros a b. rewrite (SFcompare_antisym a b).
    by destruct (SpecFloat.SFcompare a b) as [[]|].
  - intros a b Hle.
    destruct (SpecFloat.SFcompare a b) as [c|] eqn:Hc; [|done].
    destruct (SFcompare_refl a b c Hc) as [-> ->]. done.
Qed.



(** ** What the primitives of the command pipeline do *)

Lemma push_Ok {A : Type} (stk stk' : list A) (capacity : Z) (val : A) :
  push stk capacity val = Ok stk' → stk' = stk ++ [val].
Proof. unfold push. intros H. run_inv. done. Qed.

Lemma pop_Ok {A : Type} (stk stk' : list A) :
  pop stk = Ok stk' → stk' = removelast stk.
Proof. unfold pop. intros H. run_inv. done. Qed.

Lemma sizeof_JumpCommand_pos : 0 < sizeof_JumpCommand < MU_COMMANDLIST_SIZE.
Proof. unfold sizeof_JumpCommand, MU_COMMANDLIST_SIZE. lia. Qed.

Lemma int_add_small (idx size : Z) :
  0 ≤ idx < MU_COMMANDLIST_SIZE → 0 < size < MU_COMMANDLIST_SIZE →
  int_add idx size = idx + size.
Proof.
  unfold MU_COMMANDLIST_SIZE. intros H1 H2. apply wrap_int_id. int_bounds. lia.
Qed.

Lemma mu_push_command_Ok (c c' : mu_Context) (type size p : Z) :
  mu_push_command c type size = Ok (p, c') →
  p = command_list_idx c ∧
  int_add (command_list_idx c) size < MU_COMMANDLIST_SIZE ∧
  c' = with_command_list_idx (int_add (command_list_idx c) size)
         (with_command_list_items
            (<[command_list_idx c :=
                 {| cmd_type := type; cmd_size := size; cmd_data := NoData |}]>
               (command_list_items c)) c).
Proof.
  unfold mu_push_command. intros H. apply bind_Ok in H as (u & Hu & H).
  apply expect_Ok, Z.ltb_lt in Hu. by injection H as <- <-.
Qed.

Lemma set_command_data_Ok (c c' : mu_Context) (p : Z) (data : mu_CommandData) :
  set_command_data p data c = Ok c' →
  ∃ r, command_list_items c !! p = Some r ∧
       c' = with_command_list_items
              (<[p := {| cmd_type := cmd_type r; cmd_size := cmd_size r;
                         cmd_data := data |}]> (command_list_items c)) c.
Proof.
  unfold set_command_data. intros H. apply bind_Ok in H as (r & Hr & H).
  apply deref_Ok in Hr. injection H as <-. eauto.
Qed.

Lemma store_jump_dst_Ok (c c' : mu_Context) (p : Z) (dst : option Z) :
  store_jump_dst p dst c = Ok c' →
  ∃ r data, command_list_items c !! p = Some r ∧
       (data = JumpData dst ∨ data = Clobbered dst) ∧
       (cmd_data r = NoData ∨ (∃ d, cmd_data r = JumpData d) → data = JumpData dst) ∧
       c' = with_command_list_items
              (<[p := {| cmd_type := cmd_type r; cmd_size := cmd_size r;
                         cmd_data := data |}]> (command_list_items c)) c.
Proof.
  unfold store_jump_dst. intros H. apply bind_Ok in H as (r & Hr & H).
  apply deref_Ok in Hr. apply set_command_data_Ok in H as (r' & Hr' & ->).
  rewrite Hr in Hr'. injection Hr' as <-.
  eexists r, _. split; [done|]. split; [|split; [|reflexivity]].
  - destruct (cmd_data r); auto.
  - intros [->|[d ->]]; done.
Qed.

Lemma with_items_idx_items (c : mu_Context) (idx : Z) (m1 m2 : gmap Z mu_Command) :
  with_command_list_items m2 (with_command_list_idx idx (with_command_list_items m1 c))
  = with_command_list_idx idx (with_command_list_items m2 c).
Proof. reflexivity. Qed.

Lemma push_jump_Ok (c c' : mu_Context) (dst : option Z) (p : Z) :
  push_jump c dst = Ok (p, c') →
  0 ≤ command_list_idx c < MU_COMMANDLIST_SIZE →
  p = command_list_idx c ∧
  command_list_idx c + sizeof_JumpCommand < MU_COMMANDLIST_SIZE ∧
  c' = with_command_list_idx (command_list_idx c + sizeof_JumpCommand)
         (with_command_list_items
            (<[command_list_idx c :=
                 {| cmd_type := MU_COMMAND_JUMP; cmd_size := sizeof_JumpCommand;
                    cmd_data := JumpData dst |}]> (command_list_items c)) c).
Proof.
  unfold push_jump. intros H Hidx.
  apply bind_Ok in H as ([p1 c1] & Hpush & H).
  apply bind_Ok in H as (c2 & Hstore & H). injection H as <- <-.
  apply mu_push_command_Ok in Hpush as (-> & Hlt & ->).
  rewrite (int_add_small _ _ Hidx sizeof_JumpCommand_pos) in *.
  apply store_jump_dst_Ok in Hstore as (r & data & Hr & _ & Hdata & ->).
  simpl in Hr. rewrite lookup_insert_eq in Hr. injection Hr as <-. simpl in *.
  rewrite (Hdata (or_introl eq_refl)).
  split; [done|]. split; [done|].
  rewrite with_items_idx_items. simpl. by rewrite insert_insert_eq.
Qed.

Lemma update_container_Ok (f : mu_Container → mu_Container) (cnt : nat)
    (c c' : mu_Context) :
  update_container f cnt c = Ok c' →
  ∃ k, containers c !! cnt = Some k ∧
       c' = with_containers (<[cnt := f k]> (containers c)) c.
Proof.
  unfold update_container. intros H. apply bind_Ok in H as (k & Hk & H).
  apply deref_Ok in Hk. injection H as <-. eauto.
Qed.

Lemma mu_get_current_container_Ok (c : mu_Context) (cnt : nat) :
  mu_get_current_container c = Ok cnt → last (container_stack c) = Some cnt.
Proof.
  unfold mu_get_current_container. intros H. apply bind_Ok in H as (u & _ & H).
  by apply deref_Ok in H.
Qed.

Lemma update_container_heads (f : mu_Container → mu_Container) (cs : list mu_Container)
    (cnt : nat) (k : mu_Container) :
  cs !! cnt = Some k → cnt_head (f k) = cnt_head k →
  ∀ i, cnt_head <$> <[cnt := f k]> cs !! i = cnt_head <$> cs !! i.
Proof.
  intros Hk Hf i. destruct (decide (i = cnt)) as [->|Hne].
  - rewrite list_lookup_insert_eq by (by eapply lookup_lt_Some). rewrite Hk. simpl.
    by rewrite Hf.
  - by rewrite list_lookup_insert_ne.
Qed.

Lemma update_container_tails (f : mu_Container → mu_Container) (cs : list mu_Container)
    (cnt : nat) (k : mu_Container) :
  cs !! cnt = Some k → cnt_tail (f k) = cnt_tail k →
  ∀ i, cnt_tail <$> <[cnt := f k]> cs !! i = cnt_tail <$> cs !! i.
Proof.
  intros Hk Hf i. destruct (decide (i = cnt)) as [->|Hne].
  - rewrite list_lookup_insert_eq by (by eapply lookup_lt_Some). rewrite Hk. simpl.
    by rewrite Hf.
  - by rewrite list_lookup_insert_ne.
Qed.

Lemma pop_container_Ok (c c' : mu_Context) :
  pop_container c = Ok c' →
  command_list_idx c' = command_list_idx c ∧
  command_list_items c' = command_list_items c ∧
  root_list c' = root_list c ∧
  container_stack c' = removelast (container_stack c) ∧
  (∀ i, cnt_head <$> containers c' !! i = cnt_head <$> containers c !! i) ∧
  (∀ i, cnt_tail <$> containers c' !! i = cnt_tail <$> containers c !! i) ∧
  clip_stack c' = clip_stack c ∧
  layout_stack c' = removelast (layout_stack c) ∧
  id_stack c' = removelast (id_stack c) ∧
  mouse_pressed c' = mouse_pressed c.
Proof.
  unfold pop_container, mu_pop_id. intros H.
  apply bind_Ok in H as (cnt & _ & H).
  apply bind_Ok in H as (layout & _ & H).
  apply bind_Ok in H as (c1 & Hupd & H).
  apply bind_Ok in H as (stk1 & Hpop1 & H).
  apply bind_Ok in H as (stk2 & Hpop2 & H).
  apply bind_Ok in H as (stk3 & Hpop3 & H).
  injection H as <-.
  apply update_container_Ok in Hupd as (k & Hk & ->).
  apply pop_Ok in Hpop1 as ->. apply pop_Ok in Hpop2 as ->. apply pop_Ok in Hpop3 as ->.
  simpl. repeat split; try done.
  - by apply update_container_heads.
  - by apply update_container_tails.
Qed.

Lemma begin_root_container_Ok (c c' : mu_Context) (cnt : nat) :
  begin_root_container c cnt = Ok c' →
  0 ≤ command_list_idx c < MU_COMMANDLIST_SIZE →
  ∃ k, containers c !! cnt = Some k ∧
    command_list_idx c' = command_list_idx c + sizeof_JumpCommand ∧
    command_list_idx c' < MU_COMMANDLIST_SIZE ∧
    command_list_items c' = <[command_list_idx c := tail_jump]> (command_list_items c) ∧
    root_list c' = root_list c ++ [cnt] ∧
    container_stack c' = container_stack c ++ [cnt] ∧
    containers c' = <[cnt := with_cnt_head (Some (command_list_idx c)) k]> (containers c) ∧
    clip_stack c' = clip_stack c ++ [unclipped_rect] ∧
    layout_stack c' = layout_stack c ∧
    id_stack c' = id_stack c ∧
    mouse_pressed c' = mouse_pressed c.
Proof.
  unfold begin_root_container. intros H Hidx.
  apply bind_Ok in H as (stk1 & Hpush1 & H).
  apply bind_Ok in H as (stk2 & Hpush2 & H).
  apply bind_Ok in H as ([head c1] & Hjump & H).
  apply bind_Ok in H as (c2 & Hupd & H).
  apply bind_Ok in H as (k2 & _ & H).
  apply bind_Ok in H as (over & _ & H).
  apply bind_Ok in H as (stk3 & Hpush3 & H).
  injection H as <-.
  apply push_Ok in Hpush1 as ->. apply push_Ok in Hpush2 as ->.
  apply push_jump_Ok in Hjump as (-> & Hlt & ->); [|done].
  apply update_container_Ok in Hupd as (k & Hk & ->).
  apply push_Ok in Hpush3 as ->.
  exists k. simpl in *. destruct over; simpl; done.
Qed.

Lemma end_root_container_Ok (c c' : mu_Context) :
  end_root_container c = Ok c' →
  0 ≤ command_list_idx c < MU_COMMANDLIST_SIZE →
  ∃ cnt k head r data,
    last (container_stack c) = Some cnt ∧
    containers c !! cnt = Some k ∧
    cnt_head k = Some head ∧
    <[command_list_idx c := tail_jump]> (command_list_items c) !! head = Some r ∧
    ((∃ d, cmd_data r = JumpData d) →
     data = JumpData (Some (command_list_idx c + sizeof_JumpCommand))) ∧
    command_list_idx c' = command_list_idx c + sizeof_JumpCommand ∧
    command_list_idx c' < MU_COMMANDLIST_SIZE ∧
    command_list_items c' =
      <[head := {| cmd_type := cmd_type r; cmd_size := cmd_size r; cmd_data := data |}]>
        (<[command_list_idx c := tail_jump]> (command_list_items c)) ∧
    root_list c' = root_list c ∧
    container_stack c' = removelast (container_stack c) ∧
    (∀ i, cnt_head <$> containers c' !! i = cnt_head <$> containers c !! i) ∧
    (∀ i, cnt_tail <$> containers c' !! i =
          if decide (i = cnt) then Some (Some (command_list_idx c))
          else cnt_tail <$> containers c !! i) ∧
    clip_stack c' = removelast (clip_stack c) ∧
    layout_stack c' = removelast (layout_stack c) ∧
    id_stack c' = removelast (id_stack c) ∧
    mouse_pressed c' = mouse_pressed c.
Proof.
  unfold end_root_container, mu_pop_clip_rect. intros H Hidx.
  apply bind_Ok in H as (cnt & Hcnt & H).
  apply bind_Ok in H as ([tail c1] & Hjump & H).
  apply bind_Ok in H as (c2 & Hupd & H).
  apply bind_Ok in H as (k2 & Hk2 & H).
  apply bind_Ok in H as (head & Hhead & H).
  apply bind_Ok in H as (c3 & Hstore & H).
  apply bind_Ok in H as (c4 & Hpop & H).
  apply mu_get_current_container_Ok in Hcnt.
  apply push_jump_Ok in Hjump as (-> & Hlt & ->); [|done].
  apply update_container_Ok in Hupd as (k & Hk & ->).
  apply deref_Ok in Hk2, Hhead. simpl in Hk, Hk2.
  rewrite list_lookup_insert_eq in Hk2 by (by eapply lookup_lt_Some).
  injection Hk2 as <-. simpl in Hhead.
  apply store_jump_dst_Ok in Hstore as (r & data & Hr & _ & Hdata & ->).
  apply bind_Ok in Hpop as (stk & Hpop & Hc4). injection Hc4 as <-.
  apply pop_Ok in Hpop as ->.
  apply pop_container_Ok in H
    as (Hidx' & Hitems & Hroots & Hstack & Hheads & Htails & Hclip & Hlay & Hid & Hmouse).
  simpl in *.
  exists cnt, k, head, r, data.
  repeat split; try done.
  - intros Hd. apply Hdata. by right.
  - lia.
  - intros i. rewrite Hheads. by apply update_container_heads.
  - intros i. rewrite Htails. destruct (decide (i = cnt)) as [->|Hne].
    + by rewrite list_lookup_insert_eq by (by eapply lookup_lt_Some).
    + by rewrite list_lookup_insert_ne.
Qed.

(** ** Frames: induction and layout *)

Lemma item_ind' (P : item → Prop) :
  (∀ type size data, P (Cmd type size data)) →
  (∀ f, P (Other f)) →
  (∀ cnt body, Forall P body → P (Root cnt body)) →
  (∀ cnt body, Forall P body → P (Panel cnt body)) →
  ∀ i, P i.
Proof.
  intros HCmd HOther HRoot HPanel. fix IH 1. intros [type size data|f|cnt body|cnt body].
  - apply HCmd.
  - apply HOther.
  - apply HRoot.
    exact ((fix go (l : list item) : Forall P l :=
              match l with
              | [] => Forall_nil_2 P
              | i :: l' => Forall_cons_2 P i l' (IH i) (go l')
              end) body).
  - apply HPanel.
    exact ((fix go (l : list item) : Forall P l :=
              match l with
              | [] => Forall_nil_2 P
              | i :: l' => Forall_cons_2 P i l' (IH i) (go l')
              end) body).
Qed.

Lemma frame_ok_cons (i : item) (l : list item) :
  frame_ok (i :: l) ↔ item_ok i ∧ frame_ok l.
Proof. reflexivity. Qed.

Lemma block_nil (p : Z) : layout_post p 0 [] [] [].
Proof.
  unfold layout_post. simpl.
  repeat split; try done; try lia; try (intros; set_solver).
  constructor.
Qed.

Lemma block_app (p s1 s2 : Z) (roots1 roots2 : list root_info) (own1 own2 : list Z)
    (cmds1 cmds2 : list (Z * mu_Command)) :
  layout_post p s1 roots1 own1 cmds1 →
  layout_post (p + s1) s2 roots2 own2 cmds2 →
  layout_post p (s1 + s2) (roots1 ++ roots2) (own1 ++ own2) (cmds1 ++ cmds2).
Proof.
  intros (Hs1 & Hr1 & Hc1 & Hn1 & Hp1 & Hf1) (Hs2 & Hr2 & Hc2 & Hn2 & Hp2 & Hf2).
  unfold layout_post. split; [lia|]. split; [|split; [|split; [|split]]].
  - intros r [Hr|Hr]%elem_of_app.
    + specialize (Hr1 r Hr). lia.
    + specialize (Hr2 r Hr). lia.
  - intros o c [Hc|Hc]%elem_of_app.
    + specialize (Hc1 o c Hc). lia.
    + specialize (Hc2 o c Hc). lia.
  - rewrite fmap_app. apply NoDup_app. split; [done|]. split; [|done].
    intros o [[o1 c1] [-> H1]]%list_elem_of_fmap [[o2 c2] [Heq H2]]%list_elem_of_fmap.
    simpl in Heq. subst o2.
    specialize (Hc1 _ _ H1). specialize (Hc2 _ _ H2). lia.
  - rewrite !fmap_app, concat_app, Hp1, Hp2. solve_Permutation.
  - intros [-> ->]%app_eq_nil. specialize (Hf1 eq_refl). specialize (Hf2 eq_refl).
    destruct roots1 as [|r1 roots1]; simpl.
    + subst s1. destruct roots2; [lia|]. rewrite Hf2. lia.
    + done.
Qed.

Lemma at_offsets_cons {B : Type} (f : Z → item → list B) (p : Z) (i : item)
    (l : list item) :
  at_offsets f p (i :: l) = f p i ++ at_offsets f (p + item_size i) l.
Proof. reflexivity. Qed.

Lemma block_list (l : list item) :
  Forall (λ i, ∀ p, item_ok i →
            layout_post p (item_size i) (roots_item p i) (own_item p i) (cmds_item p i)) l →
  ∀ p, frame_ok l →
       layout_post p (items_size l) (roots_items p l) (own_items p l) (cmds_items p l).
Proof.
  induction 1 as [|i l Hi _ IH]; intros p Hok.
  - apply block_nil.
  - apply frame_ok_cons in Hok as [Hoki Hokl].
    apply block_app; [by apply Hi | by apply IH].
Qed.

Lemma block_item (i : item) (p : Z) :
  item_ok i →
  layout_post p (item_size i) (roots_item p i) (own_item p i) (cmds_item p i).
Proof.
  revert p. induction i as [type size data|f|cnt body IH|cnt body IH] using item_ind';
    intros p Hok.
  - destruct Hok as [Hty Hsz]. unfold layout_post. simpl.
    split; [lia|]. split; [intros r Hr; by apply elem_of_nil in Hr|].
    split; [|split; [|split]].
    + intros o c Hin. apply list_elem_of_singleton in Hin. injection Hin as -> ->.
      simpl. split; [lia | done].
    + apply NoDup_singleton.
    + done.
    + done.
  - unfold layout_post. simpl.
    split; [lia|]. split; [intros r Hr; by apply elem_of_nil in Hr|].
    split; [intros o c Hin; by apply elem_of_nil in Hin|].
    split; [constructor|]. done.
  - pose proof (block_list body IH (p + sizeof_JumpCommand) Hok)
      as (Hs & Hr & Hc & Hn & Hp & Hf).
    pose proof sizeof_JumpCommand_pos as HJ.
    fold (items_size body) in *.
    unfold layout_post. simpl. fold (items_size body).
    fold (roots_items (p + sizeof_JumpCommand) body).
    fold (cmds_items (p + sizeof_JumpCommand) body).
    split; [lia|]. split; [|split; [|split; [|split]]].
    + intros r [->|Hin]%elem_of_cons; simpl; [lia|].
      specialize (Hr r Hin). lia.
    + intros o c Hin. specialize (Hc o c Hin). lia.
    + done.
    + done.
    + done.
  - pose proof (block_list body IH p Hok) as H. exact H.
Qed.

Lemma block_items (l : list item) (p : Z) :
  frame_ok l →
  layout_post p (items_size l) (roots_items p l) (own_items p l) (cmds_items p l).
Proof.
  apply block_list. apply Forall_forall. intros i _ q. apply block_item.
Qed.

(** ** Paths through the command list *)

Lemma jump_path_stable (buf buf' : gmap Z mu_Command) (p q : Z) (vis out : list Z) :
  jump_path buf p q vis out →
  (∀ o, o ∈ vis → buf' !! o = buf !! o) →
  jump_path buf' p q vis out.
Proof.
  induction 1 as [p|p q c vis out Hc Hty _ IH|p q d c vis out Hc Hty Hd _ IH]; intros Hsame.
  - constructor.
  - eapply jump_path_command; [|done|].
    + rewrite Hsame; [done | apply elem_of_cons; by left].
    + apply IH. intros o Ho. apply Hsame. apply elem_of_cons. by right.
  - eapply jump_path_jump; [|done|done|].
    + rewrite Hsame; [done | apply elem_of_cons; by left].
    + apply IH. intros o Ho. apply Hsame. apply elem_of_cons. by right.
Qed.

Lemma jump_path_app (buf : gmap Z mu_Command) (p q r : Z) (vis1 vis2 out1 out2 : list Z) :
  jump_path buf p q vis1 out1 →
  jump_path buf q r vis2 out2 →
  jump_path buf p r (vis1 ++ vis2) (out1 ++ out2).
Proof.
  induction 1 as [p|p q c vis out Hc Hty _ IH|p q d c vis out Hc Hty Hd _ IH]; intros H2.
  - done.
  - simpl. eapply jump_path_command; [done..|]. by apply IH.
  - simpl. eapply jump_path_jump; [done..|]. by apply IH.
Qed.

(** Every record a path visits is a command or a jump with a destination. *)
Lemma jump_path_visited (buf : gmap Z mu_Command) (p q : Z) (vis out : list Z) :
  jump_path buf p q vis out →
  ∀ o, o ∈ vis →
    ∃ c, buf !! o = Some c ∧
         (cmd_type c ≠ MU_COMMAND_JUMP ∨
          (cmd_type c = MU_COMMAND_JUMP ∧ ∃ d, load_jump_dst c = Ok (Some d))).
Proof.
  induction 1 as [p|p q c vis out Hc Hty _ IH|p q d c vis out Hc Hty Hd _ IH]; intros o Ho.
  - by apply elem_of_nil in Ho.
  - apply elem_of_cons in Ho as [->|Ho]; [|by apply IH]. exists c. auto.
  - apply elem_of_cons in Ho as [->|Ho]; [|by apply IH]. exists c. eauto.
Qed.

(** The commands a path hands out are records that are not jumps. *)
Lemma jump_path_out (buf : gmap Z mu_Command) (p q : Z) (vis out : list Z) :
  jump_path buf p q vis out →
  ∀ o, o ∈ out → o ∈ vis ∧ ∃ c, buf !! o = Some c ∧ cmd_type c ≠ MU_COMMAND_JUMP.
Proof.
  induction 1 as [p|p q c vis out Hc Hty _ IH|p q d c vis out Hc Hty Hd _ IH]; intros o Ho.
  - by apply elem_of_nil in Ho.
  - apply elem_of_cons in Ho as [->|Ho].
    + split; [apply elem_of_cons; by left | eauto].
    + destruct (IH o Ho) as [Hv Hrec]. split; [apply elem_of_cons; by right | done].
  - destruct (IH o Ho) as [Hv Hrec]. split; [apply elem_of_cons; by right | done].
Qed.

(** ** What emitting a frame does *)

Lemma root_closed_stable (buf buf' : gmap Z mu_Command) (cs cs' : list mu_Container)
    (r : root_info) :
  root_closed buf cs r →
  root_head r + sizeof_JumpCommand ≤ root_tail r →
  (∀ o, root_head r ≤ o ≤ root_tail r → buf' !! o = buf !! o) →
  cnt_head <$> cs' !! root_cnt r = cnt_head <$> cs !! root_cnt r →
  cnt_tail <$> cs' !! root_cnt r = cnt_tail <$> cs !! root_cnt r →
  root_closed buf' cs' r.
Proof.
  intros (Hh & Ht & Hbh & Hbt & vis & Hpath & Hvis) Hrange Hbuf Hheads Htails.
  pose proof sizeof_JumpCommand_pos.
  unfold root_closed. rewrite Hheads, Htails, !Hbuf by lia.
  repeat split; try done.
  exists vis. split; [|done].
  eapply jump_path_stable; [done|]. intros o Ho. apply Hbuf.
  specialize (Hvis o Ho). lia.
Qed.

Lemma emit_post_nil (c : mu_Context) :
  0 ≤ command_list_idx c < MU_COMMANDLIST_SIZE → emit_post 0 [] [] [] c c.
Proof.
  intros Hidx. unfold emit_post. simpl. rewrite app_nil_r, Z.add_0_r.
  repeat split; try done; try lia.
  exists []. split; [constructor|]. intros o Ho. by apply elem_of_nil in Ho.
Qed.

Lemma emit_post_app (c c1 c' : mu_Context) (s1 s2 : Z) (roots1 roots2 : list root_info)
    (own1 own2 : list Z) (cmds1 cmds2 : list (Z * mu_Command)) :
  layout_post (command_list_idx c) s1 roots1 own1 cmds1 →
  layout_post (command_list_idx c + s1) s2 roots2 own2 cmds2 →
  NoDup (root_cnt <$> (roots1 ++ roots2)) →
  emit_post s1 roots1 own1 cmds1 c c1 →
  emit_post s2 roots2 own2 cmds2 c1 c' →
  emit_post (s1 + s2) (roots1 ++ roots2) (own1 ++ own2) (cmds1 ++ cmds2) c c'.
Proof.
  intros (Hs1 & Hr1 & Hc1 & _) (Hs2 & Hr2 & Hc2 & _) Hnd
    (Hi1 & Hlt1 & Hrl1 & Hst1 & Hbelow1 & Hcs1 & (vis1 & Hp1 & Hv1) & Hcl1 & Hcm1)
    (Hi2 & Hlt2 & Hrl2 & Hst2 & Hbelow2 & Hcs2 & (vis2 & Hp2 & Hv2) & Hcl2 & Hcm2).
  pose proof sizeof_JumpCommand_pos as HJ.
  rewrite fmap_app in Hnd. apply NoDup_app in Hnd as (Hnd1 & Hdisj & Hnd2).
  unfold emit_post. rewrite fmap_app.
  split; [lia|]. split; [done|]. split; [by rewrite Hrl2, Hrl1, app_assoc|].
  split; [congruence|]. split; [|split; [|split; [|split]]].
  - intros o Ho. rewrite Hbelow2 by lia. by apply Hbelow1.
  - intros cnt Hcnt. rewrite not_elem_of_app in Hcnt. destruct Hcnt as [Hn1 Hn2].
    destruct (Hcs1 cnt Hn1) as [E1 E2]. destruct (Hcs2 cnt Hn2) as [E3 E4].
    split; congruence.
  - exists (vis1 ++ vis2). split.
    + eapply jump_path_app; [|exact Hp2].
      eapply jump_path_stable; [done|]. intros o Ho. apply Hbelow2.
      specialize (Hv1 o Ho). lia.
    + intros o [Ho|Ho]%elem_of_app; [specialize (Hv1 o Ho)|specialize (Hv2 o Ho)]; lia.
  - apply Forall_app. split; [|done].
    apply Forall_forall. intros r Hr.
    rewrite Forall_forall in Hcl1. specialize (Hcl1 r Hr). specialize (Hr1 r Hr).
    assert (root_cnt r ∉ root_cnt <$> roots2) as Hnot.
    { apply Hdisj. by apply list_elem_of_fmap_2. }
    destruct (Hcs2 _ Hnot) as [Hh Ht].
    eapply root_closed_stable; [done| lia | | done | done].
    intros o Ho. apply Hbelow2. lia.
  - apply Forall_app. split; [|done].
    apply Forall_forall. intros [o rec] Hin.
    rewrite Forall_forall in Hcm1. specialize (Hcm1 _ Hin). simpl in *.
    rewrite Hbelow2; [done|]. specialize (Hc1 o rec Hin). lia.
Qed.

Lemma emit_item_Root (cnt : nat) (body : list item) (c : mu_Context) :
  emit_item (Root cnt body) c =
    c1 ← begin_root_container c cnt; c2 ← emit body c1; end_root_container c2.
Proof. reflexivity. Qed.

Lemma emit_item_Panel (cnt : nat) (body : list item) (c : mu_Context) :
  emit_item (Panel cnt body) c =
    stk ← push (container_stack c) MU_CONTAINERSTACK_SIZE cnt;
    c2 ← emit body (with_container_stack stk c);
    pop_container c2.
Proof. reflexivity. Qed.

Lemma emit_cons (i : item) (l : list item) (c : mu_Context) :
  emit (i :: l) c = c1 ← emit_item i c; emit l c1.
Proof. reflexivity. Qed.

Lemma emit_list_spec (l : list item) : Forall emit_item_spec l → emit_items_spec l.
Proof.
  induction 1 as [|i l Hi _ IH]; intros c c' Hok Hnd Hidx Hrun.
  - injection Hrun as <-. by apply emit_post_nil.
  - rewrite emit_cons in Hrun. apply bind_Ok in Hrun as (c1 & Hrun1 & Hrun2).
    apply frame_ok_cons in Hok as [Hoki Hokl].
    change (roots_items (command_list_idx c) (i :: l))
      with (roots_item (command_list_idx c) i
            ++ roots_items (command_list_idx c + item_size i) l) in *.
    pose proof Hnd as Hnd'. rewrite fmap_app in Hnd'.
    apply NoDup_app in Hnd' as (Hnd1 & _ & Hnd2).
    pose proof (block_item i (command_list_idx c) Hoki) as Hlay1.
    pose proof (block_items l (command_list_idx c + item_size i) Hokl) as Hlay2.
    pose proof (Hi c c1 Hoki Hnd1 Hidx Hrun1) as Hpost1.
    assert (Hidx1 : command_list_idx c1 = command_list_idx c + item_size i)
      by apply Hpost1.
    assert (Hlt1 : command_list_idx c1 < MU_COMMANDLIST_SIZE) by apply Hpost1.
    assert (Hs1 : 0 ≤ item_size i) by apply Hlay1.
    rewrite <- Hidx1 in Hnd2, Hlay2.
    pose proof (IH c1 c' Hokl Hnd2 ltac:(lia) Hrun2) as Hpost2.
    rewrite Hidx1 in Hpost2, Hlay2.
    exact (emit_post_app c c1 c' _ _ _ _ _ _ _ _ Hlay1 Hlay2 Hnd Hpost1 Hpost2).
Qed.

Lemma emit_cmd_spec (type size : Z) (data : mu_CommandData) :
  emit_item_spec (Cmd type size data).
Proof.
  intros c c' [Hty Hsz] _ Hidx Hrun. simpl in Hrun.
  apply bind_Ok in Hrun as ([p c1] & Hpush & Hset).
  apply mu_push_command_Ok in Hpush as (-> & Hlt & ->).
  rewrite (int_add_small _ _ Hidx Hsz) in *.
  apply set_command_data_Ok in Hset as (r & Hr & ->).
  simpl in Hr. rewrite lookup_insert_eq in Hr. injection Hr as <-.
  unfold emit_post. simpl. rewrite insert_insert_eq, app_nil_r.
  split; [done|]. split; [done|]. split; [done|]. split; [done|].
  split; [|split; [|split; [|split]]].
  - intros o Ho. rewrite lookup_insert_ne by lia. done.
  - done.
  - exists [command_list_idx c]. split.
    + eapply jump_path_command; [apply lookup_insert_eq | done | constructor].
    + intros o ->%list_elem_of_singleton. lia.
  - constructor.
  - constructor; [|constructor]. simpl. apply lookup_insert_eq.
Qed.

Lemma emit_other_spec (f : mu_Context → outcome mu_Context) : emit_item_spec (Other f).
Proof.
  intros c c' Hok _ Hidx Hrun. simpl in *.
  destruct (Hok c c' Hrun) as (Hi & Hit & Hrl & Hst & Hh & Ht).
  unfold emit_post. simpl. rewrite Hi, Hit, Hrl, Hst, app_nil_r, Z.add_0_r.
  repeat split; try done; try lia.
  exists []. split; [constructor|]. intros o Ho. by apply elem_of_nil in Ho.
Qed.

Lemma emit_panel_spec (cnt : nat) (body : list item) :
  emit_items_spec body → emit_item_spec (Panel cnt body).
Proof.
  intros Hbody c c' Hok Hnd Hidx Hrun. rewrite emit_item_Panel in Hrun.
  apply bind_Ok in Hrun as (stk & Hpush & Hrun).
  apply bind_Ok in Hrun as (c2 & Hrun & Hpop).
  apply push_Ok in Hpush as ->.
  pose proof (Hbody (with_container_stack (container_stack c ++ [cnt]) c) c2
                Hok Hnd Hidx Hrun)
    as (Hi & Hlt & Hrl & Hst & Hbelow & Hcs & Hpath & Hcl & Hcm).
  simpl in Hi, Hrl, Hst, Hbelow, Hcs, Hpath, Hcl, Hcm.
  apply pop_container_Ok in Hpop
    as (Hi' & Hit' & Hrl' & Hst' & Hh' & Ht' & _).
  unfold emit_post.
  change (item_size (Panel cnt body)) with (items_size body).
  change (roots_item (command_list_idx c) (Panel cnt body))
    with (roots_items (command_list_idx c) body).
  change (own_item (command_list_idx c) (Panel cnt body))
    with (own_items (command_list_idx c) body).
  change (cmds_item (command_list_idx c) (Panel cnt body))
    with (cmds_items (command_list_idx c) body).
  rewrite Hi', Hit', Hrl', Hst', Hst, removelast_last.
  repeat split; try done.
  - rewrite Hh'. by apply Hcs.
  - rewrite Ht'. by apply Hcs.
  - eapply Forall_impl; [exact Hcl|]. intros r Hr. simpl in Hr.
    destruct Hr as (H1 & H2 & H3 & H4 & H5).
    unfold root_closed. rewrite Hh', Ht'. done.
Qed.

Lemma emit_root_spec (cnt : nat) (body : list item) :
  emit_items_spec body → emit_item_spec (Root cnt body).
Proof.
  intros Hbody c c' Hok Hnd Hidx Hrun. rewrite emit_item_Root in Hrun.
  apply bind_Ok in Hrun as (c1 & Hbegin & Hrun).
  apply bind_Ok in Hrun as (c2 & Hrun & Hend).
  pose proof sizeof_JumpCommand_pos as HJ.
  apply begin_root_container_Ok in Hbegin
    as (k & Hk & Hi1 & Hlt1 & Hit1 & Hrl1 & Hst1 & Hcs1 & _); [|done].
  change (roots_item (command_list_idx c) (Root cnt body))
    with ({| root_cnt := cnt; root_head := command_list_idx c;
             root_tail := command_list_idx c + sizeof_JumpCommand + items_size body;
             root_own := own_items (command_list_idx c + sizeof_JumpCommand) body |}
          :: roots_items (command_list_idx c + sizeof_JumpCommand) body) in *.
  change (own_item (command_list_idx c) (Root cnt body)) with (@nil Z).
  change (cmds_item (command_list_idx c) (Root cnt body))
    with (cmds_items (command_list_idx c + sizeof_JumpCommand) body).
  change (item_size (Root cnt body))
    with (sizeof_JumpCommand + items_size body + sizeof_JumpCommand).
  change (item_ok (Root cnt body)) with (frame_ok body) in Hok.
  rewrite fmap_cons in Hnd. apply NoDup_cons in Hnd as [Hnotin Hnd]. simpl in Hnotin.
  pose proof (block_items body (command_list_idx c + sizeof_JumpCommand) Hok)
    as (Hs & Hr & Hc & _).
  rewrite <- Hi1 in Hnd.
  pose proof (Hbody c1 c2 Hok Hnd ltac:(lia) Hrun)
    as (Hi2 & Hlt2 & Hrl2 & Hst2 & Hbelow2 & Hcs2 & (vis & Hpath2 & Hvis2) & Hcl2 & Hcm2).
  rewrite Hi1 in Hi2, Hbelow2, Hcs2, Hpath2, Hvis2, Hcl2, Hcm2, Hrl2.
  rewrite Hi2 in Hpath2, Hvis2.
  clear Hnd.
  apply end_root_container_Ok in Hend
    as (cnt' & k2 & head & r & data & Hlast & Hk2 & Hhead & Hr' & Hdata & Hi3 & Hlt3 &
        Hit3 & Hrl3 & Hst3 & Hh3 & Ht3 & _); [|lia].
  (* the container that is closed is [cnt] *)
  rewrite Hst2, Hst1, last_snoc in Hlast. injection Hlast as <-.
  (* its head is the jump pushed on entry *)
  assert (Hhead2 : cnt_head <$> containers c2 !! cnt = Some (Some (command_list_idx c))).
  { destruct (Hcs2 cnt Hnotin) as [-> _]. rewrite Hcs1.
    rewrite list_lookup_insert_eq by (by eapply lookup_lt_Some). done. }
  assert (head = command_list_idx c) as ->.
  { rewrite Hk2 in Hhead2. simpl in Hhead2. congruence. }
  assert (Hp1 : command_list_items c2 !! command_list_idx c = Some tail_jump).
  { rewrite Hbelow2 by lia. rewrite Hit1. apply lookup_insert_eq. }
  rewrite lookup_insert_ne in Hr' by lia. rewrite Hp1 in Hr'. injection Hr' as <-.
  rewrite (Hdata ltac:(by eexists)) in Hit3. simpl in Hit3. clear Hdata.
  rewrite Hi2 in Hit3, Hi3, Ht3.
  unfold emit_post.
  split; [lia|]. split; [done|].
  split; [by rewrite Hrl3, Hrl2, Hrl1, <- app_assoc|].
  split; [by rewrite Hst3, Hst2, Hst1, removelast_last|].
  split; [|split; [|split; [|split]]].
  - intros o Ho. rewrite Hit3, !lookup_insert_ne by lia.
    rewrite Hbelow2 by lia. rewrite Hit1, lookup_insert_ne by lia. done.
  - intros cnt0 Hcnt0. rewrite fmap_cons, not_elem_of_cons in Hcnt0.
    destruct Hcnt0 as [Hne Hcnt0]. simpl in Hne.
    rewrite Hh3, Ht3. destruct (decide (cnt0 = cnt)) as [->|_]; [done|].
    destruct (Hcs2 cnt0 Hcnt0) as [-> ->]. rewrite Hcs1.
    rewrite list_lookup_insert_ne by done. done.
  - exists [command_list_idx c]. split.
    + eapply jump_path_jump.
      * rewrite Hit3. apply lookup_insert_eq.
      * done.
      * reflexivity.
      * rewrite Hi3.
        replace (command_list_idx c + sizeof_JumpCommand + items_size body
                 + sizeof_JumpCommand)
          with (command_list_idx c
                + (sizeof_JumpCommand + items_size body + sizeof_JumpCommand)) by lia.
        constructor.
    + intros o ->%list_elem_of_singleton. lia.
  - constructor.
    + unfold root_closed. simpl. rewrite Hh3, Ht3, Hhead2.
      rewrite decide_True by done. rewrite Hit3.
      rewrite lookup_insert_eq. rewrite lookup_insert_ne by lia.
      rewrite lookup_insert_eq.
      split; [done|]. split; [done|]. split; [done|]. split; [done|].
      exists vis. split; [|done].
      eapply jump_path_stable; [exact Hpath2|].
      intros o Ho. specialize (Hvis2 o Ho). rewrite !lookup_insert_ne by lia. done.
    + apply Forall_forall. intros r0 Hr0.
      rewrite Forall_forall in Hcl2. specialize (Hcl2 r0 Hr0). specialize (Hr r0 Hr0).
      assert (root_cnt r0 ≠ cnt) as Hne.
      { intros <-. apply Hnotin. by apply list_elem_of_fmap_2. }
      eapply root_closed_stable; [exact Hcl2 | lia | | |].
      * intros o Ho. rewrite Hit3, !lookup_insert_ne by lia. done.
      * by rewrite Hh3.
      * rewrite Ht3. by rewrite decide_False by done.
  - apply Forall_forall. intros [o rec] Hin.
    rewrite Forall_forall in Hcm2. specialize (Hcm2 _ Hin). specialize (Hc o rec Hin).
    simpl in *. rewrite Hit3, !lookup_insert_ne by lia. done.
Qed.

Lemma emit_item_ok (i : item) : emit_item_spec i.
Proof.
  induction i as [type size data|f|cnt body IH|cnt body IH] using item_ind'.
  - apply emit_cmd_spec.
  - apply emit_other_spec.
  - apply emit_root_spec. by apply emit_list_spec.
  - apply emit_panel_spec. by apply emit_list_spec.
Qed.

Lemma emit_ok (l : list item) : emit_items_spec l.
Proof. apply emit_list_spec. apply Forall_forall. intros i _. apply emit_item_ok. Qed.

(** ** Frame end *)

Lemma set_root_jumps_frame (prev : option nat) (roots : list nat) (c c' : mu_Context) :
  set_root_jumps prev roots c = Ok c' →
  c' = with_command_list_items (command_list_items c') c.
Proof.
  revert prev c. induction roots as [|cnt roots IH]; intros prev c H.
  - injection H as <-. by destruct c.
  - simpl in H.
    apply bind_Ok in H as (k & _ & H).
    apply bind_Ok in H as (head & _ & H).
    apply bind_Ok in H as (c1 & H1 & H).
    apply bind_Ok in H as (c2 & H2 & H).
    assert (E1 : ∃ m, c1 = with_command_list_items m c).
    { destruct prev.
      - apply bind_Ok in H1 as (pc & _ & H1). apply bind_Ok in H1 as (tail & _ & H1).
        apply store_jump_dst_Ok in H1 as (r & data & _ & _ & _ & ->). eauto.
      - apply store_jump_dst_Ok in H1 as (r & data & _ & _ & _ & ->). eauto. }
    destruct E1 as [m1 ->].
    assert (E2 : ∃ m, c2 = with_command_list_items m c).
    { destruct roots.
      - apply bind_Ok in H2 as (tail & _ & H2).
        apply store_jump_dst_Ok in H2 as (r & data & _ & _ & _ & ->). eauto.
      - injection H2 as <-. eauto. }
    destruct E2 as [m2 ->].
    apply IH in H. rewrite H. reflexivity.
Qed.

Section FrameEndFacts.

Variable qsort : (nat → nat → Z) → list nat → list nat.

(** [mu_end] up to its last loop: the context [cm] the loop starts from. *)
Lemma mu_end_Ok (c c' : mu_Context) :
  mu_end qsort c = Ok c' →
  container_stack c = [] ∧ clip_stack c = [] ∧ id_stack c = [] ∧ layout_stack c = [] ∧
  ∃ cm,
    set_root_jumps None (root_list cm) cm = Ok c' ∧
    root_list cm = qsort (compare_zindex cm) (root_list c) ∧
    command_list_idx cm = command_list_idx c ∧
    command_list_items cm = command_list_items c ∧
    container_stack cm = container_stack c ∧
    clip_stack cm = clip_stack c ∧
    id_stack cm = id_stack c ∧
    layout_stack cm = layout_stack c ∧
    updated_focus cm = 0 ∧
    mouse_pressed cm = 0 ∧
    key_pressed cm = 0 ∧
    input_text cm = [] ∧
    scroll_delta cm = mu_vec2 0 0 ∧
    last_mouse_pos cm = mouse_pos c ∧
    mouse_pos cm = mouse_pos c ∧
    mouse_down cm = mouse_down c ∧
    (focus cm = if updated_focus c =? 0 then 0 else focus c) ∧
    (∀ i, cnt_head <$> containers cm !! i = cnt_head <$> containers c !! i) ∧
    (∀ i, cnt_tail <$> containers cm !! i = cnt_tail <$> containers c !! i).
Proof.
  unfold mu_end. intros H.
  apply bind_Ok in H as (u1 & H1 & H). apply expect_Ok, Z.eqb_eq in H1.
  apply bind_Ok in H as (u2 & H2 & H). apply expect_Ok, Z.eqb_eq in H2.
  apply bind_Ok in H as (u3 & H3 & H). apply expect_Ok, Z.eqb_eq in H3.
  apply bind_Ok in H as (u4 & H4 & H). apply expect_Ok, Z.eqb_eq in H4.
  split; [destruct (container_stack c); [done | simpl in H1; lia]|].
  split; [destruct (clip_stack c); [done | simpl in H2; lia]|].
  split; [destruct (id_stack c); [done | simpl in H3; lia]|].
  split; [destruct (layout_stack c); [done | simpl in H4; lia]|].
  clear H1 H2 H3 H4.
  apply bind_Ok in H as (c1 & Hscroll & H).
  assert (E1 : ∃ cs, c1 = with_containers cs c ∧
            (∀ i, cnt_head <$> cs !! i = cnt_head <$> containers c !! i) ∧
            (∀ i, cnt_tail <$> cs !! i = cnt_tail <$> containers c !! i)).
  { destruct (scroll_target c).
    - apply update_container_Ok in Hscroll as (k & Hk & ->).
      eexists. split; [reflexivity|].
      split; [by apply update_container_heads | by apply update_container_tails].
    - injection Hscroll as <-. exists (containers c). by destruct c. }
  destruct E1 as (cs1 & -> & Hh1 & Ht1). clear Hscroll.
  cbv zeta in H.
  apply bind_Ok in H as (c2 & Hfront & H).
  match type of Hfront with
  | context [negb (mouse_pressed ?x =? 0)] => set (c0 := x) in *
  end.
  assert (E2 : ∃ cs z, c2 = with_containers cs (with_last_zindex z c0) ∧
            (∀ i, cnt_head <$> cs !! i = cnt_head <$> containers c0 !! i) ∧
            (∀ i, cnt_tail <$> cs !! i = cnt_tail <$> containers c0 !! i)).
  { assert (Hid : ∃ cs z, c0 = with_containers cs (with_last_zindex z c0) ∧
              (∀ i, cnt_head <$> cs !! i = cnt_head <$> containers c0 !! i) ∧
              (∀ i, cnt_tail <$> cs !! i = cnt_tail <$> containers c0 !! i)).
    { exists (containers c0), (last_zindex c0). split; [|done].
      subst c0. destruct c. simpl. by destruct (updated_focus0 =? 0). }
    destruct (negb (mouse_pressed c0 =? 0)); [|by injection Hfront as <-].
    destruct (next_hover_root c0); [|by injection Hfront as <-].
    apply bind_Ok in Hfront as (hc & _ & Hfront).
    destruct (_ && _); [|by injection Hfront as <-].
    unfold mu_bring_to_front in Hfront.
    apply update_container_Ok in Hfront as (k & Hk & ->).
    eexists _, _. split; [reflexivity|]. simpl in Hk. simpl.
    split; [by apply update_container_heads | by apply update_container_tails]. }
  destruct E2 as (cs2 & z & -> & Hh2 & Ht2). clear Hfront.
  eexists. split; [exact H|].
  subst c0. simpl in *.
  repeat split; try done; try (by destruct (updated_focus c =? 0)).
  - intros i. rewrite Hh2. destruct (updated_focus c =? 0); simpl; apply Hh1.
  - intros i. rewrite Ht2. destruct (updated_focus c =? 0); simpl; apply Ht1.
Qed.

End FrameEndFacts.

(** ** C2: the stacks after [mu_end] *)

Section FrameEndClaims.

Variable qsort : (nat → nat → Z) → list nat → list nat.

(** C2, as the code has it. After [mu_end] returns, the container, clip, id and layout
    stacks are empty and [updated_focus] is 0; the command list keeps its length and the
    root list holds the frame's root containers, sorted: they are what the client
    iterates next, and it is [mu_begin] that empties them. *)
Theorem end_empties_stacks (c c' : mu_Context) :
  mu_end qsort c = Ok c' →
  container_stack c' = [] ∧ clip_stack c' = [] ∧ id_stack c' = [] ∧
  layout_stack c' = [] ∧
  updated_focus c' = 0 ∧
  command_list_idx c' = command_list_idx c ∧
  root_list c' = qsort (compare_zindex c') (root_list c) ∧
  ∀ c'', mu_begin c' = Ok c'' → command_list_idx c'' = 0 ∧ root_list c'' = [].
Proof.
  intros H.
  destruct (mu_end_Ok qsort c c' H)
    as (E1 & E2 & E3 & E4 & cm & Hloop & Hroots & Hidx & _ & F1 & F2 & F3 & F4 & Hupd & _).
  apply set_root_jumps_frame in Hloop. rewrite Hloop. simpl.
  rewrite F1, F2, F3, F4, E1, E2, E3, E4, Hupd, Hidx.
  do 7 (split; [done|]).
  intros c'' Hb. unfold mu_begin in Hb. apply bind_Ok in Hb as (u & _ & Hb).
  by injection Hb as <-.
Qed.

End FrameEndClaims.

Lemma end_empties_stacks_witness :
  ∃ c c',
    build_frame two_windows two_windows_context = Ok c ∧
    container_stack c' = [] ∧ clip_stack c' = [] ∧ id_stack c' = [] ∧
    layout_stack c' = [] ∧
    updated_focus c' = 0 ∧
    command_list_idx c' = command_list_idx c ∧
    root_list c' = insertion_sort (compare_zindex c') (root_list c) ∧
    ∀ c'', mu_begin c' = Ok c'' → command_list_idx c'' = 0 ∧ root_list c'' = [].
Proof.
  assert (Hrun : ∃ c c', build_frame two_windows two_windows_context = Ok c ∧
                         mu_end insertion_sort c = Ok c')
    by (eexists _, _; split; [vm_compute; reflexivity | vm_compute; reflexivity]).
  destruct Hrun as (c & c' & Hc & Hend).
  exists c, c'. split; [exact Hc|].
  exact (end_empties_stacks insertion_sort c c' Hend).
Defined.

(** C2, as the claim has it, fails: after the frame of two windows [mu_end] returns with
    152 bytes of commands in the command list and both windows in the root list. *)
Lemma end_keeps_command_list :
  ∃ c',
    run_frame insertion_sort two_windows two_windows_context = Ok c' ∧
    command_list_idx c' = 152 ∧ root_list c' = [1; 0]%nat ∧
    command_list_idx c' ≠ 0 ∧ length (root_list c') ≠ 0%nat.
Proof.
  eexists. split; [vm_compute; reflexivity|]. simpl. repeat split; done.
Qed.

(** ** C10: a press outlives the release *)

Lemma push_jump_mouse_pressed (c c' : mu_Context) (dst : option Z) (p : Z) :
  push_jump c dst = Ok (p, c') → mouse_pressed c' = mouse_pressed c.
Proof.
  unfold push_jump. intros H.
  apply bind_Ok in H as ([p1 c1] & Hpush & H).
  apply bind_Ok in H as (c2 & Hstore & H). injection H as <- <-.
  apply mu_push_command_Ok in Hpush as (-> & _ & ->).
  by apply store_jump_dst_Ok in Hstore as (r & data & _ & _ & _ & ->).
Qed.

Lemma begin_root_container_mouse_pressed (c c' : mu_Context) (cnt : nat) :
  begin_root_container c cnt = Ok c' → mouse_pressed c' = mouse_pressed c.
Proof.
  unfold begin_root_container. intros H.
  apply bind_Ok in H as (stk1 & _ & H).
  apply bind_Ok in H as (stk2 & _ & H).
  apply bind_Ok in H as ([head c1] & Hjump & H).
  apply bind_Ok in H as (c2 & Hupd & H).
  apply bind_Ok in H as (k2 & _ & H).
  apply bind_Ok in H as (over & _ & H).
  apply bind_Ok in H as (stk3 & _ & H).
  injection H as <-.
  apply push_jump_mouse_pressed in Hjump.
  apply update_container_Ok in Hupd as (k & Hk & ->).
  destruct over; simpl in *; done.
Qed.

Lemma end_root_container_mouse_pressed (c c' : mu_Context) :
  end_root_container c = Ok c' → mouse_pressed c' = mouse_pressed c.
Proof.
  unfold end_root_container, mu_pop_clip_rect. intros H.
  apply bind_Ok in H as (cnt & _ & H).
  apply bind_Ok in H as ([tail c1] & Hjump & H).
  apply bind_Ok in H as (c2 & Hupd & H).
  apply bind_Ok in H as (k2 & _ & H).
  apply bind_Ok in H as (head & _ & H).
  apply bind_Ok in H as (c3 & Hstore & H).
  apply bind_Ok in H as (c4 & Hpop & H).
  apply push_jump_mouse_pressed in Hjump.
  apply update_container_Ok in Hupd as (k & Hk & ->).
  apply store_jump_dst_Ok in Hstore as (r & data & _ & _ & _ & ->).
  apply bind_Ok in Hpop as (stk & _ & Hc4). injection Hc4 as <-.
  apply pop_container_Ok in H as (_ & _ & _ & _ & _ & _ & _ & _ & _ & ->).
  done.
Qed.

Lemma all_others_cons (P : (mu_Context → outcome mu_Context) → Prop) (i : item)
    (l : list item) :
  foldr (λ i rest, all_others P i ∧ rest) True (i :: l)
  ↔ all_others P i ∧ foldr (λ i rest, all_others P i ∧ rest) True l.
Proof. reflexivity. Qed.

Lemma emit_list_mouse_pressed (l : list item) :
  Forall (λ i, all_others keeps_mouse_pressed i →
               ∀ c c', emit_item i c = Ok c' → mouse_pressed c' = mouse_pressed c) l →
  foldr (λ i rest, all_others keeps_mouse_pressed i ∧ rest) True l →
  ∀ c c', emit l c = Ok c' → mouse_pressed c' = mouse_pressed c.
Proof.
  induction 1 as [|i l Hi _ IH]; intros Hok c c' Hrun.
  - by injection Hrun as <-.
  - rewrite emit_cons in Hrun. apply bind_Ok in Hrun as (c1 & H1 & H2).
    apply all_others_cons in Hok as [Hoki Hokl].
    rewrite (IH Hokl _ _ H2). by apply Hi.
Qed.

Lemma emit_item_mouse_pressed (i : item) :
  all_others keeps_mouse_pressed i →
  ∀ c c', emit_item i c = Ok c' → mouse_pressed c' = mouse_pressed c.
Proof.
  induction i as [type size data|f|cnt body IH|cnt body IH] using item_ind';
    intros Hok c c' Hrun.
  - simpl in Hrun. apply bind_Ok in Hrun as ([p c1] & Hpush & Hset).
    apply mu_push_command_Ok in Hpush as (-> & _ & ->).
    by apply set_command_data_Ok in Hset as (r & _ & ->).
  - by apply Hok.
  - rewrite emit_item_Root in Hrun.
    apply bind_Ok in Hrun as (c1 & Hbegin & Hrun).
    apply bind_Ok in Hrun as (c2 & Hrun & Hend).
    rewrite (end_root_container_mouse_pressed _ _ Hend).
    rewrite (emit_list_mouse_pressed body IH Hok _ _ Hrun).
    by apply begin_root_container_mouse_pressed in Hbegin.
  - rewrite emit_item_Panel in Hrun.
    apply bind_Ok in Hrun as (stk & _ & Hrun).
    apply bind_Ok in Hrun as (c2 & Hrun & Hpop).
    apply pop_container_Ok in Hpop as (_ & _ & _ & _ & _ & _ & _ & _ & _ & ->).
    by rewrite (emit_list_mouse_pressed body IH Hok _ _ Hrun).
Qed.

Lemma emit_mouse_pressed (l : list item) (c c' : mu_Context) :
  Forall (all_others keeps_mouse_pressed) l →
  emit l c = Ok c' → mouse_pressed c' = mouse_pressed c.
Proof.
  intros Hok. apply emit_list_mouse_pressed.
  - apply Forall_forall. intros i _. apply emit_item_mouse_pressed.
  - induction Hok; simpl; auto.
Qed.

Lemma set_layout_frame (layout : mu_Layout) (c c' : mu_Context) :
  set_layout layout c = Ok c' → ∃ stk, c' = with_layout_stack stk c.
Proof.
  unfold set_layout. destruct (layout_stack c); [discriminate|].
  intros H. injection H as <-. eauto.
Qed.

Lemma mu_layout_row_frame (c c' : mu_Context) (items : Z) (widths : option (list Z))
    (height : Z) :
  mu_layout_row c items widths height = Ok c' → ∃ stk, c' = with_layout_stack stk c.
Proof.
  unfold mu_layout_row. intros H.
  apply bind_Ok in H as (lay & _ & H). apply bind_Ok in H as (ws & _ & H).
  by apply set_layout_frame in H.
Qed.

(** [mu_layout_next] touches the layout stack and [last_rect], nothing else. *)
Lemma mu_layout_next_frame (c c' : mu_Context) (r : mu_Rectangle) :
  mu_layout_next c = Ok (r, c') →
  ∃ stk, c' = with_last_rect r (with_layout_stack stk c).
Proof.
  unfold mu_layout_next. intros H. apply bind_Ok in H as (lay & _ & H).
  destruct (negb (layout_next_type lay =? 0)).
  - destruct (_ =? ABSOLUTE).
    + apply bind_Ok in H as (c1 & H1 & H). injection H as <- <-.
      apply set_layout_frame in H1 as [stk ->]. eauto.
    + destruct (layout_place _ _ _) as [res lay'].
      apply bind_Ok in H as (c1 & H1 & H). injection H as <- <-.
      apply set_layout_frame in H1 as [stk ->]. eauto.
  - apply bind_Ok in H as (c1 & H1 & H).
    assert (E : ∃ stk, c1 = with_layout_stack stk c).
    { destruct (_ =? _).
      - by apply mu_layout_row_frame in H1.
      - injection H1 as <-. exists (layout_stack c). by destruct c. }
    destruct E as [stk1 ->].
    apply bind_Ok in H as (lay1 & _ & H).
    apply bind_Ok in H as ([w h] & _ & H).
    destruct (layout_place _ _ _) as [res lay'].
    apply bind_Ok in H as (c2 & H2 & H). injection H as <- <-.
    apply set_layout_frame in H2 as [stk ->]. eauto.
Qed.

(** The calls a widget makes keep [mouse_pressed]: the interaction state machine, the
    identifiers, the clip stack and the layout. *)
Lemma widget_steps_keep_mouse_pressed :
  (∀ id r opt, keeps_mouse_pressed (λ c, mu_update_control c id r opt)) ∧
  (∀ data, keeps_mouse_pressed (λ c, mu_push_id c data)) ∧
  keeps_mouse_pressed mu_pop_id ∧
  (∀ r, keeps_mouse_pressed (λ c, mu_push_clip_rect c r)) ∧
  keeps_mouse_pressed mu_pop_clip_rect ∧
  (∀ body scroll, keeps_mouse_pressed (λ c, push_layout c body scroll)) ∧
  (∀ c c' r, mu_layout_next c = Ok (r, c') → mouse_pressed c' = mouse_pressed c).
Proof.
  unfold keeps_mouse_pressed.
  split; [|split; [|split; [|split; [|split; [|split]]]]].
  - intros id r opt c c' H.
    by apply mu_update_control_frame in H as (h & f & u & ->).
  - intros data c c' H. unfold mu_push_id, mu_get_id in H.
    apply bind_Ok in H as (u & _ & H). by injection H as <-.
  - intros c c' H. unfold mu_pop_id in H.
    apply bind_Ok in H as (stk & _ & H). by injection H as <-.
  - intros r c c' H. unfold mu_push_clip_rect in H.
    apply bind_Ok in H as (cl & _ & H). apply bind_Ok in H as (stk & _ & H).
    by injection H as <-.
  - intros c c' H. unfold mu_pop_clip_rect in H.
    apply bind_Ok in H as (stk & _ & H). by injection H as <-.
  - intros body scroll c c' H. unfold push_layout in H.
    apply bind_Ok in H as (stk & _ & H).
    by apply mu_layout_row_frame in H as [stk' ->].
  - intros c c' r H. by apply mu_layout_next_frame in H as [stk ->].
Qed.

Lemma mu_begin_mouse (c c' : mu_Context) :
  mu_begin c = Ok c' →
  mouse_pressed c' = mouse_pressed c ∧ mouse_down c' = mouse_down c.
Proof.
  unfold mu_begin. intros H. apply bind_Ok in H as (u & _ & H).
  by injection H as <-.
Qed.

Section MouseUp.

Variable qsort : (nat → nat → Z) → list nat → list nat.

(** C10. [mu_input_mouseup] stores the position and clears the bits of [btn] in
    [mouse_down]; it changes nothing else, [mouse_pressed] included.  So after a
    [mu_input_mousedown] and a [mu_input_mouseup] of the same button between two frames,
    the bits of [btn] are still set in [mouse_pressed] when the next frame begins, though
    the button is up; they stay set through the frame, and [mu_end] clears them. *)
Theorem mouseup_keeps_press (context : mu_Context) (x y btn : Z) :
  mu_input_mouseup context x y btn =
    with_mouse_down (Z.land (mouse_down context) (Z.lnot btn))
      (with_mouse_pos (mu_vec2 x y) context) ∧
  mouse_pressed (mu_input_mouseup context x y btn) = mouse_pressed context ∧
  (∀ i, 0 ≤ i →
     Z.testbit (mouse_down (mu_input_mouseup context x y btn)) i =
     Z.testbit (mouse_down context) i && negb (Z.testbit btn i)) ∧
  ∀ x' y' frame c1 c2,
    mu_begin (mu_input_mouseup (mu_input_mousedown context x y btn) x' y' btn) = Ok c1 →
    Forall (all_others keeps_mouse_pressed) frame →
    emit frame c1 = Ok c2 →
    Z.land (mouse_pressed c1) btn = btn ∧
    Z.land (mouse_down c1) btn = 0 ∧
    mouse_pressed c2 = mouse_pressed c1 ∧
    ∀ c3, mu_end qsort c2 = Ok c3 → mouse_pressed c3 = 0.
Proof.
  split; [reflexivity|]. split; [reflexivity|]. split.
  - intros i Hi. simpl. rewrite Z.land_spec, Z.lnot_spec by done. done.
  - intros x' y' frame c1 c2 Hbegin Hframe Hemit.
    pose proof (emit_mouse_pressed _ _ _ Hframe Hemit) as Hsame.
    apply mu_begin_mouse in Hbegin as [Hp Hd].
    change (mouse_pressed (mu_input_mouseup _ _ _ _))
      with (Z.lor (mouse_pressed context) btn) in Hp.
    change (mouse_down (mu_input_mouseup _ _ _ _))
      with (Z.land (Z.lor (mouse_down context) btn) (Z.lnot btn)) in Hd.
    rewrite Hp, Hd.
    split; [|split; [|split]].
    + apply Z.bits_inj'. intros i Hi.
      rewrite Z.land_spec, Z.lor_spec.
      destruct (Z.testbit btn i); simpl; [|apply andb_false_r].
      by rewrite orb_true_r.
    + apply Z.bits_inj'. intros i Hi.
      rewrite !Z.land_spec, Z.lnot_spec, Z.bits_0 by done.
      by destruct (Z.testbit btn i), (Z.testbit _ i).
    + by rewrite <- Hp.
    + intros c3 Hend.
      destruct (mu_end_Ok qsort c2 c3 Hend)
        as (_ & _ & _ & _ & cm & Hloop & _ & _ & _ & _ & _ & _ & _ & _ & Hmp & _).
      apply set_root_jumps_frame in Hloop. rewrite Hloop. simpl. exact Hmp.
Qed.

End MouseUp.

Lemma mouseup_keeps_press_witness :
  ∃ c1 c2,
    build_frame two_windows
      (mu_input_mouseup (mu_input_mousedown two_windows_context 10 10 MU_MOUSE_LEFT)
         10 10 MU_MOUSE_LEFT) = Ok c2 ∧
    Z.land (mouse_pressed c1) MU_MOUSE_LEFT = MU_MOUSE_LEFT ∧
    Z.land (mouse_down c1) MU_MOUSE_LEFT = 0 ∧
    mouse_pressed c2 = mouse_pressed c1 ∧
    ∀ c3, mu_end insertion_sort c2 = Ok c3 → mouse_pressed c3 = 0.
Proof.
  assert (Hrun : ∃ c1 c2,
    mu_begin (mu_input_mouseup (mu_input_mousedown two_windows_context 10 10 MU_MOUSE_LEFT)
                10 10 MU_MOUSE_LEFT) = Ok c1 ∧
    emit two_windows c1 = Ok c2).
  { eexists _, _. split; [vm_compute; reflexivity | vm_compute; reflexivity]. }
  destruct Hrun as (c1 & c2 & Hbegin & Hemit).
  exists c1, c2. split.
  - unfold build_frame. rewrite Hbegin. exact Hemit.
  - refine (proj2 (proj2 (proj2
      (mouseup_keeps_press insertion_sort two_windows_context 10 10 MU_MOUSE_LEFT)))
      10 10 two_windows c1 c2 Hbegin _ Hemit).
    destruct widget_steps_keep_mouse_pressed as (_ & Hid & _ & _ & _ & Hlay & _).
    repeat constructor; simpl; auto.
Defined.

(** ** C1: the order in which the commands are handed out *)

(** Following a path that ends at the end of the command list is what the client's loop
    does, given fuel for every record on the way. *)
Lemma mu_commands_from_path (c : mu_Context) (p : Z) (vis out : list Z) :
  jump_path (command_list_items c) p (command_list_idx c) vis out →
  (∀ o, o ∈ vis → o ≠ command_list_idx c) →
  ∀ rounds fuel1 fuel,
    (length vis < fuel1)%nat → (length vis < fuel)%nat → (length out ≤ rounds)%nat →
    mu_commands_from rounds fuel1 fuel c p = Ok out.
Proof.
  intros Hpath. remember (command_list_idx c) as q eqn:Hq.
  induction Hpath as [p|p q r vis out Hr Hty Hpath IH|p q d r vis out Hr Hty Hd Hpath IH];
    intros Hne rounds fuel1 fuel Hf1 Hf Hrounds.
  - destruct fuel1 as [|fuel1]; [simpl in Hf1; lia|].
    unfold mu_commands_from. simpl. rewrite bool_decide_true by by subst. done.
  - assert (Hp : p ≠ q) by (apply Hne, elem_of_cons; by left).
    destruct fuel1 as [|fuel1]; [simpl in Hf1; lia|].
    destruct rounds as [|rounds]; [simpl in Hrounds; lia|].
    unfold mu_commands_from. simpl.
    rewrite bool_decide_false by (intros [= E]; subst; done).
    simpl. rewrite Hr. simpl.
    destruct (Z.eqb_spec (cmd_type r) MU_COMMAND_JUMP) as [E|_]; [done|]. simpl.
    unfold mu_next_command. rewrite Hr. simpl.
    specialize (IH Hq).
    unfold mu_commands_from in IH.
    rewrite (IH (λ o Ho, Hne o (proj2 (elem_of_cons _ _ _) (or_intror Ho)))
               rounds fuel fuel); simpl in *; try lia. done.
  - assert (Hp : p ≠ q) by (apply Hne, elem_of_cons; by left).
    destruct fuel1 as [|fuel1]; [simpl in Hf1; lia|].
    unfold mu_commands_from. simpl.
    rewrite bool_decide_false by (intros [= E]; subst; done).
    simpl. rewrite Hr. simpl.
    destruct (Z.eqb_spec (cmd_type r) MU_COMMAND_JUMP) as [_|E]; [|done]. simpl.
    rewrite Hd. simpl.
    specialize (IH Hq).
    unfold mu_commands_from in IH.
    apply IH; simpl in *; try lia.
    intros o Ho. apply Hne, elem_of_cons. by right.
Qed.

Lemma mu_commands_path (c : mu_Context) (vis out : list Z) :
  jump_path (command_list_items c) 0 (command_list_idx c) vis out →
  (∀ o, o ∈ vis → o ≠ command_list_idx c) →
  ∀ rounds fuel,
    (length vis < fuel)%nat → (length out < rounds)%nat →
    mu_commands rounds fuel c None = Ok out.
Proof.
  intros Hpath Hne rounds fuel Hf Hrounds.
  destruct rounds as [|rounds]; [lia|].
  pose proof (mu_commands_from_path c 0 vis out Hpath Hne rounds fuel fuel) as H.
  unfold mu_commands_from in H. simpl. apply H; lia.
Qed.

(** The tail jumps of the root containers of a frame are at different offsets. *)
Lemma tails_list (l : list item) :
  Forall (λ i, ∀ p, item_ok i → NoDup (root_tail <$> roots_item p i)) l →
  ∀ p, frame_ok l → NoDup (root_tail <$> roots_items p l).
Proof.
  induction 1 as [|i l Hi _ IH]; intros p Hok.
  - constructor.
  - apply frame_ok_cons in Hok as [Hoki Hokl].
    change (roots_items p (i :: l))
      with (roots_item p i ++ roots_items (p + item_size i) l).
    rewrite fmap_app. apply NoDup_app. split; [by apply Hi|]. split; [|by apply IH].
    intros o [r1 [-> H1]]%list_elem_of_fmap [r2 [Heq H2]]%list_elem_of_fmap.
    destruct (block_item i p Hoki) as (_ & Hr1 & _).
    destruct (block_items l (p + item_size i) Hokl) as (_ & Hr2 & _).
    specialize (Hr1 _ H1). specialize (Hr2 _ H2).
    pose proof sizeof_JumpCommand_pos. lia.
Qed.

Lemma tails_item (i : item) (p : Z) :
  item_ok i → NoDup (root_tail <$> roots_item p i).
Proof.
  revert p. induction i as [type size data|f|cnt body IH|cnt body IH] using item_ind';
    intros p Hok.
  - constructor.
  - constructor.
  - simpl. fold (roots_items (p + sizeof_JumpCommand) body). fold (items_size body).
    apply NoDup_cons. split.
    + intros [r [Heq Hin]]%list_elem_of_fmap. simpl in Heq.
      destruct (block_items body (p + sizeof_JumpCommand) Hok) as (_ & Hr & _).
      specialize (Hr _ Hin). pose proof sizeof_JumpCommand_pos. lia.
    + by apply tails_list.
  - simpl. fold (roots_items p body). by apply tails_list.
Qed.

Lemma tails_items (l : list item) (p : Z) :
  frame_ok l → NoDup (root_tail <$> roots_items p l).
Proof.
  intros Hok. apply tails_list; [|done].
  apply Forall_forall. intros i _ q. apply tails_item.
Qed.

(** ** The last loop of [mu_end] *)

Lemma store_jump_dst_record (c c' : mu_Context) (p : Z) (dst : option Z) :
  store_jump_dst p dst c = Ok c' →
  ∃ r r', command_list_items c !! p = Some r ∧
          cmd_type r' = cmd_type r ∧ load_jump_dst r' = Ok dst ∧
          c' = with_command_list_items (<[p := r']> (command_list_items c)) c.
Proof.
  intros H. apply store_jump_dst_Ok in H as (r & data & Hr & Hdata & _ & ->).
  eexists r, _. split; [done|]. split; [|split; [|reflexivity]]; [done|].
  by destruct Hdata as [-> | ->].
Qed.

Lemma set_root_jumps_cons (prev : option nat) (cnt : nat) (roots : list nat)
    (context : mu_Context) :
  set_root_jumps prev (cnt :: roots) context =
    c ← deref (containers context !! cnt);
    head ← deref (cnt_head c);
    context ←
      match prev with
      | None => store_jump_dst 0 (Some (head + sizeof_JumpCommand)) context
      | Some prev =>
          pc ← deref (containers context !! prev);
          tail ← deref (cnt_tail pc);
          store_jump_dst tail (Some (head + sizeof_JumpCommand)) context
      end;
    context ←
      match roots with
      | [] =>
          tail ← deref (cnt_tail c);
          store_jump_dst tail (Some (command_list_idx context)) context
      | _ => Ok context
      end;
    set_root_jumps (Some cnt) roots context.
Proof. reflexivity. Qed.

(** A store to a record of [W] leaves a root container ready. *)
Lemma chain_ready_store (W : list Z) (c : mu_Context) (r : root_info) (w : Z)
    (k k' : mu_Command) :
  chain_ready W c r →
  w ∈ W →
  command_list_items c !! w = Some k →
  cmd_type k' = cmd_type k →
  chain_ready W (with_command_list_items (<[w := k']> (command_list_items c)) c) r.
Proof.
  intros (Hh & Ht & HtW & Htlt & (kt & Hkt & Hty) & vis & Hpath & Hvis) Hw Hk Hk'.
  unfold chain_ready. simpl.
  split; [done|]. split; [done|]. split; [done|]. split; [done|]. split.
  - destruct (decide (root_tail r = w)) as [E|E].
    + exists k'. rewrite E, lookup_insert_eq. split; [done|]. congruence.
    + exists kt. by rewrite lookup_insert_ne.
  - exists vis. split; [|done].
    apply (jump_path_stable (command_list_items c)); [done|].
    intros o Ho. apply lookup_insert_ne. intros E. subst o. by apply (Hvis _ Ho).
Qed.

(** The loop links the root containers of the sorted list: from the record it enters
    by, the records lead to the end of the command list through the own commands of
    each root container in turn. *)
Lemma set_root_jumps_chain (W : list Z) (rest : list root_info) :
  ∀ (r : root_info) (prev : option nat) (e : Z) (c c' : mu_Context),
    entry_of c prev e →
    e ∈ W →
    (∃ k, command_list_items c !! e = Some k ∧ cmd_type k = MU_COMMAND_JUMP) →
    e < command_list_idx c →
    NoDup (e :: (root_tail <$> r :: rest)) →
    Forall (chain_ready W c) (r :: rest) →
    set_root_jumps prev (root_cnt <$> r :: rest) c = Ok c' →
    (∀ o, o ≠ e → o ∉ root_tail <$> r :: rest →
          command_list_items c' !! o = command_list_items c !! o) ∧
    ∃ vis,
      jump_path (command_list_items c') e (command_list_idx c) vis
        (concat (root_own <$> r :: rest)) ∧
      ∀ o, o ∈ vis → o < command_list_idx c.
Proof.
  induction rest as [|r2 rest IH];
    intros r prev e c c' Hentry HeW (k & Hk & Hkty) Helt Hnd Hready Hrun.
  - apply Forall_cons in Hready as [Hr _].
    destruct Hr as (Hh & Ht & HtW & Htlt & (kt & Hkt & Hktty) & vis & Hpath & Hvis).
    apply NoDup_cons in Hnd as [Hne _].
    assert (Het : root_tail r ≠ e).
    { intros E. apply Hne. rewrite <- E. simpl. apply elem_of_cons. by left. }
    simpl in Hrun.
    apply bind_Ok in Hrun as (kc & Hkc & Hrun). apply deref_Ok in Hkc.
    rewrite Hkc in Hh, Ht. simpl in Hh, Ht.
    injection Hh as Hh. injection Ht as Ht.
    apply bind_Ok in Hrun as (head & Hhead & Hrun). apply deref_Ok in Hhead.
    rewrite Hh in Hhead. injection Hhead as <-.
    apply bind_Ok in Hrun as (c1 & H1 & Hrun).
    assert (H1' : store_jump_dst e (Some (root_head r + sizeof_JumpCommand)) c = Ok c1).
    { destruct prev as [pc|]; simpl in Hentry.
      - apply bind_Ok in H1 as (kp & Hkp & H1). apply deref_Ok in Hkp.
        rewrite Hkp in Hentry. simpl in Hentry. injection Hentry as Hentry.
        apply bind_Ok in H1 as (tail & Htail & H1). apply deref_Ok in Htail.
        rewrite Hentry in Htail. by injection Htail as <-.
      - by subst e. }
    clear H1. apply store_jump_dst_record in H1' as (k0 & k' & Hk0 & Hty' & Hload & ->).
    rewrite Hk in Hk0. injection Hk0 as <-.
    apply bind_Ok in Hrun as (c2 & H2 & Hrun).
    apply bind_Ok in H2 as (tail & Htail & H2). apply deref_Ok in Htail.
    rewrite Ht in Htail. injection Htail as <-.
    apply store_jump_dst_record in H2 as (k1 & k1' & Hk1 & Hty1 & Hload1 & ->).
    simpl in Hk1, Hload1. rewrite lookup_insert_ne in Hk1 by done.
    rewrite Hkt in Hk1. injection Hk1 as <-.
    injection Hrun as <-. simpl. split.
    + intros o Hoe Hot. rewrite !lookup_insert_ne; [done| |].
      * done.
      * intros E. apply Hot. rewrite <- E. apply elem_of_cons. by left.
    + exists (e :: vis ++ [root_tail r]). split.
      * eapply jump_path_jump.
        -- rewrite lookup_insert_ne by done. apply lookup_insert_eq.
        -- congruence.
        -- exact Hload.
        -- eapply jump_path_app.
           ++ apply (jump_path_stable (command_list_items c)); [done|].
              intros o Ho. destruct (Hvis _ Ho) as [_ HoW].
              rewrite !lookup_insert_ne; [done| |]; by intros E; subst o.
           ++ eapply jump_path_jump; [apply lookup_insert_eq | congruence | exact Hload1|].
              constructor.
      * intros o [->|[Ho|Ho]%elem_of_app]%elem_of_cons; [done| |].
        -- by apply Hvis.
        -- apply list_elem_of_singleton in Ho. by subst o.
  - pose proof Hready as Hready0.
    apply Forall_cons in Hready as [Hr Hrest].
    destruct Hr as (Hh & Ht & HtW & Htlt & (kt & Hkt & Hktty) & vis & Hpath & Hvis).
    pose proof Hnd as Hnd0.
    apply NoDup_cons in Hnd as [Hne Hnd].
    assert (Het : root_tail r ≠ e).
    { intros E. apply Hne. rewrite <- E. simpl. apply elem_of_cons. by left. }
    assert (Hsub : ∀ o, o ∈ root_tail <$> r2 :: rest → o ∈ W).
    { intros o [r' [-> Hin]]%list_elem_of_fmap.
      rewrite Forall_forall in Hrest. by destruct (Hrest _ Hin) as (_ & _ & H & _). }
    change (root_cnt <$> r :: r2 :: rest)
      with (root_cnt r :: root_cnt r2 :: (root_cnt <$> rest)) in Hrun.
    rewrite set_root_jumps_cons in Hrun.
    apply bind_Ok in Hrun as (kc & Hkc & Hrun). apply deref_Ok in Hkc.
    pose proof Ht as Ht0.
    rewrite Hkc in Hh, Ht. simpl in Hh, Ht.
    injection Hh as Hh. injection Ht as Ht.
    apply bind_Ok in Hrun as (head & Hhead & Hrun). apply deref_Ok in Hhead.
    rewrite Hh in Hhead. injection Hhead as <-.
    apply bind_Ok in Hrun as (c1 & H1 & Hrun).
    assert (H1' : store_jump_dst e (Some (root_head r + sizeof_JumpCommand)) c = Ok c1).
    { destruct prev as [pc|]; simpl in Hentry.
      - apply bind_Ok in H1 as (kp & Hkp & H1). apply deref_Ok in Hkp.
        rewrite Hkp in Hentry. simpl in Hentry. injection Hentry as Hentry.
        apply bind_Ok in H1 as (tail & Htail & H1). apply deref_Ok in Htail.
        rewrite Hentry in Htail. by injection Htail as <-.
      - by subst e. }
    clear H1. apply store_jump_dst_record in H1' as (k0 & k' & Hk0 & Hty' & Hload & ->).
    rewrite Hk in Hk0. injection Hk0 as <-.
    apply bind_Ok in Hrun as (c2 & H2 & Hrun). cbv iota in H2. injection H2 as <-.
    change (root_cnt r2 :: (root_cnt <$> rest)) with (root_cnt <$> r2 :: rest) in Hrun.
    apply IH with (e := root_tail r) in Hrun as [Hframe (vis2 & Hpath2 & Hvis2)].
    + simpl in Hframe, Hpath2, Hvis2. split.
      * intros o Hoe Hot. rewrite Hframe.
        -- by rewrite lookup_insert_ne.
        -- intros ->. apply Hot. apply elem_of_cons. by left.
        -- intros Hin. apply Hot. apply elem_of_cons. by right.
      * exists (e :: vis ++ vis2). split.
        -- eapply jump_path_jump.
           ++ rewrite Hframe; [apply lookup_insert_eq | done |].
              intros Hin. apply Hne. apply elem_of_cons. by right.
           ++ congruence.
           ++ exact Hload.
           ++ change (concat (root_own <$> r :: r2 :: rest))
                with (root_own r ++ concat (root_own <$> r2 :: rest)).
              eapply jump_path_app; [|exact Hpath2].
              apply (jump_path_stable (command_list_items c)); [done|].
              intros o Ho. destruct (Hvis _ Ho) as [_ HoW].
              rewrite Hframe.
              ** apply lookup_insert_ne. by intros E; subst o.
              ** by intros E; subst o.
              ** intros Hin. by apply HoW, Hsub.
        -- intros o [->|[Ho|Ho]%elem_of_app]%elem_of_cons; [done| |].
           ++ by apply Hvis.
           ++ by apply Hvis2.
    + simpl. exact Ht0.
    + done.
    + simpl. exists kt. by rewrite lookup_insert_ne.
    + done.
    + done.
    + eapply Forall_impl; [exact Hrest|]. intros r' Hr'.
      by eapply chain_ready_store.
Qed.

(** ** Sorting the root list *)

Lemma insert_sorted_Permutation (cmp : nat → nat → Z) (a : nat) (l : list nat) :
  insert_sorted cmp a l ≡ₚ a :: l.
Proof.
  induction l as [|b l IH]; simpl; [done|].
  destruct (cmp a b <=? 0); [done|]. rewrite IH. apply Permutation_swap.
Qed.

Lemma insertion_sort_Permutation (cmp : nat → nat → Z) (l : list nat) :
  insertion_sort cmp l ≡ₚ l.
Proof.
  induction l as [|a l IH]; simpl; [done|].
  by rewrite insert_sorted_Permutation, IH.
Qed.

Lemma insert_sorted_sorted (cmp : nat → nat → Z) (a : nat) (l : list nat) :
  cmp_total cmp → cmp_transitive cmp →
  StronglySorted (λ a b, cmp a b ≤ 0) l →
  StronglySorted (λ a b, cmp a b ≤ 0) (insert_sorted cmp a l).
Proof.
  intros Htot Htr. induction 1 as [|b l Hs IH Hb]; simpl.
  - repeat constructor.
  - destruct (Z.leb_spec (cmp a b) 0) as [Hle|Hgt].
    + constructor; [by constructor|]. constructor; [done|].
      eapply Forall_impl; [exact Hb|]. intros c Hc. simpl. by eapply Htr.
    + constructor; [done|]. rewrite insert_sorted_Permutation.
      constructor; [|done]. destruct (Htot a b); [lia | done].
Qed.

Lemma insertion_sort_sorted (cmp : nat → nat → Z) (l : list nat) :
  cmp_total cmp → cmp_transitive cmp →
  StronglySorted (λ a b, cmp a b ≤ 0) (insertion_sort cmp l).
Proof.
  intros Htot Htr. induction l as [|a l IH]; simpl; [constructor|].
  by apply insert_sorted_sorted.
Qed.

Lemma fmap_Permutation_inv {A B : Type} (f : A → B) (k : list A) (l : list B) :
  l ≡ₚ f <$> k → ∃ k', l = f <$> k' ∧ k' ≡ₚ k.
Proof.
  intros H. symmetry in H. revert k H.
  induction l as [|b l IH]; intros k H.
  - symmetry in H. apply Permutation_nil in H. apply fmap_nil_inv in H. subst k. by exists [].
  - assert (Hb : b ∈ f <$> k) by (rewrite H; apply elem_of_cons; by left).
    apply list_elem_of_fmap in Hb as (a & -> & Ha).
    apply list_elem_of_split in Ha as (k1 & k2 & ->).
    rewrite fmap_app, fmap_cons in H.
    rewrite <- Permutation_middle in H. apply Permutation_cons_inv in H.
    rewrite <- fmap_app in H.
    destruct (IH _ H) as (k' & -> & Hk').
    exists (a :: k'). split; [done|]. rewrite Hk'. apply Permutation_middle.
Qed.

Lemma StronglySorted_fmap_inv {A B : Type} (f : A → B) (R : B → B → Prop)
    (R' : A → A → Prop) (l : list A) :
  (∀ x y, R (f x) (f y) → R' x y) →
  StronglySorted R (f <$> l) → StronglySorted R' l.
Proof.
  intros HR. induction l as [|a l IH]; intros H; [constructor|].
  rewrite fmap_cons in H. apply StronglySorted_inv in H as [Hs Ha].
  constructor; [by apply IH|].
  rewrite Forall_fmap in Ha. eapply Forall_impl; [exact Ha|].
  intros y Hy. by apply HR.
Qed.

Lemma concat_Permutation {A : Type} (l k : list (list A)) :
  l ≡ₚ k → concat l ≡ₚ concat k.
Proof.
  induction 1 as [|x l k _ IH|x y l|l k m _ IH1 _ IH2]; simpl.
  - done.
  - by rewrite IH.
  - solve_Permutation.
  - by rewrite IH1.
Qed.

Lemma mu_begin_pipeline (c c' : mu_Context) :
  mu_begin c = Ok c' →
  command_list_idx c' = 0 ∧ root_list c' = [] ∧ command_list_items c' = ∅.
Proof.
  unfold mu_begin. intros H. apply bind_Ok in H as (u & _ & H).
  by injection H as <-.
Qed.

Lemma zindex_of_range (c : mu_Context) (cnt : nat) :
  zindex_in_range c → 0 ≤ zindex_of c cnt ≤ INT_MAX.
Proof.
  intros Hz. unfold zindex_of.
  destruct (containers c !! cnt) as [k|] eqn:E; simpl.
  - exact (Forall_lookup_1 _ _ _ _ Hz E).
  - unfold INT_MAX. lia.
Qed.

Lemma compare_zindex_range (c : mu_Context) (a b : nat) :
  zindex_in_range c → compare_zindex c a b = zindex_of c a - zindex_of c b.
Proof.
  intros Hz. unfold compare_zindex, int_sub.
  pose proof (zindex_of_range c a Hz). pose proof (zindex_of_range c b Hz).
  apply wrap_int_id. int_bounds. lia.
Qed.

(** The identifier stack and the layout stack are apart from the command pipeline. *)
Lemma mu_push_id_pipeline (data : list byte) : keeps_pipeline (λ c, mu_push_id c data).
Proof.
  intros c c' H. unfold mu_push_id, mu_get_id in H.
  apply bind_Ok in H as (u & _ & H). injection H as <-. by repeat split.
Qed.

Lemma push_layout_pipeline (body : mu_Rectangle) (scroll : mu_Vector2) :
  keeps_pipeline (λ c, push_layout c body scroll).
Proof.
  intros c c' H. unfold push_layout in H.
  apply bind_Ok in H as (stk & _ & H).
  apply mu_layout_row_frame in H as [stk' ->]. by repeat split.
Qed.

Section CommandOrder.

(** [qsort], and what the C library says of it: the array is permuted, and sorted if
    the comparison function is consistent. *)
Variable qsort : (nat → nat → Z) → list nat → list nat.
Hypothesis qsort_Permutation : ∀ cmp l, qsort cmp l ≡ₚ l.
Hypothesis qsort_sorted :
  ∀ cmp l, cmp_total cmp → cmp_transitive cmp →
           StronglySorted (λ a b, cmp a b ≤ 0) (qsort cmp l).


End CommandOrder.



(** * Further properties of the code *)

(** ** Rectangles *)

(** [intersect_rects]: on rectangles of C ints the result is the
    intersection, point for point, and the order of the arguments does not matter. *)
Theorem intersect_rects_exact (a b : mu_Rectangle) (p : mu_Vector2) :
  rect_in_range a → rect_in_range b →
  (point_in (intersect_rects a b) p ↔ point_in a p ∧ point_in b p) ∧
  intersect_rects a b = intersect_rects b a.
Proof.
  intros Ha Hb. split.
  - destruct (intersect_rects_fields a b Ha Hb) as (Hx & Hy & Hx2 & Hy2 & Hw & Hh).
    destruct Ha as (Hax & Hay & Haw & Hah & Hax2 & Hay2).
    destruct Hb as (Hbx & Hby & Hbw & Hbh & Hbx2 & Hby2).
    rewrite !rect_overlaps_vec2_spec; [lia|try assumption..].
    + int_bounds. lia.
    + int_bounds. lia.
  - unfold intersect_rects. rewrite !mu_min_eq, !mu_max_eq.
    rewrite (Z.max_comm (rect_x a)), (Z.max_comm (rect_y a)).
    rewrite (Z.min_comm (int_add (rect_x a) (rect_w a))).
    rewrite (Z.min_comm (int_add (rect_y a) (rect_h a))). reflexivity.
Qed.

Lemma intersect_rects_exact_witness :
  (point_in (intersect_rects (mu_rect 0 0 10 10) (mu_rect 5 5 10 10)) (mu_vec2 7 7) ↔
   point_in (mu_rect 0 0 10 10) (mu_vec2 7 7) ∧ point_in (mu_rect 5 5 10 10) (mu_vec2 7 7)) ∧
  intersect_rects (mu_rect 0 0 10 10) (mu_rect 5 5 10 10) =
    intersect_rects (mu_rect 5 5 10 10) (mu_rect 0 0 10 10).
Proof.
  apply (intersect_rects_exact (mu_rect 0 0 10 10) (mu_rect 5 5 10 10) (mu_vec2 7 7));
    unfold rect_in_range; simpl; int_bounds; lia.
Defined.

(** ** Identifiers *)

Lemma hash_app (h : Z) (a b : list byte) : hash h (a ++ b) = hash (hash h a) b.
Proof. revert h. induction a as [|x a IH]; intros h; [done|]. simpl. apply IH. Qed.

Lemma mu_push_id_Ok (c c1 : mu_Context) (data : list byte) :
  mu_push_id c data = Ok c1 →
  c1 = with_id_stack (id_stack c ++ [(mu_get_id c data).1]) (mu_get_id c data).2.
Proof.
  unfold mu_push_id. intros H. apply bind_Ok in H as (u & _ & H).
  by injection H as <-.
Qed.

(** [mu_push_id], with [mu_get_id]: an identifier computed under a pushed
    identifier is the hash of the two byte strings one after the other, so the
    identifiers of a scope depend on the names that lead to it. *)
Theorem push_id_scopes_get_id (c c1 : mu_Context) (a b : list byte) :
  mu_push_id c a = Ok c1 →
  (mu_get_id c1 b).1 = (mu_get_id c (a ++ b)).1.
Proof.
  intros H. apply mu_push_id_Ok in H. subst c1.
  unfold mu_get_id. simpl. rewrite last_snoc, hash_app. reflexivity.
Qed.

Lemma push_id_scopes_get_id_witness :
  ∃ c1, mu_push_id demo_context [x41] = Ok c1 ∧
        (mu_get_id c1 [x42]).1 = (mu_get_id demo_context ([x41] ++ [x42])).1.
Proof.
  assert (H : ∃ c1, mu_push_id demo_context [x41] = Ok c1)
    by (eexists; vm_compute; reflexivity).
  destruct H as [c1 H]. exists c1. split; [exact H|].
  exact (push_id_scopes_get_id demo_context c1 [x41] [x42] H).
Defined.

Lemma hash_uint32 (h : Z) (data : list byte) :
  0 ≤ h < 2 ^ 32 → 0 ≤ hash h data < 2 ^ 32.
Proof.
  revert h. induction data as [|b data IH]; intros h Hh; [done|].
  simpl. apply IH. unfold wrap_uint. apply Z.mod_pos_bound. lia.
Qed.

(** [mu_get_id] and [mu_push_id]: when the identifiers on the id stack
    are 32-bit unsigned values, so is the identifier [mu_get_id] returns, and
    [mu_push_id] keeps the stack so. *)
Theorem id_stack_uint32 (c : mu_Context) (data : list byte) :
  Forall (λ id, 0 ≤ id < 2 ^ 32) (id_stack c) →
  0 ≤ (mu_get_id c data).1 < 2 ^ 32 ∧
  ∀ c', mu_push_id c data = Ok c' → Forall (λ id, 0 ≤ id < 2 ^ 32) (id_stack c').
Proof.
  intros Hstk.
  assert (Hid : 0 ≤ (mu_get_id c data).1 < 2 ^ 32).
  { unfold mu_get_id. simpl. apply hash_uint32.
    destruct (last (id_stack c)) as [top|] eqn:E.
    - apply last_Some in E as [l El]. rewrite El in Hstk.
      apply Forall_app in Hstk as [_ Htop].
      by apply Forall_inv in Htop.
    - unfold HASH_INITIAL. lia. }
  split; [done|]. intros c' H. apply mu_push_id_Ok in H. subst c'. simpl.
  apply Forall_app. split; [done|]. by constructor.
Qed.

Lemma id_stack_uint32_witness :
  0 ≤ (mu_get_id demo_context [x41]).1 < 2 ^ 32 ∧
  ∀ c', mu_push_id demo_context [x41] = Ok c' →
        Forall (λ id, 0 ≤ id < 2 ^ 32) (id_stack c').
Proof. apply (id_stack_uint32 demo_context [x41]). constructor. Defined.

(** [mu_push_id] then [mu_pop_id]: the pair leaves the context as
    [mu_get_id] alone would, the id stack as it was. *)
Theorem push_pop_id (c c1 : mu_Context) (data : list byte) :
  mu_push_id c data = Ok c1 →
  mu_pop_id c1 = Ok (mu_get_id c data).2 ∧
  id_stack (mu_get_id c data).2 = id_stack c.
Proof.
  intros H. apply mu_push_id_Ok in H. subst c1. split; [|reflexivity].
  unfold mu_pop_id, pop. simpl. rewrite length_app. simpl.
  replace (Z.of_nat (length (id_stack c) + 1) >? 0) with true
    by (symmetry; apply Z.gtb_lt; lia).
  simpl. rewrite removelast_last. reflexivity.
Qed.

Lemma push_pop_id_witness :
  ∃ c1, mu_push_id demo_context [x41] = Ok c1 ∧
        mu_pop_id c1 = Ok (mu_get_id demo_context [x41]).2 ∧
        id_stack (mu_get_id demo_context [x41]).2 = id_stack demo_context.
Proof.
  assert (H : ∃ c1, mu_push_id demo_context [x41] = Ok c1)
    by (eexists; vm_compute; reflexivity).
  destruct H as [c1 H]. exists c1. split; [exact H|].
  exact (push_pop_id demo_context c1 [x41] H).
Defined.

(** ** The stacks *)

Lemma push_cases {A : Type} (stk : list A) (capacity : Z) (val : A) :
  push stk capacity val =
    if Z.of_nat (length stk) <? capacity then Ok (stk ++ [val]) else Fatal.
Proof. unfold push. by destruct (_ <? _). Qed.

Lemma pop_cases {A : Type} (stk : list A) :
  pop stk = match stk with [] => Fatal | _ => Ok (removelast stk) end.
Proof. by destruct stk. Qed.

(** The macros [push] and [pop], as the library's calls use them: what is
    pushed on a full stack, popped from an empty one or read from an empty one aborts:
    the id stack holds 32 identifiers, and the clip rectangle and the current container
    are read from the top of their stacks. *)
Theorem stack_errors (c : mu_Context) (data : list byte) :
  (mu_push_id c data = Fatal ↔ 32 ≤ Z.of_nat (length (id_stack c))) ∧
  (mu_pop_id c = Fatal ↔ id_stack c = []) ∧
  (mu_pop_clip_rect c = Fatal ↔ clip_stack c = []) ∧
  (mu_get_clip_rect c = Fatal ↔ clip_stack c = []) ∧
  (mu_get_current_container c = Fatal ↔ container_stack c = []).
Proof.
  split; [|split; [|split; [|split]]].
  - unfold mu_push_id, MU_IDSTACK_SIZE.
    destruct (Z.ltb_spec (Z.of_nat (length (id_stack c))) 32); simpl; split;
      try done; lia.
  - unfold mu_pop_id. rewrite pop_cases. by destruct (id_stack c).
  - unfold mu_pop_clip_rect. rewrite pop_cases. by destruct (clip_stack c).
  - unfold mu_get_clip_rect.
    destruct (clip_stack c) as [|r l] eqn:E; [done|].
    split; [|done]. simpl.
    replace (Z.pos (Pos.of_succ_nat (length l)) >? 0) with true by done. simpl.
    rewrite <- E. destruct (last (clip_stack c)) eqn:El; [done|].
    apply last_None in El. congruence.
  - unfold mu_get_current_container.
    destruct (container_stack c) as [|r l] eqn:E; [done|].
    split; [|done]. simpl.
    replace (Z.pos (Pos.of_succ_nat (length l)) >? 0) with true by done. simpl.
    rewrite <- E. destruct (last (container_stack c)) eqn:El; [done|].
    apply last_None in El. congruence.
Qed.

(** ** Clipping *)

(** [mu_push_clip_rect] and [mu_pop_clip_rect]: the rectangle pushed is
    the intersection with the current clip rectangle, so clipping only ever narrows
    within a scope, and the pop gives back the context as it was. *)
Theorem push_clip_rect_narrows (c c1 : mu_Context) (r old : mu_Rectangle) :
  last (clip_stack c) = Some old →
  rect_in_range r → rect_in_range old →
  mu_push_clip_rect c r = Ok c1 →
  mu_get_clip_rect c1 = Ok (intersect_rects r old) ∧
  (∀ p, point_in (intersect_rects r old) p → point_in old p ∧ point_in r p) ∧
  mu_pop_clip_rect c1 = Ok c.
Proof.
  intros Hlast Hr Hold H. unfold mu_push_clip_rect in H.
  rewrite (mu_get_clip_rect_last _ _ Hlast) in H. simpl in H.
  apply bind_Ok in H as (stk & Hstk & H). apply push_Ok in Hstk. subst stk.
  injection H as <-.
  split; [|split].
  - apply mu_get_clip_rect_last. simpl. apply last_snoc.
  - intros p Hp.
    destruct (intersect_rects_fields r old Hr Hold) as (Hx & Hy & Hx2 & Hy2 & Hw & Hh).
    destruct Hr as (Hrx & Hry & Hrw & Hrh & Hrx2 & Hry2).
    destruct Hold as (Hox & Hoy & How & Hoh & Hox2 & Hoy2).
    apply rect_overlaps_vec2_spec in Hp; [|int_bounds; lia..].
    rewrite !rect_overlaps_vec2_spec by assumption. lia.
  - unfold mu_pop_clip_rect. rewrite pop_cases. simpl.
    destruct (clip_stack c ++ [intersect_rects r old]) eqn:E.
    + by apply app_eq_nil in E as [_ ?].
    + rewrite <- E, removelast_last. simpl. f_equal. by destruct c.
Qed.

Lemma push_clip_rect_narrows_witness :
  ∃ c1,
    mu_push_clip_rect widget_context (mu_rect 150 50 100 100) = Ok c1 ∧
    mu_get_clip_rect c1 =
      Ok (intersect_rects (mu_rect 150 50 100 100) (mu_rect 0 0 200 100)) ∧
    (∀ p, point_in (intersect_rects (mu_rect 150 50 100 100) (mu_rect 0 0 200 100)) p →
          point_in (mu_rect 0 0 200 100) p ∧ point_in (mu_rect 150 50 100 100) p) ∧
    mu_pop_clip_rect c1 = Ok widget_context.
Proof.
  assert (H : ∃ c1, mu_push_clip_rect widget_context (mu_rect 150 50 100 100) = Ok c1)
    by (eexists; vm_compute; reflexivity).
  destruct H as [c1 H]. exists c1. split; [exact H|].
  apply (push_clip_rect_narrows widget_context c1 (mu_rect 150 50 100 100)
           (mu_rect 0 0 200 100)); [reflexivity | | | exact H];
    unfold rect_in_range; simpl; int_bounds; lia.
Defined.

(** ** The command list *)

Lemma mu_next_command_loop_sound (fuel : nat) (c : mu_Context) (command : option Z)
    (res : Z) (command' : option Z) :
  mu_next_command_loop fuel c command = Ok (res, command') →
  (res = 0 ∧ command' = Some (command_list_idx c)) ∨
  (res = 1 ∧ ∃ p r, command' = Some p ∧ p ≠ command_list_idx c ∧
                    command_list_items c !! p = Some r ∧
                    cmd_type r ≠ MU_COMMAND_JUMP).
Proof.
  revert command. induction fuel as [|fuel IH]; intros command H; [discriminate|].
  simpl in H. case_bool_decide as Hend.
  - injection H as <- <-. by left.
  - apply bind_Ok in H as (p & Hp & H). apply deref_Ok in Hp. subst command.
    apply bind_Ok in H as (r & Hr & H). apply deref_Ok in Hr.
    destruct (Z.eqb_spec (cmd_type r) MU_COMMAND_JUMP) as [Hty|Hty]; simpl in H.
    + apply bind_Ok in H as (dst & _ & H). by apply IH in H.
    + injection H as <- <-. right. split; [done|]. exists p, r.
      repeat split; try done. congruence.
Qed.

(** [mu_next_command], on any command list: when it returns 1 the
    cursor is on a record of the list that is not a jump, at an offset other than the
    end of the list; when it returns 0 the cursor is at the end of the list. *)
Theorem next_command_sound (fuel : nat) (c : mu_Context) (command : option Z)
    (res : Z) (command' : option Z) :
  mu_next_command fuel c command = Ok (res, command') →
  (res = 0 ∧ command' = Some (command_list_idx c)) ∨
  (res = 1 ∧ ∃ p r, command' = Some p ∧ p ≠ command_list_idx c ∧
                    command_list_items c !! p = Some r ∧
                    cmd_type r ≠ MU_COMMAND_JUMP).
Proof.
  unfold mu_next_command. intros H. apply bind_Ok in H as (start & _ & H).
  by apply mu_next_command_loop_sound in H.
Qed.

Lemma next_command_sound_witness :
  ∃ c,
    mu_set_clip demo_context (mu_rect 0 0 10 10) = Ok c ∧
    mu_next_command 2 c None = Ok (1, Some 0) ∧
    ((1 = 0 ∧ Some 0 = Some (command_list_idx c)) ∨
     (1 = 1 ∧ ∃ p r, Some 0 = Some p ∧ p ≠ command_list_idx c ∧
                     command_list_items c !! p = Some r ∧
                     cmd_type r ≠ MU_COMMAND_JUMP)).
Proof.
  assert (H : ∃ c, mu_set_clip demo_context (mu_rect 0 0 10 10) = Ok c ∧
                   mu_next_command 2 c None = Ok (1, Some 0))
    by (eexists; split; [vm_compute; reflexivity | vm_compute; reflexivity]).
  destruct H as (c & Hc & Hnext). exists c.
  split; [exact Hc|]. split; [exact Hnext|].
  exact (next_command_sound 2 c None 1 (Some 0) Hnext).
Defined.

(** ** Frame end *)

Lemma store_jump_dst_header (c c' : mu_Context) (p : Z) (dst : option Z) (o : Z) :
  store_jump_dst p dst c = Ok c' →
  (λ r, (cmd_type r, cmd_size r)) <$> command_list_items c' !! o =
  (λ r, (cmd_type r, cmd_size r)) <$> command_list_items c !! o.
Proof.
  intros H. apply store_jump_dst_Ok in H as (r & data & Hr & _ & _ & ->). simpl.
  destruct (decide (p = o)) as [->|Hne].
  - by rewrite lookup_insert_eq, Hr.
  - by rewrite lookup_insert_ne.
Qed.

Lemma set_root_jumps_header (prev : option nat) (roots : list nat) (c c' : mu_Context)
    (o : Z) :
  set_root_jumps prev roots c = Ok c' →
  (λ r, (cmd_type r, cmd_size r)) <$> command_list_items c' !! o =
  (λ r, (cmd_type r, cmd_size r)) <$> command_list_items c !! o.
Proof.
  revert prev c. induction roots as [|cnt roots IH]; intros prev c H.
  - by injection H as <-.
  - rewrite set_root_jumps_cons in H.
    apply bind_Ok in H as (k & _ & H).
    apply bind_Ok in H as (head & _ & H).
    apply bind_Ok in H as (c1 & H1 & H).
    apply bind_Ok in H as (c2 & H2 & H).
    rewrite (IH _ _ H).
    transitivity ((λ r, (cmd_type r, cmd_size r)) <$> command_list_items c1 !! o).
    + destruct roots.
      * apply bind_Ok in H2 as (tail & _ & H2). by eapply store_jump_dst_header.
      * by injection H2 as <-.
    + destruct prev.
      * apply bind_Ok in H1 as (pc & _ & H1). apply bind_Ok in H1 as (tail & _ & H1).
        by eapply store_jump_dst_header.
      * by eapply store_jump_dst_header.
Qed.

Section FrameEndMore.

Variable qsort : (nat → nat → Z) → list nat → list nat.

(** [mu_end]: when every record of the command list has room for a
    [mu_JumpCommand], linking the root containers moves no record: the command list
    keeps its length, and at every offset the record keeps its type and its size.
    (The store to [jump.dst] of a shorter record would reach past it, into the header
    of the next one.) *)
Theorem end_moves_no_record (c c' : mu_Context) :
  records_hold_jump c →
  mu_end qsort c = Ok c' →
  command_list_idx c' = command_list_idx c ∧
  ∀ o, (λ r, (cmd_type r, cmd_size r)) <$> command_list_items c' !! o =
       (λ r, (cmd_type r, cmd_size r)) <$> command_list_items c !! o.
Proof.
  intros _ H.
  destruct (mu_end_Ok qsort c c' H)
    as (_ & _ & _ & _ & cm & Hloop & _ & Hidx & Hitems & _).
  split.
  - apply set_root_jumps_frame in Hloop. rewrite Hloop. simpl. exact Hidx.
  - intros o. rewrite (set_root_jumps_header _ _ _ _ o Hloop), Hitems. reflexivity.
Qed.

(** [mu_end]: a frame that leaves something on the container, clip, id
    or layout stack (a begin without its end) aborts in [mu_end]. *)
Theorem end_unbalanced_aborts (c : mu_Context) :
  container_stack c ≠ [] ∨ clip_stack c ≠ [] ∨ id_stack c ≠ [] ∨ layout_stack c ≠ [] →
  mu_end qsort c = Fatal.
Proof.
  intros H. unfold mu_end.
  destruct (container_stack c) as [|x1 l1]; [|reflexivity].
  destruct (clip_stack c) as [|x2 l2]; [|reflexivity].
  destruct (id_stack c) as [|x3 l3]; [|reflexivity].
  destruct (layout_stack c) as [|x4 l4]; [|reflexivity].
  destruct H as [H|[H|[H|H]]]; done.
Qed.

(** [mu_end]: a focus that no control refreshed during the frame is
    dropped; the input of the frame (keys pressed, text typed, scroll) is consumed and
    the mouse position remembered; what is held down stays down. *)
Theorem end_resets_input (c c' : mu_Context) :
  mu_end qsort c = Ok c' →
  focus c' = (if updated_focus c =? 0 then 0 else focus c) ∧
  key_pressed c' = 0 ∧
  input_text c' = [] ∧
  scroll_delta c' = mu_vec2 0 0 ∧
  last_mouse_pos c' = mouse_pos c ∧
  mouse_pos c' = mouse_pos c ∧
  mouse_down c' = mouse_down c.
Proof.
  intros H.
  destruct (mu_end_Ok qsort c c' H)
    as (_ & _ & _ & _ & cm & Hloop & _ & _ & _ & _ & _ & _ & _ & _ & _
        & Hkey & Htext & Hscroll & Hlast & Hpos & Hdown & Hfocus & _).
  apply set_root_jumps_frame in Hloop. rewrite Hloop. simpl.
  by rewrite Hkey, Htext, Hscroll, Hlast, Hpos, Hdown, Hfocus.
Qed.

End FrameEndMore.

Lemma end_moves_no_record_witness :
  ∃ c c',
    build_frame two_windows two_windows_context = Ok c ∧
    records_hold_jump c ∧
    mu_end insertion_sort c = Ok c' ∧
    command_list_idx c' = command_list_idx c ∧
    ∀ o, (λ r, (cmd_type r, cmd_size r)) <$> command_list_items c' !! o =
         (λ r, (cmd_type r, cmd_size r)) <$> command_list_items c !! o.
Proof.
  assert (Hrun : ∃ c c', build_frame two_windows two_windows_context = Ok c ∧
                         records_hold_jump c ∧
                         mu_end insertion_sort c = Ok c').
  { eexists _, _. split; [vm_compute; reflexivity|]. split.
    - unfold records_hold_jump. apply (bool_decide_unpack _). vm_compute. exact I.
    - vm_compute. reflexivity. }
  destruct Hrun as (c & c' & Hc & Hsize & Hend).
  exists c, c'. split; [exact Hc|]. split; [exact Hsize|]. split; [exact Hend|].
  exact (end_moves_no_record insertion_sort c c' Hsize Hend).
Defined.

Lemma end_unbalanced_aborts_witness :
  clip_stack widget_context ≠ [] ∧ mu_end insertion_sort widget_context = Fatal.
Proof.
  split; [discriminate|].
  apply (end_unbalanced_aborts insertion_sort widget_context).
  right. left. discriminate.
Defined.

Lemma end_resets_input_witness :
  ∃ c',
    mu_end insertion_sort (mu_input_keydown (with_focus 7 demo_context) MU_KEY_RETURN)
      = Ok c' ∧
    focus c' = 0 ∧ key_pressed c' = 0 ∧ input_text c' = [] ∧
    scroll_delta c' = mu_vec2 0 0 ∧
    last_mouse_pos c' = mu_vec2 0 0 ∧ mouse_pos c' = mu_vec2 0 0 ∧
    mouse_down c' = 0.
Proof.
  assert (Hrun : ∃ c',
    mu_end insertion_sort (mu_input_keydown (with_focus 7 demo_context) MU_KEY_RETURN)
      = Ok c') by (eexists; vm_compute; reflexivity).
  destruct Hrun as (c' & Hend). exists c'. split; [exact Hend|].
  exact (end_resets_input insertion_sort _ c' Hend).
Defined.

(** ** Frame start *)

(** [mu_begin]: it aborts unless the client has set both text
    callbacks; otherwise the hover root chosen during the last frame takes effect, the
    choice starts afresh, no container is the scroll target, and the mouse movement
    since the last [mu_end] is in [mouse_delta]; the stacks are as they were. *)
Theorem begin_starts_frame (c : mu_Context) :
  (mu_begin c = Fatal ↔ text_width c = None ∨ text_height c = None) ∧
  ∀ c', mu_begin c = Ok c' →
    hover_root c' = next_hover_root c ∧
    next_hover_root c' = None ∧
    scroll_target c' = None ∧
    mouse_delta c' =
      mu_vec2 (int_sub (vec_x (mouse_pos c)) (vec_x (last_mouse_pos c)))
              (int_sub (vec_y (mouse_pos c)) (vec_y (last_mouse_pos c))) ∧
    frame c' = int_add (frame c) 1 ∧
    focus c' = focus c ∧ hover c' = hover c ∧
    container_stack c' = container_stack c ∧ clip_stack c' = clip_stack c ∧
    id_stack c' = id_stack c ∧ layout_stack c' = layout_stack c ∧
    containers c' = containers c.
Proof.
  unfold mu_begin. split.
  - destruct (text_width c), (text_height c); simpl; split; intros H;
      try done; try (by destruct H); auto.
  - intros c' H. apply bind_Ok in H as (u & _ & H). by injection H as <-.
Qed.

(** ** Containers in front *)


(** [mu_bring_to_front]: the container gets a [zindex] above that of
    every other container, the others keep theirs, and no [zindex] is above
    [last_zindex] afterwards if none was before. *)
Theorem bring_to_front_on_top (c c' : mu_Context) (cnt : nat) :
  zindex_bounded c →
  in_int (last_zindex c + 1) →
  mu_bring_to_front c cnt = Ok c' →
  last_zindex c' = last_zindex c + 1 ∧
  zindex_of c' cnt = last_zindex c' ∧
  zindex_bounded c' ∧
  ∀ other k, other ≠ cnt → containers c !! other = Some k →
             containers c' !! other = Some k ∧ cnt_zindex k < zindex_of c' cnt.
Proof.
  intros Hb Hint H. unfold mu_bring_to_front in H.
  apply update_container_Ok in H as (k & Hk & ->). simpl in Hk.
  unfold zindex_of, zindex_bounded in *. simpl.
  unfold int_add. rewrite (wrap_int_id _ Hint).
  assert (Hlen : (cnt < length (containers c))%nat) by (by eapply lookup_lt_Some).
  rewrite list_lookup_insert_eq by done. simpl.
  split; [done|]. split; [done|]. split.
  - apply Forall_insert; [|simpl; lia].
    eapply Forall_impl; [exact Hb|]. intros x Hx. simpl in Hx. lia.
  - intros other k' Hne Hk'. rewrite list_lookup_insert_ne by done.
    split; [done|]. pose proof (Forall_lookup_1 _ _ _ _ Hb Hk') as Hle.
    simpl in Hle. lia.
Qed.

Lemma bring_to_front_on_top_witness :
  ∃ c',
    mu_bring_to_front two_windows_context 1 = Ok c' ∧
    last_zindex c' = last_zindex two_windows_context + 1 ∧
    zindex_of c' 1 = last_zindex c' ∧
    zindex_bounded c' ∧
    ∀ other k, other ≠ 1%nat → containers two_windows_context !! other = Some k →
               containers c' !! other = Some k ∧ cnt_zindex k < zindex_of c' 1.
Proof.
  assert (H : ∃ c', mu_bring_to_front two_windows_context 1 = Ok c')
    by (eexists; vm_compute; reflexivity).
  destruct H as [c' H]. exists c'. split; [exact H|].
  apply (bring_to_front_on_top two_windows_context c' 1); [| |exact H].
  - unfold zindex_bounded. apply (bool_decide_unpack _). vm_compute. exact I.
  - simpl. int_bounds. lia.
Defined.

(** ** Controls *)

Lemma in_hover_root_loop_true (c : mu_Context) (stack : list nat) :
  in_hover_root_loop c stack = Ok true →
  ∃ cnt, hover_root c = Some cnt ∧ cnt ∈ stack.
Proof.
  induction stack as [|cnt stack IH]; intros H; [discriminate|].
  simpl in H. case_bool_decide as Hh.
  - exists cnt. split; [done|]. apply elem_of_cons. by left.
  - apply bind_Ok in H as (k & _ & H).
    destruct (bool_decide (is_Some (cnt_head k))); [discriminate|].
    destruct (IH H) as (cnt' & Hr & Hin). exists cnt'. split; [done|].
    apply elem_of_cons. by right.
Qed.

(** [mu_mouse_over], with [in_hover_root]: the mouse is over a rectangle
    only if it is inside it and inside the current clip rectangle, and the hover root
    is a container on the container stack. *)
Theorem mouse_over_inside (c : mu_Context) (r : mu_Rectangle) :
  mu_mouse_over c r = Ok true →
  rect_overlaps_vec2 r (mouse_pos c) = true ∧
  (∃ clip, last (clip_stack c) = Some clip ∧
           rect_overlaps_vec2 clip (mouse_pos c) = true) ∧
  ∃ cnt, hover_root c = Some cnt ∧ cnt ∈ container_stack c.
Proof.
  unfold mu_mouse_over. intros H.
  destruct (rect_overlaps_vec2 r (mouse_pos c)); [|discriminate].
  apply bind_Ok in H as (clip & Hclip & H).
  destruct (rect_overlaps_vec2 clip (mouse_pos c)) eqn:Hin; [|discriminate].
  split; [done|]. split.
  - exists clip. split; [|done]. unfold mu_get_clip_rect in Hclip.
    apply bind_Ok in Hclip as (u & _ & Hclip). by apply deref_Ok in Hclip.
  - unfold in_hover_root in H.
    apply in_hover_root_loop_true in H as (cnt & Hr & Hcnt).
    exists cnt. split; [done|]. by rewrite elem_of_reverse in Hcnt.
Qed.

Lemma mouse_over_inside_witness :
  mu_mouse_over pressed_context (mu_rect 0 0 10 10) = Ok true ∧
  rect_overlaps_vec2 (mu_rect 0 0 10 10) (mouse_pos pressed_context) = true ∧
  (∃ clip, last (clip_stack pressed_context) = Some clip ∧
           rect_overlaps_vec2 clip (mouse_pos pressed_context) = true) ∧
  ∃ cnt, hover_root pressed_context = Some cnt ∧ cnt ∈ container_stack pressed_context.
Proof.
  assert (H : mu_mouse_over pressed_context (mu_rect 0 0 10 10) = Ok true)
    by (vm_compute; reflexivity).
  split; [exact H|].
  exact (mouse_over_inside pressed_context (mu_rect 0 0 10 10) H).
Defined.

(** [mu_update_control].  A control that has the focus marks it as
    refreshed; the focus never changes without the mark; [MU_OPT_NOINTERACT] leaves
    hover and focus alone; a control gains the focus only by a press while it is the
    hovered one, and becomes the hovered one only while no button is down. *)
Theorem update_control_focus (c c' : mu_Context) (id : Z) (r : mu_Rectangle) (opt : Z) :
  mu_update_control c id r opt = Ok c' →
  (focus c = id → updated_focus c' = 1) ∧
  (focus c' ≠ focus c → updated_focus c' = 1) ∧
  (Z.land opt MU_OPT_NOINTERACT ≠ 0 → hover c' = hover c ∧ focus c' = focus c) ∧
  (focus c' = id → focus c ≠ id → mouse_pressed c ≠ 0 ∧ hover c' = id) ∧
  (hover c' = id → hover c ≠ id → mouse_down c = 0) ∧
  (hover c' ≠ hover c → hover c' = id ∨ hover c' = 0).
Proof.
  unfold mu_update_control, mu_set_focus. intros H.
  apply bind_Ok in H as (mouseover & _ & H).
  destruct c. simpl in *. destruct mouseover; simpl in H;
  repeat match type of H with
  | context [?a =? ?b] => destruct (Z.eqb_spec a b); simpl in H
  end;
  injection H as <-; simpl;
  repeat split; intros; try done; try lia; try congruence; auto.
Qed.

Lemma update_control_focus_witness :
  ∃ c',
    mu_update_control pressed_context 7 (mu_rect 0 0 10 10) 0 = Ok c' ∧
    (focus pressed_context = 7 → updated_focus c' = 1) ∧
    (focus c' ≠ focus pressed_context → updated_focus c' = 1) ∧
    (Z.land 0 MU_OPT_NOINTERACT ≠ 0 →
     hover c' = hover pressed_context ∧ focus c' = focus pressed_context) ∧
    (focus c' = 7 → focus pressed_context ≠ 7 →
     mouse_pressed pressed_context ≠ 0 ∧ hover c' = 7) ∧
    (hover c' = 7 → hover pressed_context ≠ 7 → mouse_down pressed_context = 0) ∧
    (hover c' ≠ hover pressed_context → hover c' = 7 ∨ hover c' = 0).
Proof.
  assert (H : ∃ c', mu_update_control pressed_context 7 (mu_rect 0 0 10 10) 0 = Ok c')
    by (eexists; vm_compute; reflexivity).
  destruct H as [c' H]. exists c'. split; [exact H|].
  exact (update_control_focus pressed_context c' 7 (mu_rect 0 0 10 10) 0 H).
Defined.

(** ** Drawing *)

(** [mu_draw_rect]: the rectangle is cut down to the current clip
    rectangle first, so what is drawn lies inside it; if nothing is left no command is
    pushed, otherwise one rectangle command is appended and the records before it are
    left alone. *)
Theorem draw_rect_clipped (c c' : mu_Context) (r clip : mu_Rectangle) (color : mu_Color) :
  last (clip_stack c) = Some clip →
  rect_in_range r → rect_in_range clip →
  mu_draw_rect c r color = Ok c' →
  (∀ p, point_in (intersect_rects r clip) p → point_in clip p) ∧
  if (rect_w (intersect_rects r clip) >? 0) && (rect_h (intersect_rects r clip) >? 0)
  then
    command_list_items c' !! command_list_idx c =
      Some {| cmd_type := MU_COMMAND_RECT; cmd_size := sizeof_RectCommand;
              cmd_data := RectData (intersect_rects r clip) color |} ∧
    command_list_idx c' = int_add (command_list_idx c) sizeof_RectCommand ∧
    command_list_idx c' < MU_COMMANDLIST_SIZE ∧
    ∀ o, o ≠ command_list_idx c →
         command_list_items c' !! o = command_list_items c !! o
  else c' = c.
Proof.
  intros Hlast Hr Hclip H. split.
  - intros p Hp.
    destruct (intersect_rects_fields r clip Hr Hclip) as (Hx & Hy & Hx2 & Hy2 & Hw & Hh).
    destruct Hr as (Hrx & Hry & Hrw & Hrh & Hrx2 & Hry2).
    destruct Hclip as (Hox & Hoy & How & Hoh & Hox2 & Hoy2).
    apply rect_overlaps_vec2_spec in Hp; [|int_bounds; lia..].
    rewrite !rect_overlaps_vec2_spec by assumption. lia.
  - unfold mu_draw_rect in H. rewrite (mu_get_clip_rect_last _ _ Hlast) in H.
    cbn [mbind outcome_bind] in H.
    change (Ok clip ≫= ?f) with (f clip) in H. cbv beta zeta in H.
    destruct (_ && _); [|by injection H as <-].
    apply bind_Ok in H as ([p c1] & Hpush & Hset).
    apply mu_push_command_Ok in Hpush as (-> & Hlt & ->).
    apply set_command_data_Ok in Hset as (k & Hk & ->). simpl in Hk |- *.
    rewrite lookup_insert_eq in Hk. injection Hk as <-. simpl.
    rewrite lookup_insert_eq. split; [done|]. split; [done|]. split; [done|].
    intros o Ho. by rewrite !lookup_insert_ne.
Qed.

Lemma draw_rect_clipped_witness :
  ∃ c',
    mu_draw_rect widget_context (mu_rect 150 50 100 100) (mu_color 1 2 3 255) = Ok c' ∧
    (∀ p, point_in (intersect_rects (mu_rect 150 50 100 100) (mu_rect 0 0 200 100)) p →
          point_in (mu_rect 0 0 200 100) p) ∧
    command_list_items c' !! 0 =
      Some {| cmd_type := MU_COMMAND_RECT; cmd_size := sizeof_RectCommand;
              cmd_data := RectData (mu_rect 150 50 50 50) (mu_color 1 2 3 255) |} ∧
    command_list_idx c' = 28.
Proof.
  assert (H : ∃ c', mu_draw_rect widget_context (mu_rect 150 50 100 100)
                      (mu_color 1 2 3 255) = Ok c')
    by (eexists; vm_compute; reflexivity).
  destruct H as [c' H]. exists c'. split; [exact H|].
  assert (Hr : rect_in_range (mu_rect 150 50 100 100))
    by (unfold rect_in_range; simpl; int_bounds; lia).
  assert (Hc : rect_in_range (mu_rect 0 0 200 100))
    by (unfold rect_in_range; simpl; int_bounds; lia).
  destruct (draw_rect_clipped widget_context c' (mu_rect 150 50 100 100)
              (mu_rect 0 0 200 100) (mu_color 1 2 3 255) eq_refl Hr Hc H)
    as [Hin Hrec].
  split; [exact Hin|].
  change ((rect_w (intersect_rects (mu_rect 150 50 100 100) (mu_rect 0 0 200 100)) >? 0)
          && (rect_h (intersect_rects (mu_rect 150 50 100 100) (mu_rect 0 0 200 100)) >? 0))
    with true in Hrec.
  destruct Hrec as (Hrec & Hidx & _). split; [exact Hrec | exact Hidx].
Defined.

(** ** Layout *)

(** [mu_layout_set_next] then [mu_layout_next].  A rectangle set as
    absolute is the next rectangle as it is, and the cursor of the layout stays where
    it was; one set as relative is moved by the origin of the body of the layout.
    Either way it is stored in [last_rect] and only the top of the layout stack
    changes. *)
Theorem layout_set_next_absolute (c : mu_Context) (layout : mu_Layout) (r : mu_Rectangle) :
  last (layout_stack c) = Some layout →
  (∃ c1 c2,
     mu_layout_set_next c r 0 = Ok c1 ∧
     mu_layout_next c1 = Ok (r, c2) ∧
     last_rect c2 = r ∧
     layout_stack c2 =
       removelast (layout_stack c)
       ++ [with_layout_next_type 0 (with_layout_next r layout)]) ∧
  (∃ c1 c2,
     mu_layout_set_next c r 1 = Ok c1 ∧
     mu_layout_next c1 =
       Ok (mu_rect (int_add (rect_x r) (rect_x (layout_body layout)))
                   (int_add (rect_y r) (rect_y (layout_body layout)))
                   (rect_w r) (rect_h r), c2) ∧
     removelast (layout_stack c2) = removelast (layout_stack c)).
Proof.
  intros Hlast.
  assert (Hget : get_layout c = Ok layout) by (unfold get_layout; by rewrite Hlast).
  split.
  - eexists _, _. split.
    { unfold mu_layout_set_next. rewrite Hget.
      change (Ok layout ≫= ?f) with (f layout). cbv beta.
      apply (set_layout_Ok _ layout). exact Hlast. }
    unfold mu_layout_next, get_layout. simpl layout_stack. rewrite last_snoc.
    change (deref (Some ?l) ≫= ?f) with (f l). cbv beta zeta.
    change (negb (layout_next_type (with_layout_next_type _ _) =? 0)) with true.
    cbv iota.
    change (layout_next_type (with_layout_next_type _ _) =? ABSOLUTE) with true.
    cbv iota.
    erewrite set_layout_Ok by (simpl; apply last_snoc).
    simpl. rewrite removelast_last. done.
  - eexists _, _. split.
    { unfold mu_layout_set_next. rewrite Hget.
      change (Ok layout ≫= ?f) with (f layout). cbv beta.
      apply (set_layout_Ok _ layout). exact Hlast. }
    unfold mu_layout_next, get_layout. simpl layout_stack. rewrite last_snoc.
    change (deref (Some ?l) ≫= ?f) with (f l). cbv beta zeta.
    change (negb (layout_next_type (with_layout_next_type _ _) =? 0)) with true.
    cbv iota.
    change (layout_next_type (with_layout_next_type _ _) =? ABSOLUTE) with false.
    cbv iota.
    unfold layout_place. cbv beta zeta iota.
    erewrite set_layout_Ok by (simpl; apply last_snoc).
    simpl. split; [reflexivity|]. simpl. by rewrite !removelast_last.
Qed.

Lemma layout_set_next_absolute_witness :
  (∃ c1 c2,
     mu_layout_set_next fill_context (mu_rect 3 4 50 60) 0 = Ok c1 ∧
     mu_layout_next c1 = Ok (mu_rect 3 4 50 60, c2) ∧
     last_rect c2 = mu_rect 3 4 50 60 ∧
     layout_stack c2 =
       removelast (layout_stack fill_context)
       ++ [with_layout_next_type 0 (with_layout_next (mu_rect 3 4 50 60) fill_layout)]) ∧
  (∃ c1 c2,
     mu_layout_set_next fill_context (mu_rect 3 4 50 60) 1 = Ok c1 ∧
     mu_layout_next c1 =
       Ok (mu_rect (int_add 3 (rect_x (layout_body fill_layout)))
                   (int_add 4 (rect_y (layout_body fill_layout))) 50 60, c2) ∧
     removelast (layout_stack c2) = removelast (layout_stack fill_context)).
Proof.
  exact (layout_set_next_absolute fill_context fill_layout (mu_rect 3 4 50 60) eq_refl).
Defined.

(** ** Pools *)

Lemma mu_pool_get_loop_spec (items : list mu_PoolItem) (todo i : nat) (id n : Z) :
  mu_pool_get_loop items todo i id = Ok n →
  (n = -1 ∧
   ∀ j it, (i ≤ j < i + todo)%nat → items !! j = Some it → identifier it ≠ id) ∨
  (∃ k it, n = Z.of_nat k ∧ (i ≤ k < i + todo)%nat ∧
           items !! k = Some it ∧ identifier it = id ∧
           ∀ j it', (i ≤ j < k)%nat → items !! j = Some it' → identifier it' ≠ id).
Proof.
  revert i. induction todo as [|todo IH]; intros i H.
  - injection H as <-. left. split; [done|]. intros; lia.
  - simpl in H. apply bind_Ok in H as (it & Hit & H). apply deref_Ok in Hit.
    destruct (Z.eqb_spec (identifier it) id) as [Hid|Hid].
    + injection H as <-. right. exists i, it.
      split; [done|]. split; [lia|]. split; [done|]. split; [done|]. intros; lia.
    + destruct (IH _ H) as [(-> & Hall)|(k & it' & -> & Hk & Hit' & Hid' & Hall)].
      * left. split; [done|]. intros j it' Hj Hj'.
        destruct (decide (j = i)) as [->|Hne]; [congruence|].
        apply (Hall j); [lia | done].
      * right. exists k, it'. split; [done|]. split; [lia|].
        split; [done|]. split; [done|]. intros j it'' Hj Hj'.
        destruct (decide (j = i)) as [->|Hne]; [congruence|].
        apply (Hall j); [lia | done].
Qed.

Lemma mu_pool_get_loop_total (items : list mu_PoolItem) (todo i : nat) (id : Z) :
  (i + todo ≤ length items)%nat → ∃ n, mu_pool_get_loop items todo i id = Ok n.
Proof.
  revert i. induction todo as [|todo IH]; intros i Hlen; [by eexists|].
  simpl. destruct (lookup_lt_is_Some_2 items i) as [it Hit]; [lia|].
  rewrite Hit. simpl. destruct (identifier it =? id); [by eexists|].
  apply IH. lia.
Qed.

Lemma mu_pool_get_loop_finds (items : list mu_PoolItem) (todo i k : nat) (id : Z)
    (it : mu_PoolItem) :
  (i ≤ k < i + todo)%nat →
  items !! k = Some it → identifier it = id →
  (∀ j it', (i ≤ j < k)%nat → items !! j = Some it' → identifier it' ≠ id) →
  mu_pool_get_loop items todo i id = Ok (Z.of_nat k).
Proof.
  revert i. induction todo as [|todo IH]; intros i Hk Hit Hid Hall; [lia|].
  simpl. destruct (lookup_lt_is_Some_2 items i) as [it' Hit'].
  { apply lookup_lt_Some in Hit. lia. }
  rewrite Hit'. simpl.
  destruct (decide (i = k)) as [->|Hne].
  - rewrite Hit in Hit'. injection Hit' as <-.
    by rewrite (proj2 (Z.eqb_eq _ _) Hid).
  - rewrite (proj2 (Z.eqb_neq _ _) (Hall i it' ltac:(lia) Hit')).
    apply IH; [lia | done | done |]. intros j it'' Hj. apply Hall. lia.
Qed.

(** [mu_pool_get], on a whole pool: it returns the first index whose
    slot holds the identifier, or -1 when no slot does. *)
Theorem pool_get_first (c : mu_Context) (items : list mu_PoolItem) (id : Z) :
  ∃ n, mu_pool_get c items (Z.of_nat (length items)) id = Ok n ∧
       ((n = -1 ∧ ∀ j it, items !! j = Some it → identifier it ≠ id) ∨
        (∃ k it, n = Z.of_nat k ∧ items !! k = Some it ∧ identifier it = id ∧
                 ∀ j it', (j < k)%nat → items !! j = Some it' → identifier it' ≠ id)).
Proof.
  unfold mu_pool_get. rewrite Nat2Z.id.
  destruct (mu_pool_get_loop_total items (length items) 0 id) as [n Hn]; [lia|].
  exists n. split; [done|].
  destruct (mu_pool_get_loop_spec _ _ _ _ _ Hn)
    as [(-> & Hall)|(k & it & -> & Hk & Hit & Hid & Hall)].
  - left. split; [done|]. intros j it Hj. apply (Hall j); [|done].
    apply lookup_lt_Some in Hj. lia.
  - right. exists k, it. repeat split; try done.
    intros j it' Hj. apply Hall. lia.
Qed.

Lemma mu_pool_init_loop_index (items : list mu_PoolItem) (todo i : nat) (f n f' n' : Z) :
  mu_pool_init_loop items todo i f n = Ok (f', n') →
  n' = n ∨ Z.of_nat i ≤ n' < Z.of_nat (i + todo).
Proof.
  revert i f n. induction todo as [|todo IH]; intros i f n H.
  - injection H as <- <-. by left.
  - simpl in H. apply bind_Ok in H as (it & _ & H).
    destruct (last_update it <? f); apply IH in H as [->|H]; auto; right; lia.
Qed.

Lemma mu_pool_init_Ok (c : mu_Context) (items items' : list mu_PoolItem)
    (length id n : Z) :
  mu_pool_init c items length id = Ok (items', n) →
  ∃ k it, n = Z.of_nat k ∧ (k < Z.to_nat length)%nat ∧ items !! k = Some it ∧
          items' = <[k := {| identifier := id; last_update := frame c |}]> items.
Proof.
  unfold mu_pool_init. intros H.
  apply bind_Ok in H as ([f n0] & Hloop & H).
  apply bind_Ok in H as (u & Hn & H). apply expect_Ok, Z.gtb_lt in Hn.
  apply bind_Ok in H as (it & Hit & H). apply deref_Ok in Hit.
  injection H as <- <-.
  apply mu_pool_init_loop_index in Hloop as [->|Hrange]; [lia|].
  exists (Z.to_nat n0), it. split; [lia|]. split; [lia|]. split; [done|].
  unfold mu_pool_update.
  rewrite list_lookup_insert_eq by (by eapply lookup_lt_Some).
  by rewrite list_insert_insert_eq.
Qed.

(** ** Containers *)

Lemma mu_pool_update_identifier (c : mu_Context) (items : list mu_PoolItem) (idx j : nat) :
  identifier <$> mu_pool_update c items idx !! j = identifier <$> items !! j.
Proof.
  unfold mu_pool_update. destruct (items !! idx) as [it|] eqn:E; [|done].
  destruct (decide (idx = j)) as [->|Hne].
  - rewrite list_lookup_insert_eq by (by eapply lookup_lt_Some). by rewrite E.
  - by rewrite list_lookup_insert_ne.
Qed.

Lemma mu_pool_get_loop_ext (items items' : list mu_PoolItem) (todo i : nat) (id : Z) :
  (∀ j, identifier <$> items' !! j = identifier <$> items !! j) →
  mu_pool_get_loop items' todo i id = mu_pool_get_loop items todo i id.
Proof.
  intros Hext. revert i. induction todo as [|todo IH]; intros i; [done|].
  simpl. specialize (Hext i).
  destruct (items' !! i) as [it'|], (items !! i) as [it|]; try discriminate; [|done].
  simpl in *. injection Hext as ->. destruct (identifier it =? id); [done|]. apply IH.
Qed.

(** [get_container]: the container it returns for an identifier is the
    one it returns for that identifier when called again, whether it was found in the
    pool or just made; and the second call changes no container. *)
Theorem get_container_again (c c1 : mu_Context) (id opt : Z) (n : nat) :
  get_container c id opt = Ok (Some n, c1) →
  ∃ c2, get_container c1 id opt = Ok (Some n, c2) ∧ containers c2 = containers c1.
Proof.
  unfold get_container, mu_pool_get. intros H.
  apply bind_Ok in H as (idx & Hget & H).
  destruct (Z.geb_spec idx 0) as [Hidx|Hidx].
  - (* found *)
    apply bind_Ok in H as (k & Hk & H). apply deref_Ok in Hk.
    assert (Hc1 : ∃ pool, c1 = with_container_pool pool c ∧
              ∀ j, identifier <$> pool !! j = identifier <$> container_pool c !! j).
    { destruct (_ || _); injection H as <- <-.
      - eexists. split; [reflexivity|]. apply mu_pool_update_identifier.
      - exists (container_pool c). split; [by destruct c | done]. }
    assert (Hn : n = Z.to_nat idx) by (destruct (_ || _); by injection H as <- <-).
    destruct Hc1 as (pool & -> & Hext).
    change (container_pool (with_container_pool pool c)) with pool.
    change (containers (with_container_pool pool c)) with (containers c).
    rewrite (mu_pool_get_loop_ext _ _ _ _ _ Hext), Hget.
    change (Ok idx ≫= ?f) with (f idx). cbv beta.
    destruct (Z.geb_spec idx 0) as [_|?]; [|lia].
    subst n. rewrite Hk. change (deref (Some k) ≫= ?f) with (f k). cbv beta zeta.
    destruct (_ || _); eexists; (split; [reflexivity|]); reflexivity.
  - (* made *)
    destruct (negb (Z.land opt MU_OPT_CLOSED =? 0)) eqn:Hopt; [discriminate|].
    apply bind_Ok in H as ([pool idx'] & Hinit & H).
    apply mu_pool_init_Ok in Hinit as (k & it & -> & Hk & Hit & ->).
    apply bind_Ok in H as (c' & Hupd & H).
    apply bind_Ok in H as (c'' & Hfront & H). injection H as <- <-.
    rewrite Nat2Z.id in Hupd, Hfront |- *.
    apply update_container_Ok in Hupd as (k1 & Hk1 & ->).
    unfold mu_bring_to_front in Hfront.
    apply update_container_Ok in Hfront as (k2 & Hk2 & ->). simpl in Hk1, Hk2.
    cbn [container_pool containers with_containers with_last_zindex
         with_container_pool].
    destruct (mu_pool_get_loop_spec _ _ _ _ _ Hget)
      as [(_ & Hall)|(k' & it' & -> & _)]; [|lia].
    rewrite (mu_pool_get_loop_finds _ _ 0 k id
               {| identifier := id; last_update := frame c |}).
    + change (Ok ?x ≫= ?f) with (f x). cbv beta.
      destruct (Z.geb_spec (Z.of_nat k) 0) as [_|?]; [|lia].
      rewrite Nat2Z.id.
      rewrite list_lookup_insert_eq
        by (rewrite length_insert; by eapply lookup_lt_Some).
      change (deref (Some ?x) ≫= ?f) with (f x). cbv beta zeta.
      destruct (_ || _); eexists; (split; [reflexivity|]); reflexivity.
    + lia.
    + apply list_lookup_insert_eq. by eapply lookup_lt_Some.
    + done.
    + intros j it' Hj Hj'. rewrite list_lookup_insert_ne in Hj' by lia.
      apply (Hall j); [lia | done].
Qed.

Lemma get_container_again_witness :
  ∃ n c1 c2,
    get_container pool_context 5 0 = Ok (Some n, c1) ∧
    get_container c1 5 0 = Ok (Some n, c2) ∧ containers c2 = containers c1.
Proof.
  assert (H : ∃ n c1, get_container pool_context 5 0 = Ok (Some n, c1))
    by (eexists _, _; vm_compute; reflexivity).
  destruct H as (n & c1 & H).
  destruct (get_container_again pool_context c1 5 0 n H) as (c2 & H2).
  exists n, c1, c2. split; [exact H | exact H2].
Defined.

(** [get_container], for an identifier no slot of the pool holds: with
    [MU_OPT_CLOSED] nothing is made and nothing changes; otherwise the container made
    is all zero but for [open], which is 1, and for its [zindex], which is the new
    [last_zindex]: it is in front. *)
Theorem get_container_absent (c c1 : mu_Context) (id opt : Z) (res : option nat) :
  (∀ j it, container_pool c !! j = Some it → identifier it ≠ id) →
  get_container c id opt = Ok (res, c1) →
  if Z.land opt MU_OPT_CLOSED =? 0 then
    ∃ n, res = Some n ∧
         last_zindex c1 = int_add (last_zindex c) 1 ∧
         containers c1 !! n =
           Some (with_cnt_zindex (last_zindex c1) (with_cnt_open 1 zero_container)) ∧
         identifier <$> container_pool c1 !! n = Some id
  else res = None ∧ c1 = c.
Proof.
  intros Habsent. unfold get_container, mu_pool_get. intros H.
  apply bind_Ok in H as (idx & Hget & H).
  destruct (mu_pool_get_loop_spec _ _ _ _ _ Hget)
    as [(-> & _)|(k' & it' & -> & _ & Hit' & Hid' & _)];
    [|by destruct (Habsent _ _ Hit')].
  change (-1 >=? 0) with false in H. cbv iota in H.
  destruct (Z.land opt MU_OPT_CLOSED =? 0); simpl in H; [|by injection H as <- <-].
  apply bind_Ok in H as ([pool idx'] & Hinit & H).
  apply mu_pool_init_Ok in Hinit as (k & it & -> & Hk & Hit & ->).
  apply bind_Ok in H as (c' & Hupd & H).
  apply bind_Ok in H as (c'' & Hfront & H). injection H as <- <-.
  rewrite Nat2Z.id in Hupd, Hfront |- *.
  apply update_container_Ok in Hupd as (k1 & Hk1 & ->).
  unfold mu_bring_to_front in Hfront.
  apply update_container_Ok in Hfront as (k2 & Hk2 & ->). simpl in Hk1, Hk2 |- *.
  exists k. split; [done|]. split; [done|].
  rewrite list_lookup_insert_eq in Hk2 by (by eapply lookup_lt_Some).
  injection Hk2 as <-.
  rewrite !list_lookup_insert_eq;
    [done | by eapply lookup_lt_Some | rewrite length_insert; by eapply lookup_lt_Some].
Qed.

Lemma get_container_absent_witness :
  ∃ res c1,
    get_container pool_context 5 0 = Ok (res, c1) ∧
    ∃ n, res = Some n ∧
         last_zindex c1 = int_add (last_zindex pool_context) 1 ∧
         containers c1 !! n =
           Some (with_cnt_zindex (last_zindex c1) (with_cnt_open 1 zero_container)) ∧
         identifier <$> container_pool c1 !! n = Some 5.
Proof.
  assert (H : ∃ res c1, get_container pool_context 5 0 = Ok (res, c1))
    by (eexists _, _; vm_compute; reflexivity).
  destruct H as (res & c1 & H). exists res, c1. split; [exact H|].
  refine (get_container_absent pool_context c1 5 0 res _ H).
  intros j it Hj.
  change (container_pool pool_context)
    with (replicate (Z.to_nat MU_CONTAINERPOOL_SIZE)
            {| identifier := 0; last_update := 0 |}) in Hj.
  apply lookup_replicate in Hj as [-> _]. done.
Defined.

(** ** Input *)

Lemma land_lor_same (a b : Z) : Z.land (Z.lor a b) b = b.
Proof.
  apply Z.bits_inj'. intros i Hi. rewrite Z.land_spec, Z.lor_spec.
  destruct (Z.testbit b i); [by rewrite orb_true_r | apply andb_false_r].
Qed.

Lemma land_lnot_same (a b : Z) : Z.land (Z.land a (Z.lnot b)) b = 0.
Proof.
  apply Z.bits_inj'. intros i Hi.
  rewrite !Z.land_spec, Z.lnot_spec, Z.bits_0 by done.
  by destruct (Z.testbit b i), (Z.testbit a i).
Qed.

(** [mu_input_keydown] and [mu_input_keyup]: a key that goes down and
    up again before the frame is still pressed for that frame, and no longer down; the
    two calls touch nothing but [key_pressed] and [key_down]. *)
Theorem key_press_outlives_release (c : mu_Context) (key : Z) :
  Z.land (key_pressed (mu_input_keyup (mu_input_keydown c key) key)) key = key ∧
  Z.land (key_down (mu_input_keyup (mu_input_keydown c key) key)) key = 0 ∧
  mu_input_keyup (mu_input_keydown c key) key =
    with_key_down (Z.land (Z.lor (key_down c) key) (Z.lnot key))
      (with_key_pressed (Z.lor (key_pressed c) key) c).
Proof.
  split; [apply land_lor_same|]. split; [apply land_lnot_same | reflexivity].
Qed.

Lemma wrap_int_add_l (a b : Z) : wrap_int (wrap_int a + b) = wrap_int (a + b).
Proof.
  unfold wrap_int.
  replace ((a + 2 ^ 31) mod 2 ^ 32 - 2 ^ 31 + b + 2 ^ 31)
    with ((a + 2 ^ 31) mod 2 ^ 32 + b) by lia.
  rewrite Z.add_mod_idemp_l by done. f_equal. f_equal. lia.
Qed.

Lemma int_add_assoc (a b d : Z) : int_add (int_add a b) d = int_add a (int_add b d).
Proof.
  unfold int_add. rewrite wrap_int_add_l.
  rewrite (Z.add_comm a (wrap_int _)), wrap_int_add_l. f_equal. lia.
Qed.

(** [mu_input_scroll]: scroll events between two frames add up; two of
    them leave the context as the one event of their sum would (in [int] arithmetic). *)
Theorem scroll_events_add_up (c : mu_Context) (x1 y1 x2 y2 : Z) :
  mu_input_scroll (mu_input_scroll c x1 y1) x2 y2 =
  mu_input_scroll c (int_add x1 x2) (int_add y1 y2).
Proof.
  unfold mu_input_scroll. simpl. by rewrite !int_add_assoc.
Qed.

(** [mu_input_text]: the text is appended to the text typed so far; the
    call aborts rather than write past the 32 bytes of [input_text], so the text held
    is always shorter than 32 bytes. *)
Theorem input_text_bounded (c : mu_Context) (text : list byte) :
  (mu_input_text c text = Fatal ↔
   32 < Z.of_nat (length (input_text c)) + Z.of_nat (length text) + 1) ∧
  ∀ c', mu_input_text c text = Ok c' →
        input_text c' = input_text c ++ text ∧
        Z.of_nat (length (input_text c')) < 32 ∧
        c' = with_input_text (input_text c ++ text) c.
Proof.
  unfold mu_input_text.
  destruct (Z.leb_spec (Z.of_nat (length (input_text c)) + (Z.of_nat (length text) + 1)) 32)
    as [Hle|Hgt]; simpl.
  - split; [split; [done | lia]|]. intros c' H. injection H as <-. simpl.
    rewrite length_app. repeat split; [lia].
  - split; [split; [lia | done]|]. intros c' H. discriminate.
Qed.

(** ** Text boxes *)

(** [mu_textbox_raw], keeps the text within its buffer: a text shorter
    than [bufsz] (room for the final NUL) is still shorter than [bufsz] after the
    call, whatever was typed; and the text changes only when [MU_RES_CHANGE] is set. *)
Theorem textbox_buffer_bounded (c c' : mu_Context) (buffer buffer' : list byte)
    (bufsz id opt res : Z) (r : mu_Rectangle) :
  Z.of_nat (length buffer) < bufsz → bufsz ≤ INT_MAX →
  mu_textbox_raw c buffer bufsz id r opt = Ok (res, buffer', c') →
  Z.of_nat (length buffer') < bufsz ∧
  (Z.land res MU_RES_CHANGE = 0 → buffer' = buffer).
Proof.
  intros Hlen Hmax Hrun. unfold mu_textbox_raw in Hrun.
  apply bind_Ok in Hrun as (c1 & _ & Hrun).
  destruct (focus c1 =? id).
  - set (n := mu_min (int_sub (int_sub bufsz (Z.of_nat (length buffer))) 1)
                     (Z.of_nat (length (input_text c1)))) in *.
    assert (Hn : n ≤ bufsz - Z.of_nat (length buffer) - 1).
    { subst n. rewrite mu_min_eq. unfold int_sub.
      rewrite !wrap_int_id; [lia | int_bounds; lia |].
      rewrite wrap_int_id; int_bounds; lia. }
    clearbody n.
    assert (Htake : ∀ k (l : list byte), (length (take k l) ≤ length l)%nat)
      by (intros k l; rewrite length_take; lia).
    destruct (n >? 0) eqn:Hpos; cbv beta iota zeta in Hrun.
    + assert (Happ : Z.of_nat (length (buffer ++ take (Z.to_nat n) (input_text c1)))
                     < bufsz).
      { rewrite length_app, length_take. lia. }
      destruct (_ && _); cbv beta iota zeta in Hrun;
        destruct (negb (Z.land (key_pressed c1) MU_KEY_RETURN =? 0));
        cbv beta iota zeta in Hrun;
        apply bind_Ok in Hrun as (c2 & _ & Hrun);
        apply bind_Ok in Hrun as (c3 & _ & Hrun);
        injection Hrun as <- <- _;
        (split; [|intros Hres; vm_compute in Hres; discriminate]);
        try done.
      * specialize (Htake (backspace_loop
                             (buffer ++ take (Z.to_nat n) (input_text c1))
                             (length (buffer ++ take (Z.to_nat n) (input_text c1))))
                          (buffer ++ take (Z.to_nat n) (input_text c1))). lia.
      * specialize (Htake (backspace_loop
                             (buffer ++ take (Z.to_nat n) (input_text c1))
                             (length (buffer ++ take (Z.to_nat n) (input_text c1))))
                          (buffer ++ take (Z.to_nat n) (input_text c1))). lia.
    + destruct (_ && _); cbv beta iota zeta in Hrun;
        destruct (negb (Z.land (key_pressed c1) MU_KEY_RETURN =? 0));
        cbv beta iota zeta in Hrun;
        apply bind_Ok in Hrun as (c2 & _ & Hrun);
        apply bind_Ok in Hrun as (c3 & _ & Hrun);
        injection Hrun as <- <- _;
        (split; [|intros Hres; try done; vm_compute in Hres; discriminate]);
        try done.
      * specialize (Htake (backspace_loop buffer (length buffer)) buffer). lia.
      * specialize (Htake (backspace_loop buffer (length buffer)) buffer). lia.
  - cbv beta iota zeta in Hrun.
    apply bind_Ok in Hrun as (c2 & _ & Hrun).
    apply bind_Ok in Hrun as (c3 & _ & Hrun).
    by injection Hrun as <- <- _.
Qed.

Lemma textbox_buffer_bounded_witness :
  ∃ res buffer' c',
    mu_textbox_raw textbox_context hello 32 7 (mu_rect 10 10 100 20) 0
      = Ok (res, buffer', c') ∧
    Z.of_nat (length buffer') < 32 ∧
    (Z.land res MU_RES_CHANGE = 0 → buffer' = hello).
Proof.
  assert (H : ∃ res buffer' c',
    mu_textbox_raw textbox_context hello 32 7 (mu_rect 10 10 100 20) 0
      = Ok (res, buffer', c')) by (eexists _, _, _; vm_compute; reflexivity).
  destruct H as (res & buffer' & c' & H). exists res, buffer', c'.
  split; [exact H|].
  apply (textbox_buffer_bounded textbox_context c' hello buffer' 32 7 0 res
           (mu_rect 10 10 100 20)); [simpl; lia | unfold INT_MAX; lia | exact H].
Defined.

(** ** Root containers *)

(** [begin_root_container] ... [end_root_container], over any frame:
    the commands are laid out one after the other; every root container's block
    begins with a jump to the end of the block and ends with a jump that has no
    destination yet, so a walk through the list skips the blocks until [mu_end] links
    them; the container stack and the records before the frame are as they were. *)
Theorem emit_closes_roots (frame : list item) (c c' : mu_Context) :
  frame_ok frame →
  NoDup (root_cnt <$> roots_items (command_list_idx c) frame) →
  0 ≤ command_list_idx c < MU_COMMANDLIST_SIZE →
  emit frame c = Ok c' →
  command_list_idx c' = command_list_idx c + items_size frame ∧
  command_list_idx c' < MU_COMMANDLIST_SIZE ∧
  container_stack c' = container_stack c ∧
  root_list c' = root_list c ++ (root_cnt <$> roots_items (command_list_idx c) frame) ∧
  (∀ o, o < command_list_idx c →
        command_list_items c' !! o = command_list_items c !! o) ∧
  Forall (λ r, command_list_items c' !! root_head r =
                 Some {| cmd_type := MU_COMMAND_JUMP; cmd_size := sizeof_JumpCommand;
                         cmd_data := JumpData (Some (root_tail r + sizeof_JumpCommand)) |} ∧
               command_list_items c' !! root_tail r =
                 Some {| cmd_type := MU_COMMAND_JUMP; cmd_size := sizeof_JumpCommand;
                         cmd_data := JumpData None |} ∧
               command_list_idx c ≤ root_head r < root_tail r ∧
               root_tail r + sizeof_JumpCommand ≤ command_list_idx c')
    (roots_items (command_list_idx c) frame).
Proof.
  intros Hok Hnd Hidx Hemit.
  destruct (emit_ok frame c c' Hok Hnd Hidx Hemit)
    as (Hi & Hlt & Hrl & Hst & Hbelow & _ & _ & Hclosed & _).
  destruct (block_items frame (command_list_idx c) Hok) as (_ & Hr & _).
  pose proof sizeof_JumpCommand_pos as HJ.
  do 5 (split; [done|]).
  apply Forall_forall. intros r Hin.
  rewrite Forall_forall in Hclosed.
  destruct (Hclosed r Hin) as (_ & _ & Hh & Ht & _).
  specialize (Hr r Hin).
  split; [exact Hh|]. split; [exact Ht|]. lia.
Qed.

Lemma emit_closes_roots_witness :
  ∃ c c',
    mu_begin two_windows_context = Ok c ∧ emit two_windows c = Ok c' ∧
    command_list_idx c' = command_list_idx c + items_size two_windows ∧
    container_stack c' = container_stack c ∧
    Forall (λ r, command_list_items c' !! root_head r =
                   Some {| cmd_type := MU_COMMAND_JUMP; cmd_size := sizeof_JumpCommand;
                           cmd_data :=
                             JumpData (Some (root_tail r + sizeof_JumpCommand)) |} ∧
                 command_list_items c' !! root_tail r =
                   Some {| cmd_type := MU_COMMAND_JUMP; cmd_size := sizeof_JumpCommand;
                           cmd_data := JumpData None |} ∧
                 command_list_idx c ≤ root_head r < root_tail r ∧
                 root_tail r + sizeof_JumpCommand ≤ command_list_idx c')
      (roots_items (command_list_idx c) two_windows).
Proof.
  assert (Hrun : ∃ c c',
    mu_begin two_windows_context = Ok c ∧ emit two_windows c = Ok c' ∧
    command_list_idx c = 0).
  { eexists _, _. split; [vm_compute; reflexivity|].
    split; [vm_compute; reflexivity | reflexivity]. }
  destruct Hrun as (c & c' & Hbegin & Hemit & Hidx).
  assert (Hok : frame_ok two_windows).
  { unfold two_windows, window, draw, frame_ok. simpl.
    unfold MU_COMMAND_RECT, MU_COMMAND_ICON, MU_COMMAND_JUMP, MU_COMMANDLIST_SIZE,
      sizeof_RectCommand, sizeof_IconCommand.
    repeat match goal with
           | |- _ ∧ _ => split
           | |- keeps_pipeline _ =>
               first [apply mu_push_id_pipeline | apply push_layout_pipeline]
           | |- True => exact I
           | |- _ ≠ _ => done
           | |- _ < _ => lia
           end. }
  assert (Hnd : NoDup (root_cnt <$> roots_items (command_list_idx c) two_windows)).
  { rewrite Hidx. apply (bool_decide_unpack _). vm_compute. exact I. }
  assert (Hrange : 0 ≤ command_list_idx c < MU_COMMANDLIST_SIZE)
    by (rewrite Hidx; unfold MU_COMMANDLIST_SIZE; lia).
  destruct (emit_closes_roots two_windows c c' Hok Hnd Hrange Hemit)
    as (H1 & _ & H3 & _ & _ & H6).
  exists c, c'. split; [exact Hbegin|]. split; [exact Hemit|].
  split; [exact H1|]. split; [exact H3 | exact H6].
Defined.

(** ** Clipped icons and texts *)

Lemma mu_check_clip_values (c : mu_Context) (r : mu_Rectangle) (clipped : Z) :
  mu_check_clip c r = Ok clipped →
  clipped = MU_CLIP_ALL ∨ clipped = 0 ∨ clipped = MU_CLIP_PART.
Proof.
  unfold mu_check_clip. intros H. apply bind_Ok in H as (cr & _ & H).
  destruct (_ || _); [injection H as <-; auto|].
  destruct (_ && _); injection H as <-; auto.
Qed.

(** [mu_push_command] and the stores to the record that follow it. *)
Lemma push_record_Ok (c c' : mu_Context) (type size : Z) (data : mu_CommandData) :
  0 ≤ command_list_idx c < MU_COMMANDLIST_SIZE →
  0 < size < MU_COMMANDLIST_SIZE →
  ('(command, context) ← mu_push_command c type size;
   set_command_data command data context) = Ok c' →
  command_list_idx c + size < MU_COMMANDLIST_SIZE ∧
  c' = with_command_list_idx (command_list_idx c + size)
         (with_command_list_items
            (<[command_list_idx c :=
                 {| cmd_type := type; cmd_size := size; cmd_data := data |}]>
               (command_list_items c)) c).
Proof.
  intros Hidx Hsize H. apply bind_Ok in H as ([p c1] & Hpush & Hset).
  apply mu_push_command_Ok in Hpush as (-> & Hlt & ->).
  rewrite (int_add_small _ _ Hidx Hsize) in *.
  apply set_command_data_Ok in Hset as (k & Hk & ->). simpl in Hk |- *.
  rewrite lookup_insert_eq in Hk. injection Hk as <-. simpl.
  split; [done|]. by rewrite insert_insert_eq.
Qed.

Lemma mu_set_clip_Ok (c c' : mu_Context) (r : mu_Rectangle) :
  0 ≤ command_list_idx c < MU_COMMANDLIST_SIZE →
  mu_set_clip c r = Ok c' →
  command_list_idx c + sizeof_ClipCommand < MU_COMMANDLIST_SIZE ∧
  c' = with_command_list_idx (command_list_idx c + sizeof_ClipCommand)
         (with_command_list_items
            (<[command_list_idx c :=
                 {| cmd_type := MU_COMMAND_CLIP; cmd_size := sizeof_ClipCommand;
                    cmd_data := ClipData r |}]>
               (command_list_items c)) c).
Proof.
  intros Hidx H. apply push_record_Ok in H; [done | done |].
  unfold sizeof_ClipCommand, MU_COMMANDLIST_SIZE. lia.
Qed.

(** What [mu_draw_icon] and [mu_draw_text] have in common: a record pushed between
    two clip commands when it is partly clipped, alone when it is not clipped, not at
    all when it is clipped away. *)
Lemma clip_bracket (c c' : mu_Context) (clip : mu_Rectangle) (clipped type size : Z)
    (data : mu_CommandData) :
  0 ≤ command_list_idx c < MU_COMMANDLIST_SIZE →
  0 < size < MU_COMMANDLIST_SIZE →
  clipped = MU_CLIP_ALL ∨ clipped = 0 ∨ clipped = MU_CLIP_PART →
  mu_get_clip_rect c = Ok clip →
  (if clipped =? MU_CLIP_ALL then Ok c
   else
     context ←
       (if clipped =? MU_CLIP_PART then
          clip ← mu_get_clip_rect c;
          mu_set_clip c clip
        else Ok c);
     '(command, context) ← mu_push_command context type size;
     context ← set_command_data command data context;
     if negb (clipped =? 0) then mu_set_clip context unclipped_rect else Ok context)
  = Ok c' →
  let p := command_list_idx c in
  let record := {| cmd_type := type; cmd_size := size; cmd_data := data |} in
  let clip_to (r : mu_Rectangle) :=
    {| cmd_type := MU_COMMAND_CLIP; cmd_size := sizeof_ClipCommand;
       cmd_data := ClipData r |} in
  (clipped = MU_CLIP_ALL → c' = c) ∧
  (clipped = 0 →
   command_list_items c' !! p = Some record ∧ command_list_idx c' = p + size) ∧
  (clipped = MU_CLIP_PART →
   command_list_items c' !! p = Some (clip_to clip) ∧
   command_list_items c' !! (p + sizeof_ClipCommand) = Some record ∧
   command_list_items c' !! (p + sizeof_ClipCommand + size) = Some (clip_to unclipped_rect) ∧
   command_list_idx c' = p + sizeof_ClipCommand + size + sizeof_ClipCommand) ∧
  (∀ o, o < p → command_list_items c' !! o = command_list_items c !! o).
Proof.
  intros Hidx Hsize Hval Hclip H. cbv zeta.
  assert (HC : 0 < sizeof_ClipCommand) by (unfold sizeof_ClipCommand; lia).
  destruct Hval as [->|[->| ->]].
  - change (MU_CLIP_ALL =? MU_CLIP_ALL) with true in H. injection H as <-.
    repeat split; try done.
  - change (0 =? MU_CLIP_ALL) with false in H.
    change (0 =? MU_CLIP_PART) with false in H.
    change (negb (0 =? 0)) with false in H. cbv iota in H.
    change (Ok c ≫= ?f) with (f c) in H. cbv beta in H.
    assert (H' : ('(command, context) ← mu_push_command c type size;
                  set_command_data command data context) = Ok c').
    { destruct (mu_push_command c type size) as [[p c1]| | |]; try discriminate.
      simpl in H |- *. destruct (set_command_data p data c1); try discriminate.
      exact H. }
    apply push_record_Ok in H' as (Hlt & ->); [|done..]. simpl.
    split; [done|]. split; [intros _; by rewrite lookup_insert_eq|].
    split; [done|]. intros o Ho. apply lookup_insert_ne. lia.
  - change (MU_CLIP_PART =? MU_CLIP_ALL) with false in H.
    change (MU_CLIP_PART =? MU_CLIP_PART) with true in H.
    change (negb (MU_CLIP_PART =? 0)) with true in H. cbv iota in H.
    rewrite Hclip in H. change (Ok clip ≫= ?f) with (f clip) in H. cbv beta in H.
    apply bind_Ok in H as (c1 & H1 & H).
    apply mu_set_clip_Ok in H1 as (Hlt1 & ->); [|done].
    assert (H' : ∃ c2,
      ('(command, context) ←
         mu_push_command
           (with_command_list_idx (command_list_idx c + sizeof_ClipCommand)
              (with_command_list_items
                 (<[command_list_idx c :=
                      {| cmd_type := MU_COMMAND_CLIP; cmd_size := sizeof_ClipCommand;
                         cmd_data := ClipData clip |}]> (command_list_items c)) c))
           type size;
       set_command_data command data context) = Ok c2 ∧
      mu_set_clip c2 unclipped_rect = Ok c').
    { destruct (mu_push_command _ type size) as [[p c2]| | |]; try discriminate.
      simpl in H |- *. destruct (set_command_data p data c2) as [c3| | |];
        try discriminate.
      exists c3. split; [done | exact H]. }
    destruct H' as (c2 & H2 & H3).
    apply push_record_Ok in H2 as (Hlt2 & ->); [|simpl; lia | done].
    apply mu_set_clip_Ok in H3 as (Hlt3 & ->); [|simpl in *; lia]. simpl.
    split; [done|]. split; [done|]. split.
    + intros _. rewrite !lookup_insert_ne by lia. rewrite lookup_insert_eq.
      split; [done|]. rewrite lookup_insert_ne by lia. rewrite lookup_insert_eq.
      split; [done|]. by rewrite lookup_insert_eq.
    + intros o Ho. rewrite !lookup_insert_ne by lia. done.
Qed.

(** [mu_draw_icon]: an icon that is clipped away pushes nothing; one
    that is not clipped pushes its record; one that is partly clipped pushes a clip
    command for the clip rectangle, its record, and a clip command that resets the
    clipping, so the clipping of one icon never reaches the commands after it. *)
Theorem draw_icon_clip_bracket (c c' : mu_Context) (id clipped : Z)
    (r clip : mu_Rectangle) (color : mu_Color) :
  last (clip_stack c) = Some clip →
  0 ≤ command_list_idx c < MU_COMMANDLIST_SIZE →
  mu_check_clip c r = Ok clipped →
  mu_draw_icon c id r color = Ok c' →
  let p := command_list_idx c in
  let icon := {| cmd_type := MU_COMMAND_ICON; cmd_size := sizeof_IconCommand;
                 cmd_data := IconData r id color |} in
  let clip_to (r : mu_Rectangle) :=
    {| cmd_type := MU_COMMAND_CLIP; cmd_size := sizeof_ClipCommand;
       cmd_data := ClipData r |} in
  (clipped = MU_CLIP_ALL → c' = c) ∧
  (clipped = 0 →
   command_list_items c' !! p = Some icon ∧
   command_list_idx c' = p + sizeof_IconCommand) ∧
  (clipped = MU_CLIP_PART →
   command_list_items c' !! p = Some (clip_to clip) ∧
   command_list_items c' !! (p + sizeof_ClipCommand) = Some icon ∧
   command_list_items c' !! (p + sizeof_ClipCommand + sizeof_IconCommand)
     = Some (clip_to unclipped_rect) ∧
   command_list_idx c' =
     p + sizeof_ClipCommand + sizeof_IconCommand + sizeof_ClipCommand) ∧
  (∀ o, o < p → command_list_items c' !! o = command_list_items c !! o).
Proof.
  intros Hlast Hidx Hcheck H. unfold mu_draw_icon in H. rewrite Hcheck in H.
  change (Ok clipped ≫= ?f) with (f clipped) in H. cbv beta in H.
  apply (clip_bracket c c' clip clipped MU_COMMAND_ICON sizeof_IconCommand
           (IconData r id color)); [exact Hidx | | | | exact H].
  - unfold sizeof_IconCommand, MU_COMMANDLIST_SIZE. lia.
  - by eapply mu_check_clip_values.
  - by apply mu_get_clip_rect_last.
Qed.

Lemma draw_icon_clip_bracket_witness :
  ∃ c',
    mu_check_clip widget_context (mu_rect 190 10 20 20) = Ok MU_CLIP_PART ∧
    mu_draw_icon widget_context 2 (mu_rect 190 10 20 20) (mu_color 1 2 3 255) = Ok c' ∧
    command_list_items c' !! 0 =
      Some {| cmd_type := MU_COMMAND_CLIP; cmd_size := sizeof_ClipCommand;
              cmd_data := ClipData (mu_rect 0 0 200 100) |} ∧
    command_list_items c' !! (0 + sizeof_ClipCommand) =
      Some {| cmd_type := MU_COMMAND_ICON; cmd_size := sizeof_IconCommand;
              cmd_data := IconData (mu_rect 190 10 20 20) 2 (mu_color 1 2 3 255) |} ∧
    command_list_items c' !! (0 + sizeof_ClipCommand + sizeof_IconCommand) =
      Some {| cmd_type := MU_COMMAND_CLIP; cmd_size := sizeof_ClipCommand;
              cmd_data := ClipData unclipped_rect |} ∧
    command_list_idx c' = 0 + sizeof_ClipCommand + sizeof_IconCommand + sizeof_ClipCommand.
Proof.
  assert (H : ∃ c',
    mu_check_clip widget_context (mu_rect 190 10 20 20) = Ok MU_CLIP_PART ∧
    mu_draw_icon widget_context 2 (mu_rect 190 10 20 20) (mu_color 1 2 3 255) = Ok c')
    by (eexists; split; [vm_compute; reflexivity | vm_compute; reflexivity]).
  destruct H as (c' & Hcheck & H). exists c'.
  split; [exact Hcheck|]. split; [exact H|].
  assert (Hidx : 0 ≤ command_list_idx widget_context < MU_COMMANDLIST_SIZE)
    by (simpl; unfold MU_COMMANDLIST_SIZE; lia).
  exact (proj1 (proj2 (proj2
           (draw_icon_clip_bracket widget_context c' 2 MU_CLIP_PART (mu_rect 190 10 20 20)
              (mu_rect 0 0 200 100) (mu_color 1 2 3 255) eq_refl Hidx Hcheck H)))
           eq_refl).
Defined.

(** [mu_draw_text]: the same bracket around a text; the record holds
    the first [length] bytes of the string, all of it when [length] is negative. *)
Theorem draw_text_clip_bracket (c c' : mu_Context) (font length clipped : Z)
    (str : list byte) (position : mu_Vector2) (color : mu_Color)
    (clip : mu_Rectangle) (tw : Z → list byte → Z → Z) (th : Z → Z) :
  text_width c = Some tw → text_height c = Some th →
  last (clip_stack c) = Some clip →
  0 ≤ command_list_idx c < MU_COMMANDLIST_SIZE →
  length < MU_COMMANDLIST_SIZE - sizeof_TextCommand →
  Z.of_nat (List.length str) < MU_COMMANDLIST_SIZE - sizeof_TextCommand →
  mu_check_clip c (mu_rect (vec_x position) (vec_y position) (tw font str length)
                     (th font)) = Ok clipped →
  mu_draw_text c font str length position color = Ok c' →
  let p := command_list_idx c in
  let n := if length <? 0 then Z.of_nat (List.length str) else length in
  let text := {| cmd_type := MU_COMMAND_TEXT; cmd_size := sizeof_TextCommand + n;
                 cmd_data := TextData font position color (take (Z.to_nat n) str) |} in
  let clip_to (r : mu_Rectangle) :=
    {| cmd_type := MU_COMMAND_CLIP; cmd_size := sizeof_ClipCommand;
       cmd_data := ClipData r |} in
  (clipped = MU_CLIP_ALL → c' = c) ∧
  (clipped = 0 →
   command_list_items c' !! p = Some text ∧
   command_list_idx c' = p + (sizeof_TextCommand + n)) ∧
  (clipped = MU_CLIP_PART →
   command_list_items c' !! p = Some (clip_to clip) ∧
   command_list_items c' !! (p + sizeof_ClipCommand) = Some text ∧
   command_list_items c' !! (p + sizeof_ClipCommand + (sizeof_TextCommand + n))
     = Some (clip_to unclipped_rect) ∧
   command_list_idx c' =
     p + sizeof_ClipCommand + (sizeof_TextCommand + n) + sizeof_ClipCommand) ∧
  (∀ o, o < p → command_list_items c' !! o = command_list_items c !! o).
Proof.
  intros Htw Hth Hlast Hidx Hlen Hstr Hcheck H. unfold mu_draw_text in H.
  rewrite Htw, Hth in H.
  change (deref (Some tw) ≫= ?f) with (f tw) in H. cbv beta in H.
  change (deref (Some th) ≫= ?f) with (f th) in H. cbv beta zeta in H.
  rewrite Hcheck in H.
  change (Ok clipped ≫= ?f) with (f clipped) in H. cbv beta in H.
  assert (Hn : 0 ≤ (if length <? 0 then Z.of_nat (List.length str) else length)
               < MU_COMMANDLIST_SIZE - sizeof_TextCommand)
    by (destruct (Z.ltb_spec length 0); lia).
  assert (Hsize : int_add sizeof_TextCommand
                    (if length <? 0 then Z.of_nat (List.length str) else length)
                  = sizeof_TextCommand
                    + (if length <? 0 then Z.of_nat (List.length str) else length)).
  { unfold int_add. apply wrap_int_id. revert Hn.
    unfold sizeof_TextCommand, MU_COMMANDLIST_SIZE. int_bounds. lia. }
  rewrite Hsize in H. cbv zeta.
  apply (clip_bracket c c' clip clipped MU_COMMAND_TEXT _
           (TextData font position color _)); [exact Hidx | | | | exact H].
  - revert Hn. unfold sizeof_TextCommand, MU_COMMANDLIST_SIZE. lia.
  - by eapply mu_check_clip_values.
  - by apply mu_get_clip_rect_last.
Qed.

Lemma draw_text_clip_bracket_witness :
  ∃ c',
    mu_draw_text widget_context 0 hello (-1) (mu_vec2 10 10) (mu_color 1 2 3 255)
      = Ok c' ∧
    command_list_items c' !! 0 =
      Some {| cmd_type := MU_COMMAND_TEXT; cmd_size := sizeof_TextCommand + 6;
              cmd_data := TextData 0 (mu_vec2 10 10) (mu_color 1 2 3 255) hello |} ∧
    command_list_idx c' = 0 + (sizeof_TextCommand + 6).
Proof.
  assert (H : ∃ c',
    mu_check_clip widget_context
      (mu_rect 10 10 (demo_text_width 0 hello (-1)) (demo_text_height 0)) = Ok 0 ∧
    mu_draw_text widget_context 0 hello (-1) (mu_vec2 10 10) (mu_color 1 2 3 255)
      = Ok c')
    by (eexists; split; [vm_compute; reflexivity | vm_compute; reflexivity]).
  destruct H as (c' & Hcheck & H). exists c'. split; [exact H|].
  assert (Hidx : 0 ≤ command_list_idx widget_context < MU_COMMANDLIST_SIZE)
    by (simpl; unfold MU_COMMANDLIST_SIZE; lia).
  refine (proj1 (proj2
           (draw_text_clip_bracket widget_context c' 0 (-1) 0 hello (mu_vec2 10 10)
              (mu_color 1 2 3 255) (mu_rect 0 0 200 100) demo_text_width
              demo_text_height eq_refl eq_refl eq_refl Hidx _ _ Hcheck H)) eq_refl).
  - unfold MU_COMMANDLIST_SIZE, sizeof_TextCommand. lia.
  - simpl. unfold MU_COMMANDLIST_SIZE, sizeof_TextCommand. lia.
Defined.

(** ** The hover root at the end of the frame *)

Section FrameEndFront.

Variable qsort : (nat → nat → Z) → list nat → list nat.

(** [mu_end]: when a mouse button was pressed during the frame, the
    root container under the mouse (the next hover root) is brought to the front,
    unless it is there already; without a press no [zindex] changes. *)
Theorem end_raises_hover_root (c c' : mu_Context) (h : nat) (k : mu_Container) :
  mu_end qsort c = Ok c' →
  scroll_target c = None →
  next_hover_root c = Some h →
  containers c !! h = Some k →
  (mouse_pressed c ≠ 0 → 0 ≤ cnt_zindex k < last_zindex c →
   last_zindex c' = int_add (last_zindex c) 1 ∧
   containers c' =
     <[h := with_cnt_zindex (int_add (last_zindex c) 1) k]> (containers c)) ∧
  (mouse_pressed c = 0 ∨ cnt_zindex k = last_zindex c →
   last_zindex c' = last_zindex c ∧ containers c' = containers c).
Proof.
  unfold mu_end. intros H Hscroll Hhover Hk.
  apply bind_Ok in H as (u1 & _ & H). apply bind_Ok in H as (u2 & _ & H).
  apply bind_Ok in H as (u3 & _ & H). apply bind_Ok in H as (u4 & _ & H).
  rewrite Hscroll in H. change (Ok c ≫= ?f) with (f c) in H. cbv beta zeta in H.
  apply bind_Ok in H as (c2 & Hfront & H).
  apply set_root_jumps_frame in H.
  assert (Hc' : last_zindex c' = last_zindex c2 ∧ containers c' = containers c2)
    by (rewrite H; done).
  destruct Hc' as [-> ->]. clear H.
  assert (Hfront' :
    (if negb (mouse_pressed c =? 0) then
       if (cnt_zindex k <? last_zindex c) && (cnt_zindex k >=? 0)
       then mu_bring_to_front
              (with_updated_focus 0
                 (if updated_focus c =? 0 then with_focus 0 c else c)) h
       else Ok (with_updated_focus 0
                  (if updated_focus c =? 0 then with_focus 0 c else c))
     else Ok (with_updated_focus 0
                (if updated_focus c =? 0 then with_focus 0 c else c))) = Ok c2).
  { rewrite <- Hfront. destruct (updated_focus c =? 0); simpl;
      rewrite Hhover, Hk; simpl; reflexivity. }
  clear Hfront. split.
  - intros Hpressed Hz.
    rewrite (proj2 (Z.eqb_neq _ _) Hpressed) in Hfront'. simpl in Hfront'.
    rewrite (proj2 (Z.ltb_lt _ _) (proj2 Hz)) in Hfront'.
    rewrite (proj2 (Z.geb_le _ _) (proj1 Hz)) in Hfront'. simpl in Hfront'.
    unfold mu_bring_to_front in Hfront'.
    apply update_container_Ok in Hfront' as (k' & Hk' & ->).
    destruct (updated_focus c =? 0); simpl in Hk' |- *;
      rewrite Hk in Hk'; injection Hk' as <-; done.
  - intros Hcase.
    assert (Hc2 : c2 = with_updated_focus 0
                         (if updated_focus c =? 0 then with_focus 0 c else c)).
    { destruct Hcase as [Hp|Hz].
      - rewrite Hp in Hfront'. simpl in Hfront'. by injection Hfront' as <-.
      - destruct (negb (mouse_pressed c =? 0)); [|by injection Hfront' as <-].
        rewrite Hz, Z.ltb_irrefl in Hfront'. simpl in Hfront'.
        by injection Hfront' as <-. }
    rewrite Hc2. by destruct (updated_focus c =? 0).
Qed.

End FrameEndFront.

Lemma end_raises_hover_root_witness :
  ∃ c',
    mu_end insertion_sort
      (with_mouse_pressed MU_MOUSE_LEFT
         (with_next_hover_root (Some 1%nat) two_windows_context)) = Ok c' ∧
    last_zindex c' = int_add (last_zindex two_windows_context) 1 ∧
    containers c' =
      <[1%nat := with_cnt_zindex (int_add (last_zindex two_windows_context) 1)
                   (with_cnt_zindex 1 zero_container)]>
        (containers two_windows_context).
Proof.
  assert (H : ∃ c',
    mu_end insertion_sort
      (with_mouse_pressed MU_MOUSE_LEFT
         (with_next_hover_root (Some 1%nat) two_windows_context)) = Ok c')
    by (eexists; vm_compute; reflexivity).
  destruct H as [c' H]. exists c'. split; [exact H|].
  refine (proj1 (end_raises_hover_root insertion_sort _ c' 1
                   (with_cnt_zindex 1 zero_container) H eq_refl eq_refl eq_refl) _ _).
  - simpl. discriminate.
  - simpl. lia.
Defined.

(** ** Rows *)

(** [mu_layout_row] then [mu_layout_next]: more than 16 widths abort;
    otherwise the first widget of the row gets the first width and the height of the
    row, at the left of the body (after the indentation) and below the rows so far. *)
Theorem layout_row_first_cell (c : mu_Context) (layout : mu_Layout) (ws : list Z)
    (w0 items height : Z) :
  last (layout_stack c) = Some layout →
  layout_next_type layout = 0 →
  (MU_MAX_WIDTHS < items → mu_layout_row c items (Some ws) height = Fatal) ∧
  (0 < items ≤ MU_MAX_WIDTHS → items ≤ Z.of_nat (length ws) →
   ws !! 0%nat = Some w0 → 0 < w0 → 0 < height →
   ∃ c1 c2,
     mu_layout_row c items (Some ws) height = Ok c1 ∧
     mu_layout_next c1 =
       Ok (mu_rect (int_add (layout_indentation layout) (rect_x (layout_body layout)))
                   (int_add (layout_next_row layout) (rect_y (layout_body layout)))
                   w0 height, c2)).
Proof.
  intros Hlast Htype.
  assert (Hget : get_layout c = Ok layout) by (by apply get_layout_last).
  split.
  - intros Hitems. unfold mu_layout_row. rewrite Hget.
    change (Ok layout ≫= ?f) with (f layout). cbv beta.
    by rewrite (proj2 (Z.leb_gt _ _) Hitems).
  - intros Hitems Hlen Hw0 Hpos Hheight.
    eexists _, _. split.
    { unfold mu_layout_row. rewrite Hget.
      change (Ok layout ≫= ?f) with (f layout). cbv beta.
      rewrite (proj2 (Z.leb_le _ _) (proj2 Hitems)).
      replace (0 <=? items) with true by (symmetry; apply Z.leb_le; lia).
      rewrite (proj2 (Z.leb_le _ _) Hlen).
      change (expect true ≫= ?f) with (f tt). cbv beta iota.
      change (true && true) with true. cbv iota.
      change (Ok ?x ≫= ?f) with (f x). cbv beta.
      apply (set_layout_Ok _ layout). exact Hlast. }
    unfold mu_layout_next, get_layout. simpl layout_stack. rewrite last_snoc.
    change (deref (Some ?l) ≫= ?f) with (f l). cbv beta zeta.
    cbn [layout_next_type layout_item_index layout_items].
    rewrite Htype. change (negb (0 =? 0)) with false. cbv iota.
    replace (0 =? items) with false by (symmetry; apply Z.eqb_neq; lia).
    change (Ok ?x ≫= ?f) with (f x). cbv beta.
    simpl layout_stack. rewrite last_snoc.
    change (deref (Some ?l) ≫= ?f) with (f l). cbv beta.
    unfold layout_cell_size.
    cbn [layout_items layout_item_index layout_widths layout_size layout_position
         layout_body vec_x vec_y mu_vec2].
    replace (items >? 0) with true by (symmetry; apply Z.gtb_lt; lia).
    change (0 <? 0) with false. cbv iota.
    change (Z.to_nat 0) with 0%nat.
    rewrite lookup_app_l by (rewrite length_take; apply lookup_lt_Some in Hw0; lia).
    rewrite lookup_take_lt by lia. rewrite Hw0.
    change (deref (Some ?x) ≫= ?f) with (f x). cbv beta zeta.
    replace (w0 =? 0) with false by (symmetry; apply Z.eqb_neq; lia).
    replace (height =? 0) with false by (symmetry; apply Z.eqb_neq; lia).
    replace (w0 <? 0) with false by (symmetry; apply Z.ltb_ge; lia).
    replace (height <? 0) with false by (symmetry; apply Z.ltb_ge; lia).
    change (Ok ?x ≫= ?f) with (f x). cbv beta iota.
    unfold layout_place. cbv beta zeta iota.
    erewrite set_layout_Ok by (simpl; apply last_snoc).
    reflexivity.
Qed.

Lemma layout_row_first_cell_witness :
  ∃ c1 c2,
    mu_layout_row fill_context 2 (Some [40; 50]) 20 = Ok c1 ∧
    mu_layout_next c1 =
      Ok (mu_rect (int_add (layout_indentation fill_layout)
                     (rect_x (layout_body fill_layout)))
                  (int_add (layout_next_row fill_layout)
                     (rect_y (layout_body fill_layout))) 40 20, c2).
Proof.
  apply (proj2 (layout_row_first_cell fill_context fill_layout [40; 50] 40 2 20
                  eq_refl eq_refl));
    try reflexivity; try (unfold MU_MAX_WIDTHS; simpl; lia); lia.
Defined.

(** [mu_layout_width]: in a row without columns the width set is the
    width of the widget that follows. *)
Theorem layout_width_sets_width (c : mu_Context) (layout : mu_Layout) (w : Z) :
  last (layout_stack c) = Some layout →
  layout_next_type layout = 0 →
  layout_items layout = 0 →
  0 < w →
  ∃ c1 r c2,
    mu_layout_width c w = Ok c1 ∧
    mu_layout_next c1 = Ok (r, c2) ∧
    rect_w r = w ∧ last_rect c2 = r.
Proof.
  intros Hlast Htype Hitems Hw.
  assert (Hget : get_layout c = Ok layout) by (by apply get_layout_last).
  assert (H1 : mu_layout_width c w =
               Ok (with_layout_stack
                     (removelast (layout_stack c)
                      ++ [with_layout_size (mu_vec2 w (vec_y (layout_size layout))) layout])
                     c)).
  { unfold mu_layout_width. rewrite Hget.
    change (Ok layout ≫= ?f) with (f layout). cbv beta.
    apply (set_layout_Ok _ layout). exact Hlast. }
  destruct (layout_item_index layout =? 0) eqn:Hindex;
    eexists _, _, _; (split; [exact H1|]);
    unfold mu_layout_next, get_layout; simpl layout_stack; rewrite last_snoc;
    change (deref (Some ?l) ≫= ?f) with (f l); cbv beta zeta;
    cbn [layout_next_type layout_item_index layout_items with_layout_size];
    rewrite Htype, Hitems, Hindex; change (negb (0 =? 0)) with false; cbv iota.
  - unfold mu_layout_row, get_layout. simpl layout_stack. rewrite last_snoc.
    change (deref (Some ?l) ≫= ?f) with (f l). cbv beta.
    change (Ok ?x ≫= ?f) with (f x). cbv beta.
    erewrite set_layout_Ok by (simpl; apply last_snoc).
    change (Ok ?x ≫= ?f) with (f x). cbv beta.
    simpl layout_stack. rewrite last_snoc.
    change (deref (Some ?l) ≫= ?f) with (f l). cbv beta.
    unfold layout_cell_size.
    cbn [layout_items layout_item_index layout_widths layout_size layout_position
         layout_body vec_x vec_y mu_vec2 with_layout_size].
    rewrite ?Hitems. change (0 >? 0) with false. cbv iota.
    change (Ok ?x ≫= ?f) with (f x). cbv beta zeta.
    replace (w =? 0) with false by (symmetry; apply Z.eqb_neq; lia).
    replace (w <? 0) with false by (symmetry; apply Z.ltb_ge; lia).
    change (Ok ?x ≫= ?f) with (f x). cbv beta iota.
    unfold layout_place. cbv beta zeta iota.
    erewrite set_layout_Ok by (simpl; apply last_snoc).
    change (Ok ?x ≫= ?f) with (f x). cbv beta.
    split; [reflexivity|]. split; reflexivity.
  - change (Ok ?x ≫= ?f) with (f x). cbv beta.
    simpl layout_stack. rewrite last_snoc.
    change (deref (Some ?l) ≫= ?f) with (f l). cbv beta.
    unfold layout_cell_size.
    cbn [layout_items layout_item_index layout_widths layout_size layout_position
         layout_body vec_x vec_y mu_vec2 with_layout_size].
    rewrite ?Hitems. change (0 >? 0) with false. cbv iota.
    change (Ok ?x ≫= ?f) with (f x). cbv beta zeta.
    replace (w =? 0) with false by (symmetry; apply Z.eqb_neq; lia).
    replace (w <? 0) with false by (symmetry; apply Z.ltb_ge; lia).
    change (Ok ?x ≫= ?f) with (f x). cbv beta iota.
    unfold layout_place. cbv beta zeta iota.
    erewrite set_layout_Ok by (simpl; apply last_snoc).
    change (Ok ?x ≫= ?f) with (f x). cbv beta.
    split; [reflexivity|]. split; reflexivity.
Qed.

Lemma layout_width_sets_width_witness :
  ∃ c1 r c2,
    mu_layout_width (with_layout_stack [with_layout_items 0 fill_layout] demo_context) 70
      = Ok c1 ∧
    mu_layout_next c1 = Ok (r, c2) ∧
    rect_w r = 70 ∧ last_rect c2 = r.
Proof.
  apply (layout_width_sets_width
           (with_layout_stack [with_layout_items 0 fill_layout] demo_context)
           (with_layout_items 0 fill_layout) 70); try reflexivity.
Defined.

(** ** Scrolling at the end of the frame *)

Lemma update_container_scroll (f : mu_Container → mu_Container) (cs : list mu_Container)
    (cnt j : nat) (k : mu_Container) :
  cs !! cnt = Some k → cnt_scroll (f k) = cnt_scroll k →
  cnt_scroll <$> <[cnt := f k]> cs !! j = cnt_scroll <$> cs !! j.
Proof.
  intros Hk Hf. destruct (decide (cnt = j)) as [->|Hne].
  - rewrite list_lookup_insert_eq by (by eapply lookup_lt_Some). rewrite Hk. simpl.
    by rewrite Hf.
  - by rewrite list_lookup_insert_ne.
Qed.

Section FrameEndScroll.

Variable qsort : (nat → nat → Z) → list nat → list nat.

(** [mu_end]: the scroll input of the frame goes to the scroll target:
    its [scroll] moves by [scroll_delta] (in [int] arithmetic), and no other container
    scrolls. *)
Theorem end_scrolls_target (c c' : mu_Context) (t : nat) (k : mu_Container) :
  mu_end qsort c = Ok c' →
  scroll_target c = Some t →
  containers c !! t = Some k →
  cnt_scroll <$> containers c' !! t =
    Some (mu_vec2 (int_add (vec_x (cnt_scroll k)) (vec_x (scroll_delta c)))
                  (int_add (vec_y (cnt_scroll k)) (vec_y (scroll_delta c)))) ∧
  ∀ other, other ≠ t →
    cnt_scroll <$> containers c' !! other = cnt_scroll <$> containers c !! other.
Proof.
  unfold mu_end. intros H Hscroll Hk.
  apply bind_Ok in H as (u1 & _ & H). apply bind_Ok in H as (u2 & _ & H).
  apply bind_Ok in H as (u3 & _ & H). apply bind_Ok in H as (u4 & _ & H).
  rewrite Hscroll in H.
  apply bind_Ok in H as (c1 & Hupd & H).
  apply update_container_Ok in Hupd as (k' & Hk' & ->).
  rewrite Hk in Hk'. injection Hk' as <-.
  cbv zeta in H.
  apply bind_Ok in H as (c2 & Hfront & H).
  apply set_root_jumps_frame in H.
  assert (Hc' : containers c' = containers c2) by (rewrite H; done).
  rewrite Hc'. clear H Hc'.
  match type of Hfront with
  | context [negb (mouse_pressed ?x =? 0)] => set (c0 := x) in *
  end.
  assert (Hc0 : containers c0 =
                <[t := with_cnt_scroll
                         (mu_vec2 (int_add (vec_x (cnt_scroll k)) (vec_x (scroll_delta c)))
                                  (int_add (vec_y (cnt_scroll k)) (vec_y (scroll_delta c))))
                         k]> (containers c))
    by (subst c0; by destruct (updated_focus _ =? 0)).
  assert (Hc2 : ∀ j, cnt_scroll <$> containers c2 !! j = cnt_scroll <$> containers c0 !! j).
  { intros j.
    destruct (negb (mouse_pressed c0 =? 0)); [|by injection Hfront as <-].
    destruct (next_hover_root c0); [|by injection Hfront as <-].
    apply bind_Ok in Hfront as (hc & _ & Hfront).
    destruct (_ && _); [|by injection Hfront as <-].
    unfold mu_bring_to_front in Hfront.
    apply update_container_Ok in Hfront as (kh & Hkh & ->). simpl in Hkh |- *.
    by apply update_container_scroll. }
  split.
  - rewrite Hc2, Hc0, list_lookup_insert_eq by (by eapply lookup_lt_Some). done.
  - intros other Hne. by rewrite Hc2, Hc0, list_lookup_insert_ne.
Qed.

End FrameEndScroll.

Lemma end_scrolls_target_witness :
  ∃ c',
    mu_end insertion_sort
      (mu_input_scroll (with_scroll_target (Some 1%nat) two_windows_context) 0 (-30))
      = Ok c' ∧
    cnt_scroll <$> containers c' !! 1%nat = Some (mu_vec2 (int_add 0 0) (int_add 0 (-30))).
Proof.
  assert (H : ∃ c',
    mu_end insertion_sort
      (mu_input_scroll (with_scroll_target (Some 1%nat) two_windows_context) 0 (-30))
      = Ok c') by (eexists; vm_compute; reflexivity).
  destruct H as [c' H]. exists c'. split; [exact H|].
  exact (proj1 (end_scrolls_target insertion_sort _ c' 1
                  (with_cnt_zindex 1 zero_container) H eq_refl eq_refl)).
Defined.
